(** * Span lifecycle, metric registry and payload redaction of the
      NestJS observability library, as a shallow embedding.

    The development follows the TypeScript sources:
    - [lib/tracing/interceptors/tracing.interceptor.ts] (payload sanitizer),
    - [lib/tracing/tracing.service.ts] (createSpan / endSpan / trace /
      traceWithActiveSpan),
    - [lib/services/metrics.service.ts] and
      [lib/services/observability.service.ts] (instrument registry, gauges),
    - [lib/services/tracing.service.ts] and
      [lib/interceptors/http-trace.interceptor.ts] (HTTP boundary).

    JavaScript values are a tree type; effectful code is written in a small
    state-and-exception monad over an explicit process state.  Nest's
    [Logger] and the console are write-only sinks that no modelled code
    reads back; calls to them are left out. *)

From Stdlib Require Import ZArith Ascii DecimalString.
From stdpp Require Import base option list gmap strings.

(** ** JavaScript values *)

(** Request payloads, attribute values and results.  Numbers are only
    stored and forwarded by this library, never computed with, so integers
    stand for them. *)
#[warnings="-register-all"]
Inductive JsVal : Type :=
| JUndefined
| JNull
| JBool (b : bool)
| JNum (n : Z)
| JStr (s : string)
| JArr (elems : list JsVal)
| JObj (props : list (string * JsVal)).

(** An object literal is kept as its own enumerable properties in
    enumeration order; a well-formed one has pairwise distinct keys. *)
Abbreviation Props := (list (string * JsVal)) (only parsing).

(** [typeof v === 'object' && v !== null] *)
Definition is_object (v : JsVal) : bool :=
  match v with
  | JArr _ | JObj _ => true
  | _ => false
  end.

(** JavaScript truthiness, as used by [if (v)], [v || d] and [!v]. *)
Definition truthy (v : JsVal) : bool :=
  match v with
  | JUndefined | JNull => false
  | JBool b => b
  | JNum n => negb (n =? 0)%Z
  | JStr s => negb (String.eqb s "")
  | JArr _ | JObj _ => true
  end.

(** [o[k]] *)
Fixpoint assoc {V : Type} (k : string) (o : list (string * V)) : option V :=
  match o with
  | [] => None
  | (k', v) :: rest => if String.eqb k k' then Some v else assoc k rest
  end.

(** [o[k] = v]: overwrite in place when the key exists, else append. *)
Fixpoint obj_set {V : Type} (k : string) (v : V) (o : list (string * V))
  : list (string * V) :=
  match o with
  | [] => [(k, v)]
  | (k', v') :: rest =>
      if String.eqb k k' then (k, v) :: rest else (k', v') :: obj_set k v rest
  end.

(** [{ ...a, ...b }] *)
Definition spread (a b : Props) : Props :=
  fold_left (fun acc kv => obj_set kv.1 kv.2 acc) b a.

(** Property read [v.k] on a value that is neither null nor undefined;
    the primitives carry none of the properties read by this library. *)
Definition get_prop (v : JsVal) (k : string) : JsVal :=
  match v with
  | JObj o => default JUndefined (assoc k o)
  | _ => JUndefined
  end.

(** ** Strings *)

Module Str.

Definition is_upper (c : ascii) : bool :=
  let n := nat_of_ascii c in (65 <=? n) && (n <=? 90).

Definition lower_char (c : ascii) : ascii :=
  if is_upper c then ascii_of_nat (nat_of_ascii c + 32) else c.

Definition is_byte (n : nat) (c : ascii) : bool := nat_of_ascii c =? n.

(** [s.toLowerCase()].  A character beyond ASCII is held as the bytes of
    its UTF-8 form.  The letters A-Z become a-z.  Beyond ASCII, the
    lower-case form of a character holds an ASCII character in two cases
    only: U+212A KELVIN SIGN (bytes E2 84 AA) becomes [k], and U+0130 LATIN
    CAPITAL LETTER I WITH DOT ABOVE (bytes C4 B0) becomes [i] followed by
    U+0307 (bytes CC 87).  Every other character beyond ASCII is kept as it
    is: its lower-case form has no ASCII character, so whether an ASCII text
    occurs in the result, and where, is as in JavaScript. *)
Fixpoint toLowerCase (s : string) : string :=
  match s with
  | EmptyString => EmptyString
  | String c r =>
      match r with
      | String c2 r2 =>
          if is_byte 196 c && is_byte 176 c2 then
            String "i" (String (ascii_of_nat 204) (String (ascii_of_nat 135)
                                                     (toLowerCase r2)))
          else
            match r2 with
            | String c3 r3 =>
                if is_byte 226 c && is_byte 132 c2 && is_byte 170 c3
                then String "k" (toLowerCase r3)
                else String (lower_char c) (toLowerCase r)
            | EmptyString => String (lower_char c) (toLowerCase r)
            end
      | EmptyString => String (lower_char c) EmptyString
      end
  end.

Fixpoint startsWith (s t : string) {struct t} : bool :=
  match t, s with
  | EmptyString, _ => true
  | String _ _, EmptyString => false
  | String b t', String a s' => Ascii.eqb a b && startsWith s' t'
  end.

(** [s.includes(t)] *)
Fixpoint includes (s t : string) : bool :=
  startsWith s t ||
  match s with
  | EmptyString => false
  | String _ s' => includes s' t
  end.

Fixpoint has_upper (s : string) : bool :=
  match s with
  | EmptyString => false
  | String c r => is_upper c || has_upper r
  end.

(** Decimal rendering of an array index, as in [Object.keys([..])]. *)
Definition of_index (i : nat) : string :=
  NilEmpty.string_of_uint (Nat.to_uint i).

End Str.

(** ** The request-payload sanitizer (value level) *)

Module Sanitizer.

Definition REDACTED : string := "[REDACTED]".

Definition sensitiveFields : list string :=
  [ "password"; "token"; "secret"; "authorization"; "key"; "apiKey"; "api_key";
    "credential"; "credentials"; "accessToken"; "refreshToken"; "auth";
    "jwt"; "session"; "cookie"; "csrf"; "ssn"; "cc"; "card"; "cvv"; "pin" ].

(** [sensitiveFields.some(field =>
       key.toLowerCase().includes(field.toLowerCase()))] *)
Definition is_sensitive (key : string) : bool :=
  existsb (fun field => Str.includes (Str.toLowerCase key) (Str.toLowerCase field))
          sensitiveFields.

Section MapFrom.
Context {A B : Type} (f : nat -> A -> B).
(** [l.map((x, i) => f(i, x))] with indices counted from [i]. *)
Fixpoint map_from (i : nat) (l : list A) : list B :=
  match l with
  | [] => []
  | x :: rest => f i x :: map_from (S i) rest
  end.
End MapFrom.

(** The terms as the specification lists them, and its test: the
    lower-cased key contains one of them. *)
Definition listed_terms : list string :=
  [ "password"; "token"; "secret"; "authorization"; "key"; "credential";
    "accessToken"; "refreshToken"; "auth"; "jwt"; "session"; "cookie";
    "csrf"; "ssn"; "cc"; "card"; "cvv"; "pin" ].

Definition names_listed_term (key : string) : bool :=
  existsb (fun term => Str.includes (Str.toLowerCase key) term) listed_terms.

(** The redaction rule in the specification's words: a key naming a listed
    term gets the marker, a nested object is walked, and anything else
    (arrays and primitives) is passed through. *)
Fixpoint redaction_rule (data : JsVal) : JsVal :=
  match data with
  | JObj o =>
      JObj (map (fun kv : string * JsVal =>
                   let (key, v) := kv in
                   if names_listed_term key then (key, JStr REDACTED)
                   else match v with
                        | JObj _ => (key, redaction_rule v)
                        | _ => (key, v)
                        end) o)
  | _ => data
  end.

(** Own enumerable properties picked up by a spread of an array:
    its elements under their indices. *)
Definition index_props (elems : list JsVal) : Props :=
  map_from (fun i v => (Str.of_index i, v)) 0%nat elems.

Fixpoint char_props (i : nat) (s : string) : Props :=
  match s with
  | EmptyString => []
  | String c r => (Str.of_index i, JStr (String c EmptyString)) :: char_props (S i) r
  end.

(** [{ ...data }] *)
Definition spread_of (data : JsVal) : Props :=
  match data with
  | JObj o => o
  | JArr l => index_props l
  | JStr s => char_props 0 s
  | _ => []
  end.

(** Body of the loop over [Object.keys(sanitized)] for one key: the entry
    is overwritten with the marker, or with the sanitized copy of a nested
    object, or left as copied. *)
Definition sanitize_entry (recur : JsVal -> JsVal) (kv : string * JsVal)
  : string * JsVal :=
  let (key, v) := kv in
  if is_sensitive key then (key, JStr REDACTED)
  else if is_object v then (key, recur v)
  else (key, v).

(** [sanitizeData].  Each iteration rewrites one entry of the copy and
    reads no other, so the loop is a map over the copied entries.  An
    array argument is spread into an object keyed by its indices. *)
Fixpoint sanitizeData (data : JsVal) : JsVal :=
  match data with
  | JObj o => JObj (map (sanitize_entry sanitizeData) o)
  | JArr l =>
      JObj (map_from (fun i v => sanitize_entry sanitizeData (Str.of_index i, v))
                     0 l)
  | _ => JObj (map (sanitize_entry (fun v => v)) (spread_of data))
  end.

End Sanitizer.

(** ** The request-payload sanitizer (store level)

    The same function over an explicit object store, to speak about what it
    writes: objects live at locations, a property holds a primitive or a
    reference, and an array is an object whose enumerable keys are its
    indices.  A store may hold cyclic objects, on which the recursion does
    not end; [fuel] bounds its depth. *)

Module SanitizerHeap.

Abbreviation loc := nat (only parsing).

Inductive Prim : Type :=
| PUndefined | PNull | PBool (b : bool) | PNum (n : Z) | PStr (s : string).

Inductive HVal : Type :=
| HPrim (p : Prim)
| HRef (l : loc).

Abbreviation HObj := (list (string * HVal)) (only parsing).
Abbreviation heap := (list (list (string * HVal))) (only parsing).

(** [{ ...o }]: a new object with the same entries. *)
Definition alloc (o : HObj) (h : heap) : loc * heap := (length h, h ++ [o]).

(** [obj[key] = v] on the object at [l]. *)
Definition store (l : loc) (key : string) (v : HVal) (h : heap) : heap :=
  alter (obj_set key v) l h.

(** [obj[key]] on the object at [l]. *)
Definition load (l : loc) (key : string) (h : heap) : option HVal :=
  o ← h !! l; assoc key o.

(** One iteration of the loop over [Object.keys(sanitized)]. *)
Definition sanitize_key (recur : loc -> heap -> option (loc * heap))
    (sanitized : loc) (h : heap) (key : string) : option heap :=
  if Sanitizer.is_sensitive key
  then Some (store sanitized key (HPrim (PStr Sanitizer.REDACTED)) h)
  else match load sanitized key h with
       | Some (HRef r) =>
           match recur r h with
           | Some (r', h') => Some (store sanitized key (HRef r') h')
           | None => None
           end
       | _ => Some h
       end.

Fixpoint forEach (body : heap -> string -> option heap)
    (keys : list string) (h : heap) : option heap :=
  match keys with
  | [] => Some h
  | key :: rest =>
      match body h key with
      | Some h' => forEach body rest h'
      | None => None
      end
  end.

Fixpoint sanitizeData (fuel : nat) (data : loc) (h : heap)
  : option (loc * heap) :=
  match fuel with
  | O => None
  | S n =>
      match h !! data with
      | None => None
      | Some o =>
          let (sanitized, h1) := alloc o h in
          match forEach (sanitize_key (sanitizeData n) sanitized) (map fst o) h1 with
          | Some h2 => Some (sanitized, h2)
          | None => None
          end
      end
  end.

Definition prim_val (p : Prim) : JsVal :=
  match p with
  | PUndefined => JUndefined
  | PNull => JNull
  | PBool b => JBool b
  | PNum n => JNum n
  | PStr s => JStr s
  end.

(** Reading a value back as a tree, to depth [fuel]; [None] when the
    object graph is deeper (in particular when it is cyclic) or dangling. *)
Fixpoint reify (fuel : nat) (h : heap) (v : HVal) : option JsVal :=
  match v with
  | HPrim p => Some (prim_val p)
  | HRef l =>
      match fuel with
      | O => None
      | S n =>
          o ← h !! l;
          kvs ← mapM (fun kv : string * HVal => pair kv.1 <$> reify n h kv.2) o;
          Some (JObj kvs)
      end
  end.

(** The entry [kv] of a stored object reads back as the entry [kt]. *)
Definition reads (fuel : nat) (h : heap) (kv : string * HVal) (kt : string * JsVal)
  : Prop :=
  kt.1 = kv.1 /\ reify fuel h kv.2 = Some kt.2.

(** Objects have pairwise distinct keys. *)
Definition heap_wf (h : heap) : Prop :=
  Forall (fun o : HObj => NoDup (map fst o)) h.

(** Every reference held by an object at or above [b] points at or
    above [b]. *)
Definition refs_above (b : loc) (o : HObj) : Prop :=
  Forall (fun kv : string * HVal =>
            match kv.2 with HRef r => b <= r | HPrim _ => True end) o.

Definition closed_from (b : loc) (h : heap) : Prop :=
  forall l o, b <= l -> h !! l = Some o -> refs_above b o.

(** The specification's example payload laid out in a store:
    [{password: "p1", nested: {token: "t1", ok: "v"}}] at location 0. *)
Definition example_heap : heap :=
  [ [("password", HPrim (PStr "p1")); ("nested", HRef 1)];
    [("token", HPrim (PStr "t1")); ("ok", HPrim (PStr "v"))] ].

Definition example_payload : JsVal :=
  JObj [("password", JStr "p1");
        ("nested", JObj [("token", JStr "t1"); ("ok", JStr "v")])].

End SanitizerHeap.

(** ** Thrown values *)

(** What a [throw] or a rejected promise carries: an [Error] instance, with
    its identity, or any other value. *)
Inductive Thrown : Type :=
| ErrorObj (id : nat) (name message stack : string)
| NonError (v : JsVal).

Definition is_nullish (v : JsVal) : bool :=
  match v with
  | JUndefined | JNull => true
  | _ => false
  end.

(** [if (error)] *)
Definition thrown_truthy (e : Thrown) : bool :=
  match e with
  | ErrorObj _ _ _ _ => true
  | NonError v => truthy v
  end.

(** [error instanceof Error] *)
Definition instanceof_Error (e : Thrown) : bool :=
  match e with
  | ErrorObj _ _ _ _ => true
  | NonError _ => false
  end.

(** [error.name], [error.message], [error.stack] on a value that is neither
    null nor undefined. *)
Definition thrown_prop (e : Thrown) (k : string) : JsVal :=
  match e with
  | ErrorObj _ name message stack =>
      if String.eqb k "name" then JStr name
      else if String.eqb k "message" then JStr message
      else if String.eqb k "stack" then JStr stack
      else JUndefined
  | NonError v => get_prop v k
  end.

(** ** The OpenTelemetry API as this library uses it *)

Inductive SpanKind : Type := INTERNAL | SERVER | CLIENT | PRODUCER | CONSUMER.

Inductive SpanStatusCode : Type := UNSET | OK | ERROR.

(** A value standing where a [Span] is expected.  [SdkSpan] is what a
    registered tracer's [startSpan] returns and [NonRecordingSpan] what the
    API's no-op tracer returns; both implement the whole interface.
    [StubObj] is an object literal whose listed properties are empty arrow
    functions, as in [{ setAttribute: () => {}, end: () => {} }]. *)
Inductive SpanVal : Type :=
| SdkSpan (id : nat)
| NonRecordingSpan (id : nat)
| StubObj (id : nat) (methods : list string).

Global Instance SpanVal_eq_dec : EqDecision SpanVal.
Proof. solve_decision. Defined.

Inductive SpanCall : Type :=
| SetAttribute (key : string) (value : JsVal)
| SetAttributes (attrs : Props)
| SetStatus (code : SpanStatusCode) (message : JsVal)
| RecordException (e : Thrown)
| AddEvent (name : string) (attrs : option Props)
| SpanContext
| End.

Definition method_of (c : SpanCall) : string :=
  match c with
  | SetAttribute _ _ => "setAttribute"
  | SetAttributes _ => "setAttributes"
  | SetStatus _ _ => "setStatus"
  | RecordException _ => "recordException"
  | AddEvent _ _ => "addEvent"
  | SpanContext => "spanContext"
  | End => "end"
  end.

(** [typeof span.m === 'function'] *)
Definition has_method (span : SpanVal) (m : string) : bool :=
  match span with
  | SdkSpan _ | NonRecordingSpan _ => true
  | StubObj _ methods => bool_decide (m ∈ methods)
  end.

(** What was asked of the tracer and of span objects, oldest first. *)
Inductive SpanEvent : Type :=
| Started (id : nat) (name : string) (kind : option SpanKind)
          (links : option (list JsVal)) (attrs : Props)
| Called (target : SpanVal) (c : SpanCall).

(** Only a span handed out by a registered tracer records anything; calls on
    the other two kinds reach a function with an empty body. *)
Definition sdk_visible (ev : SpanEvent) : bool :=
  match ev with
  | Started _ _ _ _ _ => true
  | Called (SdkSpan _) _ => true
  | Called _ _ => false
  end.

Definition sdk_view (evs : list SpanEvent) : list SpanEvent := filter sdk_visible evs.

Definition is_end_of (span : SpanVal) (ev : SpanEvent) : bool :=
  match ev with
  | Called target End => bool_decide (target = span)
  | _ => false
  end.

Definition is_End (c : SpanCall) : bool :=
  match c with
  | End => true
  | _ => false
  end.

(** Number of [span.end()] calls in a stretch of events. *)
Definition ends_of (span : SpanVal) (evs : list SpanEvent) : nat :=
  length (filter (is_end_of span) evs).

Inductive InstrumentKind : Type := Counter | Histogram | UpDownCounter | ObservableGauge.

Global Instance InstrumentKind_eq_dec : EqDecision InstrumentKind.
Proof. solve_decision. Defined.

(** An instrument created by the meter, or an object literal with the listed
    empty methods. *)
Inductive Instrument : Type :=
| SdkInstrument (kind : InstrumentKind) (id : nat)
| StubInstrument (id : nat) (methods : list string).

Global Instance Instrument_eq_dec : EqDecision Instrument.
Proof. solve_decision. Defined.

Definition instrument_id (i : Instrument) : nat :=
  match i with
  | SdkInstrument _ id | StubInstrument id _ => id
  end.

Definition instrument_has (i : Instrument) (m : string) : bool :=
  match i with
  | SdkInstrument Counter _ | SdkInstrument UpDownCounter _ => String.eqb m "add"
  | SdkInstrument Histogram _ => String.eqb m "record"
  | SdkInstrument ObservableGauge _ =>
      String.eqb m "addCallback" || String.eqb m "removeCallback"
  | StubInstrument _ methods => bool_decide (m ∈ methods)
  end.

(** What was asked of the meter and of its instruments, oldest first. *)
Inductive MeterEvent : Type :=
| Created (kind : InstrumentKind) (id : nat) (name description unit_ : string)
| CallbackAdded (target : Instrument) (callback : unit -> Z)
| Measured (target : Instrument) (method : string) (value : Z) (attrs : Props).

(** ** Process state and the effect monad *)

(** Fields of [MetricsService]. *)
Record MetricsService : Type := {
  initialized : bool;
  counters : gmap string Instrument;
  histograms : gmap string Instrument;
  upDownCounters : gmap string Instrument;
  observableGauges : gmap string Instrument;
}.

Record World : Type := {
  w_next : nat;                    (* next unused object identity *)
  w_spans : list SpanEvent;
  w_active : option SpanVal;       (* span of the ambient context *)
  w_metrics : MetricsService;
  w_meter : list MeterEvent;
  w_now : Z;                       (* Date.now() *)
  w_status : Z;                    (* response.statusCode *)
}.

Inductive Outcome (A : Type) : Type :=
| Normal (a : A)
| Throw (e : Thrown).
Arguments Normal {A} a.
Arguments Throw {A} e.

(** A computation returns or throws, and leaves a state either way.  For an
    [async] function [Normal] is the fulfilled promise and [Throw] the
    rejected one; for an observable they are its emission and its error. *)
Definition M (A : Type) : Type := World -> Outcome A * World.

Definition ret {A} (a : A) : M A := fun w => (Normal a, w).

Definition throw {A} (e : Thrown) : M A := fun w => (Throw e, w).

Definition bind {A B} (m : M A) (k : A -> M B) : M B :=
  fun w => match m w with
           | (Normal a, w') => k a w'
           | (Throw e, w') => (Throw e, w')
           end.

Declare Scope js_scope.
Delimit Scope js_scope with js.
Notation "x <- m ;; k" := (bind m (fun x => k))
  (at level 100, m at next level, right associativity) : js_scope.
Notation "m ;; k" := (bind m (fun _ => k))
  (at level 100, right associativity) : js_scope.
Local Open Scope js_scope.

(** [try { m } catch (e) { handler(e) }] *)
Definition try_catch {A} (m : M A) (handler : Thrown -> M A) : M A :=
  fun w => match m w with
           | (Normal a, w') => (Normal a, w')
           | (Throw e, w') => handler e w'
           end.

(** [try { m } finally { fin }] *)
Definition try_finally {A} (m : M A) (fin : M unit) : M A :=
  fun w => let (r, w') := m w in
           match fin w' with
           | (Normal _, w'') => (r, w'')
           | (Throw e, w'') => (Throw e, w'')
           end.

Definition when (b : bool) (m : M unit) : M unit := if b then m else ret tt.

Fixpoint forEach {A} (body : A -> M unit) (l : list A) : M unit :=
  match l with
  | [] => ret tt
  | x :: rest => body x ;; forEach body rest
  end.

Definition get_world : M World := fun w => (Normal w, w).

(** A new object comes with an identity not handed out before. *)
Definition fresh : M nat :=
  fun w => (Normal (w_next w),
            {| w_next := S (w_next w); w_spans := w_spans w; w_active := w_active w;
               w_metrics := w_metrics w; w_meter := w_meter w;
               w_now := w_now w; w_status := w_status w |}).

Definition emit_span (ev : SpanEvent) : M unit :=
  fun w => (Normal tt,
            {| w_next := w_next w; w_spans := w_spans w ++ [ev]; w_active := w_active w;
               w_metrics := w_metrics w; w_meter := w_meter w;
               w_now := w_now w; w_status := w_status w |}).

Definition emit_meter (ev : MeterEvent) : M unit :=
  fun w => (Normal tt,
            {| w_next := w_next w; w_spans := w_spans w; w_active := w_active w;
               w_metrics := w_metrics w; w_meter := w_meter w ++ [ev];
               w_now := w_now w; w_status := w_status w |}).

Definition set_active (a : option SpanVal) : M unit :=
  fun w => (Normal tt,
            {| w_next := w_next w; w_spans := w_spans w; w_active := a;
               w_metrics := w_metrics w; w_meter := w_meter w;
               w_now := w_now w; w_status := w_status w |}).

Definition set_metrics (ms : MetricsService) : M unit :=
  fun w => (Normal tt,
            {| w_next := w_next w; w_spans := w_spans w; w_active := w_active w;
               w_metrics := ms; w_meter := w_meter w;
               w_now := w_now w; w_status := w_status w |}).

(** The runtime's [TypeError]; its stack text is cut after the first line. *)
Definition raise_TypeError {A} (message : string) : M A :=
  id <- fresh ;;
  throw (ErrorObj id "TypeError" message ("TypeError: " +:+ message)).

(** [e.k] where [e] may be null or undefined. *)
Definition read_prop (e : Thrown) (k : string) : M JsVal :=
  match e with
  | NonError JUndefined =>
      raise_TypeError ("Cannot read properties of undefined (reading '" +:+ k +:+ "')")
  | NonError JNull =>
      raise_TypeError ("Cannot read properties of null (reading '" +:+ k +:+ "')")
  | _ => ret (thrown_prop e k)
  end.

(** [span.m(...)]: the call reaches a function when the object has the
    method, and is a [TypeError] otherwise. *)
Definition call_span (span : SpanVal) (c : SpanCall) : M unit :=
  if has_method span (method_of c) then emit_span (Called span c)
  else raise_TypeError ("span." +:+ method_of c +:+ " is not a function").

(** What the environment decides: the outcome of [JSON.stringify] ([None]
    when it throws, as on a cyclic value), of [String(v)], and whether
    [tracer.startSpan] raises; the SDK raises [Error] instances, given here
    by name and message. *)
Record Runtime : Type := {
  JSON_stringify : JsVal -> option string;
  String_of : JsVal -> string;
  startSpan_fault : string -> option (string * string);
  (* whether a tracer provider is registered with the global API *)
  tracer_registered : bool;
}.

(** What awaiting a call of a caller-supplied function yields: it returned
    a plain value, threw, or returned a promise that was fulfilled or
    rejected. *)
Inductive Settled (T : Type) : Type :=
| Returns (v : T)
| Throws (e : Thrown)
| Resolves (v : T)
| Rejects (e : Thrown).
Arguments Returns {T} v.
Arguments Throws {T} e.
Arguments Resolves {T} v.
Arguments Rejects {T} e.

(** [await c] *)
Definition await {T} (c : World -> Settled T * World) : M T :=
  fun w => match c w with
           | (Returns v, w') | (Resolves v, w') => (Normal v, w')
           | (Throws e, w') | (Rejects e, w') => (Throw e, w')
           end.

(** A function written in the monad, seen as a synchronous callback or as
    an [async] one. *)
Definition sync {T} (m : M T) : World -> Settled T * World :=
  fun w => match m w with
           | (Normal v, w') => (Returns v, w')
           | (Throw e, w') => (Throws e, w')
           end.

Definition async {T} (m : M T) : World -> Settled T * World :=
  fun w => match m w with
           | (Normal v, w') => (Resolves v, w')
           | (Throw e, w') => (Rejects e, w')
           end.

Section WithRuntime.
Context (rt : Runtime).

(** [tracer.startSpan(name, options)] on a recording tracer. *)
Definition sdk_startSpan (name : string) (kind : option SpanKind)
    (links : option (list JsVal)) (attrs : Props) : M SpanVal :=
  match startSpan_fault rt name with
  | Some (ename, emsg) =>
      id <- fresh ;; throw (ErrorObj id ename emsg (ename +:+ ": " +:+ emsg))
  | None =>
      id <- fresh ;;
      emit_span (Started id name kind links attrs) ;;
      ret (SdkSpan id)
  end.

(** [trace.getTracer(..).startSpan(name, options)] through the global
    API, which answers with a non-recording span while no provider is
    registered. *)
Definition api_startSpan (name : string) (kind : option SpanKind)
    (links : option (list JsVal)) (attrs : Props) : M SpanVal :=
  if tracer_registered rt then sdk_startSpan name kind links attrs
  else id <- fresh ;; ret (NonRecordingSpan id).

(** [context.with(trace.setSpan(context.active(), span), m)] *)
Definition with_active {A} (span : SpanVal) (m : M A) : M A :=
  w0 <- get_world ;;
  set_active (Some span) ;;
  try_finally m (set_active (w_active w0)).

(** [JSON.stringify(v)] *)
Definition stringify (v : JsVal) : M string :=
  match JSON_stringify rt v with
  | Some text => ret text
  | None => raise_TypeError "Converting circular structure to JSON"
  end.

End WithRuntime.

(** ** lib/tracing/tracing.service.ts *)

Module Tracing.
Section WithRuntime.
Context (rt : Runtime).

Record TracingConfig : Type := {
  enabled : bool;
  serviceName : JsVal;
  serviceVersion : JsVal;
  environment : JsVal;
}.

(** The object returned in place of a span when tracing is off or the SDK
  failed. *)
Definition noop_methods : list string :=
  ["setAttribute"; "setStatus"; "recordException"; "end"].

Definition has_noop_methods (span : SpanVal) : Prop :=
  forall m, m ∈ noop_methods -> has_method span m = true.

Definition noop_span : M SpanVal :=
  id <- fresh ;; ret (StubObj id noop_methods).

(** Body of [Object.entries(attributes).forEach(([key, value]) => ..)] in
  [createSpan] and [endSpan]. *)
Definition attach (span : SpanVal) (entry : string * JsVal) : M unit :=
  let (key, value) := entry in
  if negb (is_nullish value) then
    if is_object value then
      try_catch
        (text <- stringify rt value ;; call_span span (SetAttribute key (JStr text)))
        (fun _ => call_span span (SetAttribute key (JStr "[Object]")))
    else call_span span (SetAttribute key value)
  else ret tt.

Definition attach_all (span : SpanVal) (attributes : option Props) : M unit :=
  match attributes with
  | Some attrs => forEach (attach span) attrs
  | None => ret tt
  end.

Definition createSpan (config : TracingConfig) (name : string)
  (attributes : option Props) (kind : option SpanKind)
  (links : option (list JsVal)) : M SpanVal :=
  if negb (enabled config) then noop_span
  else
  try_catch
    (span <- api_startSpan rt name kind links
               (spread [("service.name", serviceName config);
                        ("service.version", serviceVersion config);
                        ("environment", environment config)]
                       (default [] attributes)) ;;
     attach_all span attributes ;;
     ret span)
    (fun error =>
       _ <- read_prop error "message" ;; _ <- read_prop error "stack" ;;
       noop_span).

Definition endSpan (span : option SpanVal) (success : bool)
  (error : option Thrown) (attributes : option Props) : M unit :=
  match span with
  | None => ret tt
  | Some span =>
    let hasRequiredMethods :=
      has_method span "setAttribute" && has_method span "setStatus"
      && has_method span "end" in
    if negb hasRequiredMethods then ret tt
    else
      try_catch
        (attach_all span attributes ;;
         call_span span (SetAttribute "operation.success" (JBool success)) ;;
         (if success then call_span span (SetStatus OK JUndefined)
          else match error with
               | Some error =>
                   if thrown_truthy error then
                     call_span span (SetStatus ERROR (thrown_prop error "message")) ;;
                     call_span span (RecordException error) ;;
                     call_span span
                       (SetAttribute "error.type"
                          (if truthy (thrown_prop error "name")
                           then thrown_prop error "name" else JStr "Error")) ;;
                     call_span span
                       (SetAttribute "error.message" (thrown_prop error "message")) ;;
                     when (truthy (thrown_prop error "stack"))
                       (call_span span
                          (SetAttribute "error.stack" (thrown_prop error "stack")))
                   else call_span span (SetStatus ERROR (JStr "Unknown error"))
               | None => call_span span (SetStatus ERROR (JStr "Unknown error"))
               end) ;;
         call_span span End)
        (fun err =>
           _ <- read_prop err "message" ;; _ <- read_prop err "stack" ;; ret tt)
  end.

Record TraceOptions (T : Type) : Type := {
  opt_attributes : option Props;
  opt_kind : option SpanKind;
  opt_links : option (list JsVal);
  opt_resultAttributes : option (T -> M Props);
}.
Arguments opt_attributes {T} _.
Arguments opt_kind {T} _.
Arguments opt_links {T} _.
Arguments opt_resultAttributes {T} _.

(** [trace]; leaving [options] out is all of its fields absent. *)
Definition trace {T} (config : TracingConfig) (name : string)
  (fn : SpanVal -> World -> Settled T * World) (options : TraceOptions T)
  : M T :=
  span <- createSpan config name (opt_attributes options)
          (opt_kind options) (opt_links options) ;;
  try_catch
  (result <- await (fn span) ;;
   resultAttrs <- match opt_resultAttributes options with
                  | Some extract => attrs <- extract result ;; ret (Some attrs)
                  | None => ret None
                  end ;;
   endSpan (Some span) true None resultAttrs ;;
   ret result)
  (fun error =>
     endSpan (Some span) false (Some error) None ;;
     throw error).

Definition traceWithActiveSpan {T} (config : TracingConfig) (name : string)
  (fn : SpanVal -> World -> Settled T * World) (attributes : option Props)
  : M T :=
  if negb (enabled config) then
  id <- fresh ;; await (fn (StubObj id []))
  else
  (* tracer.startActiveSpan(name, async span => ..) *)
  span <- api_startSpan rt name None None [] ;;
  with_active span
    (match attributes with
     | Some attrs =>
         forEach (fun entry : string * JsVal =>
                    when (negb (is_nullish entry.2))
                      (call_span span (SetAttribute entry.1 entry.2))) attrs
     | None => ret tt
     end ;;
     try_finally
       (try_catch
          (result <- await (fn span) ;;
           call_span span (SetStatus OK JUndefined) ;;
           ret result)
          (fun error =>
             message <- read_prop error "message" ;;
             call_span span (SetStatus ERROR message) ;;
             call_span span (RecordException error) ;;
             throw error))
       (call_span span End)).

(** The calls the attribute loop makes on a span that has
  [setAttribute], and the calls of a whole [endSpan] on a span that has
  all four methods it uses. *)
Definition attach_call (entry : string * JsVal) : list SpanCall :=
  let (key, value) := entry in
  if is_nullish value then []
  else if is_object value
     then [SetAttribute key (JStr (default "[Object]" (JSON_stringify rt value)))]
     else [SetAttribute key value].

Definition attach_calls (attributes : option Props) : list SpanCall :=
  flat_map attach_call (default [] attributes).

Definition status_calls (success : bool) (error : option Thrown) : list SpanCall :=
  if success then [SetStatus OK JUndefined]
  else match error with
     | Some error =>
         if thrown_truthy error then
           [SetStatus ERROR (thrown_prop error "message");
            RecordException error;
            SetAttribute "error.type"
              (if truthy (thrown_prop error "name")
               then thrown_prop error "name" else JStr "Error");
            SetAttribute "error.message" (thrown_prop error "message")]
           ++ (if truthy (thrown_prop error "stack")
               then [SetAttribute "error.stack" (thrown_prop error "stack")]
               else [])
         else [SetStatus ERROR (JStr "Unknown error")]
     | None => [SetStatus ERROR (JStr "Unknown error")]
     end.

Definition endSpan_calls (success : bool) (error : option Thrown)
  (attributes : option Props) : list SpanCall :=
  attach_calls attributes
  ++ [SetAttribute "operation.success" (JBool success)]
  ++ status_calls success error
  ++ [End].

End WithRuntime.

Arguments opt_attributes {T} _.
Arguments opt_kind {T} _.
Arguments opt_links {T} _.
Arguments opt_resultAttributes {T} _.

End Tracing.

(** [w'] is [w] after the span events [evs] and possibly some allocations;
    nothing else moved. *)
Definition steps (w w' : World) (evs : list SpanEvent) : Prop :=
  w_spans w' = w_spans w ++ evs /\ w_next w <= w_next w' /\
  w_active w' = w_active w /\ w_metrics w' = w_metrics w /\
  w_meter w' = w_meter w /\ w_now w' = w_now w /\ w_status w' = w_status w.

(** Between [w] and [w'] the span events grew by a stretch holding exactly
    one [end] call on [span]. *)
Definition ended_once_between (span : SpanVal) (w w' : World) : Prop :=
  exists tail, w_spans w' = w_spans w ++ tail /\ ends_of span tail = 1.

(** [m] started in [w] ends with outcome [r] after the span events [evs]. *)
Definition runs {A} (m : M A) (w : World) (r : Outcome A) (evs : list SpanEvent)
  : Prop :=
  exists w', m w = (r, w') /\ steps w w' evs.

(** ** lib/services/metrics.service.ts *)

Module Metrics.

(** [options.metrics?.enabled] and [options.metrics?.prefix]. *)
Record MetricsOptions : Type := {
  metrics_enabled : option bool;
  prefix : option string;
}.

Record InstrumentOptions : Type := {
  description : option string;
  unit_ : option string;
}.

(** [a || b] on a string that may be absent. *)
Definition or_else (a : option string) (b : string) : string :=
  match a with
  | Some text => if String.eqb text "" then b else text
  | None => b
  end.

Definition getMetricKey (options : MetricsOptions) (name : string) : string :=
  let prefix := or_else (prefix options) "" in
  if String.eqb prefix "" then name else prefix +:+ name.

Definition with_counters (m : gmap string Instrument) (ms : MetricsService)
  : MetricsService :=
  {| initialized := initialized ms; counters := m; histograms := histograms ms;
     upDownCounters := upDownCounters ms; observableGauges := observableGauges ms |}.

Definition with_histograms (m : gmap string Instrument) (ms : MetricsService)
  : MetricsService :=
  {| initialized := initialized ms; counters := counters ms; histograms := m;
     upDownCounters := upDownCounters ms; observableGauges := observableGauges ms |}.

Definition with_upDownCounters (m : gmap string Instrument) (ms : MetricsService)
  : MetricsService :=
  {| initialized := initialized ms; counters := counters ms;
     histograms := histograms ms; upDownCounters := m;
     observableGauges := observableGauges ms |}.

Definition with_observableGauges (m : gmap string Instrument) (ms : MetricsService)
  : MetricsService :=
  {| initialized := initialized ms; counters := counters ms;
     histograms := histograms ms; upDownCounters := upDownCounters ms;
     observableGauges := m |}.

Definition with_initialized (b : bool) (ms : MetricsService) : MetricsService :=
  {| initialized := b; counters := counters ms; histograms := histograms ms;
     upDownCounters := upDownCounters ms; observableGauges := observableGauges ms |}.

(** [initialize]: nothing happens when metrics are switched off, and the
    flag stays down when setting up the exporter and the provider throws. *)
Definition initialize (options : MetricsOptions) (setup_throws : bool) : M unit :=
  let metricsEnabled := match metrics_enabled options with
                        | Some false => false
                        | _ => true
                        end in
  if negb metricsEnabled then ret tt
  else if setup_throws then ret tt
  else w <- get_world ;; set_metrics (with_initialized true (w_metrics w)).

(** [meter.createCounter(key, ..)] and its siblings. *)
Definition create_instrument (kind : InstrumentKind) (key description unit_ : string)
  : M Instrument :=
  id <- fresh ;;
  emit_meter (Created kind id key description unit_) ;;
  ret (SdkInstrument kind id).

(** [instrument.m(..)]: a [TypeError] when the object has no such method,
    nothing at all on an object literal's empty method. *)
Definition call_instrument (i : Instrument) (method : string) (ev : MeterEvent)
  : M unit :=
  if instrument_has i method then
    match i with
    | SdkInstrument _ _ => emit_meter ev
    | StubInstrument _ _ => ret tt
    end
  else raise_TypeError ("instrument." +:+ method +:+ " is not a function").

Definition add (i : Instrument) (value : Z) (attrs : Props) : M unit :=
  call_instrument i "add" (Measured i "add" value attrs).

Definition record (i : Instrument) (value : Z) (attrs : Props) : M unit :=
  call_instrument i "record" (Measured i "record" value attrs).

Definition addCallback (i : Instrument) (callback : unit -> Z) : M unit :=
  call_instrument i "addCallback" (CallbackAdded i callback).

(** In the four accessors, [has], [set] and [get] on one key are a single
    lookup: the cached instrument when there is one, else the one just
    created and stored. *)
Definition getCounter (options : MetricsOptions) (name : string)
    (opts : option InstrumentOptions) : M Instrument :=
  w <- get_world ;;
  if negb (initialized (w_metrics w)) then
    id <- fresh ;; ret (StubInstrument id ["add"])
  else
    let key := getMetricKey options name in
    match counters (w_metrics w) !! key with
    | Some counter => ret counter
    | None =>
        counter <- create_instrument Counter key
                     (or_else (opts ≫= description) ("Counter for " +:+ name))
                     (or_else (opts ≫= unit_) "1") ;;
        w' <- get_world ;;
        set_metrics (with_counters (<[key := counter]> (counters (w_metrics w')))
                       (w_metrics w')) ;;
        ret counter
    end.

Definition getHistogram (options : MetricsOptions) (name : string)
    (opts : option InstrumentOptions) : M Instrument :=
  w <- get_world ;;
  if negb (initialized (w_metrics w)) then
    id <- fresh ;; ret (StubInstrument id ["record"])
  else
    let key := getMetricKey options name in
    match histograms (w_metrics w) !! key with
    | Some histogram => ret histogram
    | None =>
        histogram <- create_instrument Histogram key
                       (or_else (opts ≫= description) ("Histogram for " +:+ name))
                       (or_else (opts ≫= unit_) "ms") ;;
        w' <- get_world ;;
        set_metrics (with_histograms (<[key := histogram]> (histograms (w_metrics w')))
                       (w_metrics w')) ;;
        ret histogram
    end.

Definition getUpDownCounter (options : MetricsOptions) (name : string)
    (opts : option InstrumentOptions) : M Instrument :=
  w <- get_world ;;
  if negb (initialized (w_metrics w)) then
    id <- fresh ;; ret (StubInstrument id ["add"])
  else
    let key := getMetricKey options name in
    match upDownCounters (w_metrics w) !! key with
    | Some upDownCounter => ret upDownCounter
    | None =>
        upDownCounter <- create_instrument UpDownCounter key
                           (or_else (opts ≫= description)
                              ("UpDownCounter for " +:+ name))
                           (or_else (opts ≫= unit_) "1") ;;
        w' <- get_world ;;
        set_metrics (with_upDownCounters
                       (<[key := upDownCounter]> (upDownCounters (w_metrics w')))
                       (w_metrics w')) ;;
        ret upDownCounter
    end.

Definition getObservableGauge (options : MetricsOptions) (name : string)
    (callback : unit -> Z) (opts : option InstrumentOptions) : M Instrument :=
  w <- get_world ;;
  if negb (initialized (w_metrics w)) then
    id <- fresh ;; ret (StubInstrument id [])
  else
    let key := getMetricKey options name in
    match observableGauges (w_metrics w) !! key with
    | Some gauge => ret gauge
    | None =>
        gauge <- create_instrument ObservableGauge key
                   (or_else (opts ≫= description) ("Gauge for " +:+ name))
                   (or_else (opts ≫= unit_) "1") ;;
        addCallback gauge callback ;;
        w' <- get_world ;;
        set_metrics (with_observableGauges
                       (<[key := gauge]> (observableGauges (w_metrics w')))
                       (w_metrics w')) ;;
        ret gauge
    end.

Definition HTTP_REQUEST_DURATION : string := "http.request.duration".
Definition HTTP_REQUEST_TOTAL : string := "http.request.total".
Definition HTTP_ERROR_TOTAL : string := "http.error.total".
Definition HTTP_REQUEST_SIZE : string := "http.request.size".
Definition HTTP_RESPONSE_SIZE : string := "http.response.size".

Definition unit_By : option InstrumentOptions :=
  Some {| description := None; unit_ := Some "By" |}.

Definition recordHttpRequestDuration (options : MetricsOptions) (duration : Z)
    (attributes : Props) : M unit :=
  w <- get_world ;;
  if negb (initialized (w_metrics w)) then ret tt
  else histogram <- getHistogram options HTTP_REQUEST_DURATION None ;;
       record histogram duration attributes.

Definition incrementHttpRequestTotal (options : MetricsOptions) (attributes : Props)
  : M unit :=
  w <- get_world ;;
  if negb (initialized (w_metrics w)) then ret tt
  else counter <- getCounter options HTTP_REQUEST_TOTAL None ;;
       add counter 1 attributes.

Definition incrementHttpErrorTotal (options : MetricsOptions) (attributes : Props)
  : M unit :=
  w <- get_world ;;
  if negb (initialized (w_metrics w)) then ret tt
  else counter <- getCounter options HTTP_ERROR_TOTAL None ;;
       add counter 1 attributes.

Definition recordHttpRequestSize (options : MetricsOptions) (size : Z)
    (attributes : Props) : M unit :=
  w <- get_world ;;
  if negb (initialized (w_metrics w)) then ret tt
  else histogram <- getHistogram options HTTP_REQUEST_SIZE unit_By ;;
       record histogram size attributes.

Definition recordHttpResponseSize (options : MetricsOptions) (size : Z)
    (attributes : Props) : M unit :=
  w <- get_world ;;
  if negb (initialized (w_metrics w)) then ret tt
  else histogram <- getHistogram options HTTP_RESPONSE_SIZE unit_By ;;
       record histogram size attributes.

(** *** Reading the registry and the meter *)

Definition cache (kind : InstrumentKind) (ms : MetricsService) : gmap string Instrument :=
  match kind with
  | Counter => counters ms
  | Histogram => histograms ms
  | UpDownCounter => upDownCounters ms
  | ObservableGauge => observableGauges ms
  end.

Definition with_cache (kind : InstrumentKind) (m : gmap string Instrument)
    (ms : MetricsService) : MetricsService :=
  match kind with
  | Counter => with_counters m ms
  | Histogram => with_histograms m ms
  | UpDownCounter => with_upDownCounters m ms
  | ObservableGauge => with_observableGauges m ms
  end.

Definition stub_methods (kind : InstrumentKind) : list string :=
  match kind with
  | Counter | UpDownCounter => ["add"]
  | Histogram => ["record"]
  | ObservableGauge => []
  end.

Definition default_description (kind : InstrumentKind) (name : string) : string :=
  match kind with
  | Counter => "Counter for " +:+ name
  | Histogram => "Histogram for " +:+ name
  | UpDownCounter => "UpDownCounter for " +:+ name
  | ObservableGauge => "Gauge for " +:+ name
  end.

Definition default_unit (kind : InstrumentKind) : string :=
  match kind with
  | Histogram => "ms"
  | _ => "1"
  end.

(** The state right after the meter created instrument [w_next w] of [kind]
    under [key] and the registry cached it. *)
Definition after_creation (kind : InstrumentKind) (key description unit_ : string)
    (callback : unit -> Z) (w : World) : World :=
  let i := SdkInstrument kind (w_next w) in
  {| w_next := S (w_next w); w_spans := w_spans w; w_active := w_active w;
     w_metrics := with_cache kind (<[key := i]> (cache kind (w_metrics w))) (w_metrics w);
     w_meter := w_meter w ++ Created kind (w_next w) key description unit_
                :: match kind with
                   | ObservableGauge => [CallbackAdded i callback]
                   | _ => []
                   end;
     w_now := w_now w; w_status := w_status w |}.

(** One accessor call; the callback matters to gauges only. *)
Definition accessor (options : MetricsOptions) (kind : InstrumentKind)
    (name : string) (callback : unit -> Z) (opts : option InstrumentOptions)
  : M Instrument :=
  match kind with
  | Counter => getCounter options name opts
  | Histogram => getHistogram options name opts
  | UpDownCounter => getUpDownCounter options name opts
  | ObservableGauge => getObservableGauge options name callback opts
  end.

(** Identities of the instruments of [kind] that the meter was asked to
    create under [key]. *)
Definition created (kind : InstrumentKind) (key : string) (log : list MeterEvent)
  : list nat :=
  flat_map (fun ev => match ev with
                      | Created k id n _ _ =>
                          if bool_decide (k = kind /\ n = key) then [id] else []
                      | _ => []
                      end) log.

(** What the callbacks registered on [gauge] report when collected. *)
Definition observe (gauge : Instrument) (log : list MeterEvent) : list Z :=
  flat_map (fun ev => match ev with
                      | CallbackAdded target callback =>
                          if bool_decide (target = gauge) then [callback tt] else []
                      | _ => []
                      end) log.

(** Values recorded on the instruments of [kind] created under [key]. *)
Definition measured_on (kind : InstrumentKind) (key : string) (log : list MeterEvent)
  : list Z :=
  flat_map (fun ev => match ev with
                      | Measured (SdkInstrument k id) _ value _ =>
                          if bool_decide (k = kind /\ id ∈ created kind key log)
                          then [value] else []
                      | _ => []
                      end) log.

Definition event_id (ev : MeterEvent) : nat :=
  match ev with
  | Created _ id _ _ _ => id
  | CallbackAdded target _ | Measured target _ _ _ => instrument_id target
  end.

(** The caches and the meter agree: a cached entry is the one instrument
    created under its key, an absent one was never created; and every
    identity in the meter's log has been handed out. *)
Definition registry_inv (w : World) : Prop :=
  (forall kind key,
     match cache kind (w_metrics w) !! key with
     | Some i => exists id, i = SdkInstrument kind id /\ created kind key (w_meter w) = [id]
     | None => created kind key (w_meter w) = []
     end) /\
  (forall ev, ev ∈ w_meter w -> event_id ev < w_next w).

End Metrics.

(** ** lib/services/observability.service.ts *)

Module Observability.

Definition recordGaugeMetric (options : Metrics.MetricsOptions) (name : string)
    (value : Z) (attributes : Props) : M unit :=
  let callback := fun _ : unit => value in
  _ <- Metrics.getObservableGauge options name callback None ;;
  ret tt.

(** A call on the registry, to speak about its whole lifetime. *)
Inductive RegistryCall : Type :=
| Access (kind : InstrumentKind) (name : string) (callback : unit -> Z)
         (opts : option Metrics.InstrumentOptions)
| RecordGauge (name : string) (value : Z) (attributes : Props).

Definition run_call (options : Metrics.MetricsOptions) (c : RegistryCall) : M unit :=
  match c with
  | Access kind name callback opts =>
      _ <- Metrics.accessor options kind name callback opts ;; ret tt
  | RecordGauge name value attributes => recordGaugeMetric options name value attributes
  end.

Definition run_calls (options : Metrics.MetricsOptions) (cs : list RegistryCall)
  : M unit :=
  forEach (run_call options) cs.

End Observability.

(** ** lib/services/tracing.service.ts *)

Module Services.
Section WithRuntime.
Context (rt : Runtime).

(** [new Error(String(v))] *)
Definition new_Error (message : string) : M Thrown :=
  id <- fresh ;; ret (ErrorObj id "Error" message ("Error: " +:+ message)).

(** [error instanceof Error ? error.message : String(error)] *)
Definition message_or_String (error : Thrown) : JsVal :=
  match error with
  | ErrorObj _ _ message _ => JStr message
  | NonError v => JStr (String_of rt v)
  end.

(** [error instanceof Error ? error : new Error(String(error))] *)
Definition as_Error (error : Thrown) : M Thrown :=
  match error with
  | ErrorObj _ _ _ _ => ret error
  | NonError v => new_Error (String_of rt v)
  end.

(** [trace.getTracer('noop').startSpan('noop')] *)
Definition noop_startSpan : M SpanVal := api_startSpan rt "noop" None None [].

Definition startSpan (initialized : bool) (name : string) (kind : option SpanKind)
  : M SpanVal :=
  if negb initialized then noop_startSpan
  else sdk_startSpan rt name kind None [].

Definition getCurrentSpan (initialized : bool) : M (option SpanVal) :=
  if negb initialized then ret None
  else w <- get_world ;; ret (w_active w).

Definition traceAsync {T} (initialized : bool) (name : string)
    (fn : SpanVal -> M T) (kind : option SpanKind) : M T :=
  if negb initialized then
    span <- noop_startSpan ;; fn span
  else
    span <- sdk_startSpan rt name kind None [] ;;
    try_catch
      (with_active span
         (try_finally
            (try_catch
               (result <- fn span ;;
                call_span span (SetStatus OK JUndefined) ;;
                ret result)
               (fun error =>
                  call_span span (SetStatus ERROR (message_or_String error)) ;;
                  exception <- as_Error error ;;
                  call_span span (RecordException exception) ;;
                  throw error))
            (call_span span End)))
      (fun error => throw error).

Definition addEvent (initialized : bool) (name : string) (attributes : option Props)
  : M unit :=
  span <- getCurrentSpan initialized ;;
  match span with
  | Some span => call_span span (AddEvent name attributes)
  | None => ret tt
  end.

Definition setAttributes (initialized : bool) (attributes : Props) : M unit :=
  span <- getCurrentSpan initialized ;;
  match span with
  | Some span => call_span span (SetAttributes attributes)
  | None => ret tt
  end.

(** [setError(error: Error | string)] *)
Definition setError (initialized : bool) (error : Thrown) : M unit :=
  span <- getCurrentSpan initialized ;;
  match span with
  | Some span =>
      call_span span
        (SetStatus ERROR match error with
                         | ErrorObj _ _ message _ => JStr message
                         | NonError v => v
                         end) ;;
      exception <- as_Error error ;;
      call_span span (RecordException exception)
  | None => ret tt
  end.

End WithRuntime.
End Services.

(** ** lib/interceptors/http-trace.interceptor.ts *)

Module Http.
Section WithRuntime.
Context (rt : Runtime).

(** What [intercept] reads from the request; [route_path] is
    [request.route?.path]. *)
Record Request : Type := {
  method : string;
  url : string;
  host : JsVal;
  user_agent : JsVal;
  route_path : option string;
  body : JsVal;
}.

(** The injected [ObservabilityService]: its tracing service's
    [initialized] flag and the options its metrics service was built with. *)
Record ObservabilityService : Type := {
  tracing_initialized : bool;
  metrics_options : Metrics.MetricsOptions;
}.

Definition HTTP_METHOD : string := "http.method".
Definition HTTP_URL : string := "http.url".
Definition HTTP_STATUS_CODE : string := "http.status_code".
Definition TRACE_ERROR : string := "error".

(** [Date.now()] *)
Definition now : M Z := fun w => (Normal (w_now w), w).

(** [httpContext.getResponse().statusCode] *)
Definition statusCode : M Z := fun w => (Normal (w_status w), w).

(** [v && Object.keys(v).length > 0] *)
Definition has_keys (v : JsVal) : bool :=
  truthy v &&
  match v with
  | JObj props => negb (bool_decide (props = []))
  | JArr elems => negb (bool_decide (elems = []))
  | JStr _ => true
  | _ => false
  end.

(** [JSON.stringify(v).length] *)
Definition json_length (v : JsVal) : M Z :=
  text <- stringify rt v ;; ret (Z.of_nat (String.length text)).

Definition request_attributes (request : Request) : Props :=
  [ (HTTP_METHOD, JStr (method request));
    (HTTP_URL, JStr (url request));
    ("http.host", host request);
    ("http.user_agent", user_agent request);
    ("http.route", JStr (Metrics.or_else (route_path request) (url request))) ].

(** The function run inside [traceAsync]; it hands back the handler's
    observable without subscribing to it. *)
Definition traced (service : ObservabilityService) (request : Request)
    (next_handle : M JsVal) (span : SpanVal) : M (M JsVal) :=
  let attributes := request_attributes request in
  call_span span (SetAttributes attributes) ;;
  Metrics.incrementHttpRequestTotal (metrics_options service) attributes ;;
  when (has_keys (body request))
    (requestSize <- json_length (body request) ;;
     Metrics.recordHttpRequestSize (metrics_options service) requestSize attributes) ;;
  ret next_handle.

(** The [tap] callback. *)
Definition on_next (service : ObservabilityService) (request : Request)
    (start : Z) (data : JsVal) : M unit :=
  let attributes := request_attributes request in
  status <- statusCode ;;
  finish <- now ;;
  let duration := (finish - start)%Z in
  let responseAttributes :=
    spread attributes [(HTTP_STATUS_CODE, JNum status);
                       ("http.duration_ms", JNum duration)] in
  span <- Services.getCurrentSpan (tracing_initialized service) ;;
  match span with
  | Some span => call_span span (SetAttributes responseAttributes)
  | None => ret tt
  end ;;
  Metrics.recordHttpRequestDuration (metrics_options service) duration
    responseAttributes ;;
  when (truthy data)
    (responseSize <- json_length data ;;
     Metrics.recordHttpResponseSize (metrics_options service) responseSize
       responseAttributes).

(** The [catchError] callback, up to the [throwError] it returns. *)
Definition on_error (service : ObservabilityService) (request : Request)
    (start : Z) (error : Thrown) : M unit :=
  let attributes := request_attributes request in
  status <- statusCode ;;
  let statusCode := if (status =? 0)%Z then 500%Z else status in
  finish <- now ;;
  let duration := (finish - start)%Z in
  name <- read_prop error "name" ;;
  message <- read_prop error "message" ;;
  let errorAttributes :=
    spread attributes [(HTTP_STATUS_CODE, JNum statusCode);
                       (TRACE_ERROR, JBool true);
                       ("error.name", name);
                       ("error.message", message);
                       ("http.duration_ms", JNum duration)] in
  Metrics.incrementHttpErrorTotal (metrics_options service) errorAttributes ;;
  Metrics.recordHttpRequestDuration (metrics_options service) duration
    errorAttributes ;;
  Services.setError rt (tracing_initialized service) error ;;
  _ <- read_prop error "stack" ;;
  ret tt.

(** [intercept]: what a subscriber of the returned observable sees.  The
    promise of [traceAsync] settles first; the handler's observable is
    subscribed to after that, with [tap] on its value and [catchError] on
    its error or on an error thrown by the [tap] callback. *)
Definition intercept (service : ObservabilityService) (request : Request)
    (next_handle : M JsVal) : M JsVal :=
  start <- now ;;
  observable <- Services.traceAsync rt (tracing_initialized service)
                  ("HTTP " +:+ method request +:+ " " +:+ url request)
                  (traced service request next_handle) (Some SERVER) ;;
  try_catch
    (data <- observable ;;
     on_next service request start data ;;
     ret data)
    (fun error =>
       on_error service request start error ;;
       throw error).

(** The status in effect when a span was ended: the last status set on it
    before its first [end]; [None] when it was not ended. *)
Fixpoint status_at_end (span : SpanVal) (current : SpanStatusCode * JsVal)
    (evs : list SpanEvent) : option (SpanStatusCode * JsVal) :=
  match evs with
  | [] => None
  | Called target c :: rest =>
      if bool_decide (target = span) then
        match c with
        | End => Some current
        | SetStatus code message => status_at_end span (code, message) rest
        | _ => status_at_end span current rest
        end
      else status_at_end span current rest
  | _ :: rest => status_at_end span current rest
  end.

End WithRuntime.
End Http.

(** ** A concrete runtime and start state, for running the model *)

Module Sample.

Definition quote : string := String (ascii_of_nat 34) EmptyString.

Fixpoint join (sep : string) (parts : list string) : string :=
  match parts with
  | [] => EmptyString
  | [x] => x
  | x :: rest => x +:+ sep +:+ join sep rest
  end.

(** [JSON.stringify] on trees of integers, booleans, null and strings that
    need no escaping; an undefined property is skipped and an undefined
    array element printed as null. *)
Fixpoint json_text (v : JsVal) : string :=
  match v with
  | JUndefined | JNull => "null"
  | JBool true => "true"
  | JBool false => "false"
  | JNum n => NilZero.string_of_int (Z.to_int n)
  | JStr s => quote +:+ s +:+ quote
  | JArr elems => "[" +:+ join "," (map json_text elems) +:+ "]"
  | JObj props =>
      "{" +:+ join ","
                (flat_map (fun kv : string * JsVal =>
                             match kv.2 with
                             | JUndefined => []
                             | _ => [quote +:+ kv.1 +:+ quote +:+ ":" +:+ json_text kv.2]
                             end) props)
          +:+ "}"
  end.

Definition runtime : Runtime :=
  {| JSON_stringify := fun v => Some (json_text v);
     String_of := fun v => match v with JStr s => s | _ => json_text v end;
     startSpan_fault := fun _ => None;
     tracer_registered := true |}.

(** The same, but every serialization throws, as on cyclic values. *)
Definition runtime_cyclic : Runtime :=
  {| JSON_stringify := fun _ => None;
     String_of := String_of runtime;
     startSpan_fault := fun _ => None;
     tracer_registered := true |}.

(** The same, but [startSpan] raises. *)
Definition runtime_faulty : Runtime :=
  {| JSON_stringify := JSON_stringify runtime;
     String_of := String_of runtime;
     startSpan_fault := fun _ => Some ("Error", "exporter unavailable");
     tracer_registered := true |}.

Definition metrics (init : bool) : MetricsService :=
  {| initialized := init; counters := ∅; histograms := ∅;
     upDownCounters := ∅; observableGauges := ∅ |}.

Definition world (metrics_initialized : bool) : World :=
  {| w_next := 0; w_spans := []; w_active := None;
     w_metrics := metrics metrics_initialized; w_meter := [];
     w_now := 0; w_status := 200 |}.

(** A start state in which the identities below [n] are taken. *)
Definition world_at (n : nat) : World :=
  {| w_next := n; w_spans := []; w_active := None;
     w_metrics := metrics false; w_meter := [];
     w_now := 0; w_status := 200 |}.

Definition metrics_options : Metrics.MetricsOptions :=
  {| Metrics.metrics_enabled := None; Metrics.prefix := None |}.

Definition metrics_prefixed : Metrics.MetricsOptions :=
  {| Metrics.metrics_enabled := None; Metrics.prefix := Some "app_" |}.

Definition metrics_off : Metrics.MetricsOptions :=
  {| Metrics.metrics_enabled := Some false; Metrics.prefix := None |}.

(** A hand-made span double that lacks [recordException]. *)
Definition span_double : SpanVal := StubObj 0 ["setAttribute"; "setStatus"; "end"].

Definition tracing_on : Tracing.TracingConfig :=
  {| Tracing.enabled := true; Tracing.serviceName := JStr "svc";
     Tracing.serviceVersion := JStr "1.0.0"; Tracing.environment := JStr "test" |}.

Definition tracing_off : Tracing.TracingConfig :=
  {| Tracing.enabled := false; Tracing.serviceName := JStr "svc";
     Tracing.serviceVersion := JStr "1.0.0"; Tracing.environment := JStr "test" |}.

Definition boom : Thrown := ErrorObj 99 "Error" "boom" "Error: boom".

Definition service : Http.ObservabilityService :=
  {| Http.tracing_initialized := true; Http.metrics_options := metrics_options |}.

(** [GET /orders], no body. *)
Definition request : Http.Request :=
  {| Http.method := "GET"; Http.url := "/orders"; Http.host := JStr "localhost";
     Http.user_agent := JStr "curl"; Http.route_path := Some "/orders";
     Http.body := JUndefined |}.

(** A handler whose observable fails with [boom] after 50 ms, and one that
    answers after 50 ms. *)
Definition tick (ms : Z) : M unit :=
  fun w => (Normal tt,
            {| w_next := w_next w; w_spans := w_spans w; w_active := w_active w;
               w_metrics := w_metrics w; w_meter := w_meter w;
               w_now := (w_now w + ms)%Z; w_status := w_status w |}).

Definition failing_handler : M JsVal := tick 50 ;; throw boom.

Definition answering_handler : M JsVal := tick 50 ;; ret (JStr "ok").

(** [span => { span.setAttribute('k', 'v'); }] *)
Definition fn_setAttribute (span : SpanVal) : World -> Settled JsVal * World :=
  sync (call_span span (SetAttribute "k" (JStr "v")) ;; ret JUndefined).

End Sample.

(** ** Index keys *)

(** Array indices are written with decimal digits only. *)
Definition is_digit (c : ascii) : bool :=
  let n := nat_of_ascii c in (48 <=? n) && (n <=? 57).

Fixpoint all_digits (s : string) : bool :=
  match s with
  | EmptyString => true
  | String c r => is_digit c && all_digits r
  end.

Definition starts_with_letter (t : string) : bool :=
  match t with
  | EmptyString => false
  | String c _ => negb (is_digit c)
  end.

(** The key [\u212Aey], written with U+212A KELVIN SIGN, and the key
    [ap\u0130Key], written with U+0130. *)
Definition kelvin_key : string :=
  String (ascii_of_nat 226) (String (ascii_of_nat 132) (String (ascii_of_nat 170) "ey")).

Definition dotted_key : string :=
  String "a" (String "p" (String (ascii_of_nat 196) (String (ascii_of_nat 176) "Key"))).

(** ** Reading a value along a path of keys *)

(** [v[k]] for an own enumerable property of an object or an array. *)
Definition own_prop (k : string) (v : JsVal) : option JsVal :=
  match v with
  | JObj o => assoc k o
  | JArr elems => assoc k (Sanitizer.index_props elems)
  | _ => None
  end.

(** [v[k1][k2]...] through objects and arrays, [None] at the first missing
    property. *)
Fixpoint get_path (path : list string) (v : JsVal) : option JsVal :=
  match path with
  | [] => Some v
  | k :: rest =>
      match own_prop k v with
      | Some child => get_path rest child
      | None => None
      end
  end.

(** What the sanitizer leaves where a value [v] stood under a harmless key. *)
Definition sanitized_child (v : JsVal) : JsVal :=
  if is_object v then Sanitizer.sanitizeData v else v.

(** Induction on values that reaches into arrays and objects. *)
Section JsValInduction.
Variable P : JsVal -> Prop.
Hypothesis P_undefined : P JUndefined.
Hypothesis P_null : P JNull.
Hypothesis P_bool : forall b, P (JBool b).
Hypothesis P_num : forall n, P (JNum n).
Hypothesis P_str : forall s, P (JStr s).
Hypothesis P_arr : forall elems, Forall P elems -> P (JArr elems).
Hypothesis P_obj : forall props, Forall (fun kv => P kv.2) props -> P (JObj props).

Fixpoint JsVal_nested_ind (v : JsVal) : P v :=
  match v with
  | JUndefined => P_undefined
  | JNull => P_null
  | JBool b => P_bool b
  | JNum n => P_num n
  | JStr s => P_str s
  | JArr elems =>
      P_arr elems
        ((fix go (l : list JsVal) : Forall P l :=
            match l with
            | [] => @List.Forall_nil _ P
            | x :: rest => @List.Forall_cons _ P x rest (JsVal_nested_ind x) (go rest)
            end) elems)
  | JObj props =>
      P_obj props
        ((fix go (l : list (string * JsVal)) : Forall (fun kv => P kv.2) l :=
            match l with
            | [] => @List.Forall_nil _ _
            | kv :: rest =>
                @List.Forall_cons _ (fun kv => P kv.2) kv rest (JsVal_nested_ind kv.2) (go rest)
            end) props)
  end.
End JsValInduction.

(** [s.length]: the number of UTF-16 code units of a string held as UTF-8
    text.  A continuation byte adds none, the first byte of a four-byte
    character adds two (a surrogate pair), every other byte adds one. *)
Fixpoint js_length (s : string) : nat :=
  match s with
  | EmptyString => 0
  | String c r =>
      let n := nat_of_ascii c in
      (if (128 <=? n) && (n <? 192) then 0 else if 240 <=? n then 2 else 1)
      + js_length r
  end.

(** [v || d] *)
Definition or_value (v d : JsVal) : JsVal := if truthy v then v else d.

(** ** lib/tracing/interceptors/tracing.interceptor.ts *)

Module TracingInterceptor.
Section WithRuntime.
Context (rt : Runtime).

(** What [intercept] reads from the request and the execution context;
    [route_path] is [request.route?.path]. *)
Record Request : Type := {
  method : string;
  url : string;
  route_path : option string;
  body : JsVal;
  params : JsVal;
  query : JsVal;
  user_agent : JsVal;
  ip : JsVal;
  controllerName : string;
  handlerName : string;
}.

(** One of the three blocks of [addRequestMetadata]. *)
Definition add_metadata (span : SpanVal) (key : string) (value : JsVal) : M unit :=
  when (Http.has_keys value)
    (text <- stringify rt (Sanitizer.sanitizeData value) ;;
     call_span span (SetAttribute key (JStr text))).

Definition addRequestMetadata (span : option SpanVal) (body params query : JsVal)
  : M unit :=
  match span with
  | None => ret tt
  | Some span =>
      add_metadata span "request.params" params ;;
      add_metadata span "request.query" query ;;
      add_metadata span "request.body" body
  end.

(** The [setAttribute] calls of [addRequestMetadata] when every
    serialization succeeds. *)
Definition metadata_calls (body params query : JsVal) : list SpanCall :=
  flat_map (fun kv : string * JsVal =>
              if Http.has_keys kv.2
              then [SetAttribute kv.1
                      (JStr (default "" (JSON_stringify rt (Sanitizer.sanitizeData kv.2))))]
              else [])
           [("request.params", params); ("request.query", query); ("request.body", body)].

Definition getApproximateResponseSize (data : JsVal) : M Z :=
  if is_nullish data then ret 0%Z
  else
    try_catch
      (match data with
       | JStr s => ret (Z.of_nat (js_length s))
       | JArr _ | JObj _ =>
           json <- stringify rt data ;; ret (Z.of_nat (js_length json))
       | _ => ret (Z.of_nat (js_length (String_of rt data)))
       end)
      (fun _ => ret (-1)%Z).

Definition span_attributes (request : Request) : Props :=
  let routePath := Metrics.or_else (route_path request) (url request) in
  [ ("http.method", JStr (method request));
    ("http.url", JStr (url request));
    ("http.route", JStr routePath);
    ("http.user_agent", or_value (user_agent request) (JStr ""));
    ("http.client_ip", or_value (ip request) (JStr ""));
    ("nestjs.controller", JStr (controllerName request));
    ("nestjs.handler", JStr (handlerName request)) ].

Definition span_name (request : Request) : string :=
  "HTTP " +:+ method request +:+ " "
  +:+ Metrics.or_else (route_path request) (url request).

(** The [next] callback of the [tap]. *)
Definition on_next (span : SpanVal) (data : JsVal) : M unit :=
  statusCode <- Http.statusCode ;;
  size <- getApproximateResponseSize data ;;
  Tracing.endSpan rt (Some span) true None
    (Some [("http.status_code", JNum statusCode); ("response.size", JNum size)]).

(** The [error] callback of the [tap]. *)
Definition on_error (span : SpanVal) (error : Thrown) : M unit :=
  status <- read_prop error "status" ;;
  name <- read_prop error "name" ;;
  code <- read_prop error "code" ;;
  Tracing.endSpan rt (Some span) false (Some error)
    (Some [("http.status_code", or_value status (JNum 500));
           ("error.name", or_value name (JStr "Error"));
           ("error.code", or_value code (JStr "UNKNOWN"))]).

(** [tap({ next, error })] on the handler's observable: the callback runs
    first and the notification is passed on as it is; an error thrown by a
    callback takes the notification's place. *)
Definition tap (next_handle : M JsVal) (next : JsVal -> M unit)
    (error : Thrown -> M unit) : M JsVal :=
  fun w => match next_handle w with
           | (Normal data, w') => (next data ;; ret data) w'
           | (Throw e, w') => (error e ;; throw e) w'
           end.

(** [intercept]: what a subscriber of the returned observable sees, for a
    handler whose observable emits one value or fails. *)
Definition intercept (config : Tracing.TracingConfig) (request : Request)
    (next_handle : M JsVal) : M JsVal :=
  span <- Tracing.createSpan rt config (span_name request)
            (Some (span_attributes request)) (Some SERVER) None ;;
  addRequestMetadata (Some span) (body request) (params request) (query request) ;;
  tap next_handle (on_next span) (on_error span).

(** What [intercept] does before the handler runs. *)
Definition setup (config : Tracing.TracingConfig) (request : Request) : M SpanVal :=
  span <- Tracing.createSpan rt config (span_name request)
            (Some (span_attributes request)) (Some SERVER) None ;;
  addRequestMetadata (Some span) (body request) (params request) (query request) ;;
  ret span.

(** The attributes the [error] callback hands to [endSpan]. *)
Definition error_attributes (e : Thrown) : Props :=
  [("http.status_code", or_value (thrown_prop e "status") (JNum 500));
   ("error.name", or_value (thrown_prop e "name") (JStr "Error"));
   ("error.code", or_value (thrown_prop e "code") (JStr "UNKNOWN"))].

(** The size [getApproximateResponseSize] reports. *)
Definition response_size (data : JsVal) : Z :=
  if is_nullish data then 0%Z
  else match data with
       | JStr s => Z.of_nat (js_length s)
       | JArr _ | JObj _ =>
           match JSON_stringify rt data with
           | Some json => Z.of_nat (js_length json)
           | None => (-1)%Z
           end
       | _ => Z.of_nat (js_length (String_of rt data))
       end.

End WithRuntime.
End TracingInterceptor.

(** The status [endSpan] leaves on a span it ends. *)
Definition final_status (success : bool) (error : option Thrown)
  : SpanStatusCode * JsVal :=
  if success then (OK, JUndefined)
  else match error with
       | Some e => if thrown_truthy e then (ERROR, thrown_prop e "message")
                   else (ERROR, JStr "Unknown error")
       | None => (ERROR, JStr "Unknown error")
       end.

(** A thrown value whose properties can be read. *)
Definition readable (e : Thrown) : bool :=
  match e with
  | NonError v => negb (is_nullish v)
  | ErrorObj _ _ _ _ => true
  end.
(** A span handed out by the API, which has every method of the
    interface. *)
Definition api_span (span : SpanVal) : Prop :=
  match span with
  | SdkSpan _ | NonRecordingSpan _ => True
  | StubObj _ _ => False
  end.

(** ** lib/services/tracing.service.ts, the synchronous [trace] *)

Module ServicesSync.
Section WithRuntime.
Context (rt : Runtime).

(** [trace(name, fn, kind)]: as [traceAsync], without awaiting. *)
Definition trace {T} (initialized : bool) (name : string)
    (fn : SpanVal -> M T) (kind : option SpanKind) : M T :=
  if negb initialized then
    span <- Services.noop_startSpan rt ;; fn span
  else
    span <- sdk_startSpan rt name kind None [] ;;
    try_catch
      (with_active span
         (try_finally
            (try_catch
               (result <- fn span ;;
                call_span span (SetStatus OK JUndefined) ;;
                ret result)
               (fun error =>
                  call_span span (SetStatus ERROR (Services.message_or_String rt error)) ;;
                  exception <- Services.as_Error rt error ;;
                  call_span span (RecordException exception) ;;
                  throw error))
            (call_span span End)))
      (fun error => throw error).

End WithRuntime.
End ServicesSync.

(** ** The five HTTP recorders of lib/services/metrics.service.ts *)

Module HttpRecorders.

Inductive HttpRecorder : Type :=
| RequestDuration (duration : Z)
| RequestTotal
| ErrorTotal
| RequestSize (size : Z)
| ResponseSize (size : Z).

(** One call of a recorder. *)
Definition run (options : Metrics.MetricsOptions) (r : HttpRecorder)
    (attributes : Props) : M unit :=
  match r with
  | RequestDuration duration =>
      Metrics.recordHttpRequestDuration options duration attributes
  | RequestTotal => Metrics.incrementHttpRequestTotal options attributes
  | ErrorTotal => Metrics.incrementHttpErrorTotal options attributes
  | RequestSize size => Metrics.recordHttpRequestSize options size attributes
  | ResponseSize size => Metrics.recordHttpResponseSize options size attributes
  end.

(** The instrument a recorder writes to, and the value it writes. *)
Definition kind_of (r : HttpRecorder) : InstrumentKind :=
  match r with
  | RequestTotal | ErrorTotal => Counter
  | _ => Histogram
  end.

Definition name_of (r : HttpRecorder) : string :=
  match r with
  | RequestDuration _ => "http.request.duration"
  | RequestTotal => "http.request.total"
  | ErrorTotal => "http.error.total"
  | RequestSize _ => "http.request.size"
  | ResponseSize _ => "http.response.size"
  end.

Definition value_of (r : HttpRecorder) : Z :=
  match r with
  | RequestDuration duration => duration
  | RequestTotal | ErrorTotal => 1%Z
  | RequestSize size | ResponseSize size => size
  end.

End HttpRecorders.

(** ** lib/tracing/decorators/trace.decorator.ts *)

Module TraceDecorator.

(** [SpanOptions] of lib/tracing/types. *)
Record SpanOptions : Type := {
  attributes : option Props;
  autoEnd : option bool;
  kind : option SpanKind;
  links : option (list JsVal);
}.

(** [name || `${target.constructor.name}.${propertyKey}`] *)
Definition spanName (name : option string) (className propertyKey : string) : string :=
  Metrics.or_else name (className +:+ "." +:+ propertyKey).

(** The kind the span is given: [options?.kind || SpanKind.INTERNAL], where
    [INTERNAL] is the number 0, then overwritten by the two tests on the
    names. *)
Definition spanKind (options : option SpanOptions) (className propertyKey : string)
  : SpanKind :=
  if Str.includes className "Controller" then SERVER
  else if Str.includes propertyKey "fetch" || Str.includes propertyKey "request"
          || Str.includes propertyKey "call" || Str.includes propertyKey "get"
  then CLIENT
  else match options ≫= kind with
       | Some INTERNAL | None => INTERNAL
       | Some k => k
       end.

Definition baseAttributes (className propertyKey : string) : Props :=
  [("code.function", JStr propertyKey);
   ("code.namespace", JStr className);
   ("code.filepath", JStr className)].

(** [{ ...baseAttributes, ...options?.attributes }] *)
Definition combinedAttributes (options : option SpanOptions)
    (className propertyKey : string) : Props :=
  spread (baseAttributes className propertyKey) (default [] (options ≫= attributes)).

(** The [resultAttributes] function handed to [trace]. *)
Definition resultAttributes (result : JsVal) : Props :=
  match result with
  | JArr elems =>
      [("result.type", JStr "array");
       ("result.length", JNum (Z.of_nat (length elems)))]
  | JObj _ => [("result.type", JStr "object")]
  | _ => []
  end.

(** The third argument of the call of [trace]. *)
Definition trace_options (options : option SpanOptions) (className propertyKey : string)
  : Tracing.TraceOptions JsVal :=
  {| Tracing.opt_attributes := Some (combinedAttributes options className propertyKey);
     Tracing.opt_kind := Some (spanKind options className propertyKey);
     Tracing.opt_links := None;
     Tracing.opt_resultAttributes :=
       match options ≫= autoEnd with
       | Some false => None
       | _ => Some (fun result => ret (resultAttributes result))
       end |}.

(** The method that replaces the decorated one.  [tracingService] is what
    [Reflect.getMetadata('tracingService', ..)] finds, a service being given
    by its configuration; the warning printed when there is none goes to the
    console only. *)
Definition decorated (rt : Runtime) (tracingService : option Tracing.TracingConfig)
    (name : option string) (options : option SpanOptions)
    (className propertyKey : string)
    (originalMethod : World -> Settled JsVal * World) : M JsVal :=
  match tracingService with
  | None => await originalMethod
  | Some config =>
      Tracing.trace rt config (spanName name className propertyKey)
        (fun _span => originalMethod)
        (trace_options options className propertyKey)
  end.

End TraceDecorator.

(** ** Further sample inputs *)

Module Fixtures.

(** [POST /login] with credentials in the body. *)
Definition login : TracingInterceptor.Request :=
  {| TracingInterceptor.method := "POST";
     TracingInterceptor.url := "/login";
     TracingInterceptor.route_path := Some "/login";
     TracingInterceptor.body :=
       JObj [("user", JStr "ann"); ("password", JStr "p1")];
     TracingInterceptor.params := JObj [];
     TracingInterceptor.query := JUndefined;
     TracingInterceptor.user_agent := JStr "curl";
     TracingInterceptor.ip := JUndefined;
     TracingInterceptor.controllerName := "AuthController";
     TracingInterceptor.handlerName := "login" |}.

End Fixtures.

(* ================================================================== *)
(** * Properties *)
(* ================================================================== *)

(** ** Substring search *)

Lemma startsWith_spec (s t : string) :
  Str.startsWith s t = true <-> exists r, s = t +:+ r.
Proof.
  revert s. induction t as [|b t IH]; intros s; simpl.
  - split; [intros _; by exists s | done].
  - destruct s as [|a s]; simpl.
    + split; [done | intros [r Hr]; discriminate].
    + rewrite andb_true_iff, IH, Ascii.eqb_eq. split.
      * intros [-> [r ->]]. eauto.
      * intros [r Hr]. injection Hr as -> ->. eauto.
Qed.

Lemma includes_spec (s t : string) :
  Str.includes s t = true <-> exists a r, s = a +:+ t +:+ r.
Proof.
  induction s as [|c s IH]; simpl; rewrite orb_true_iff, startsWith_spec.
  - split.
    + intros [[r Hr] | ?]; [|done]. exists EmptyString, r. done.
    + intros (a & r & Hr). left. destruct a; simpl in Hr; [eauto | discriminate].
  - rewrite IH. split.
    + intros [[r Hr] | (a & r & Hr)].
      * exists EmptyString, r. done.
      * exists (String c a), r. simpl. by rewrite Hr.
    + intros (a & r & Hr). destruct a as [|c' a]; simpl in Hr.
      * left. eauto.
      * right. injection Hr as -> ->. eauto.
Qed.

Lemma string_app_assoc (a b c : string) : (a +:+ b) +:+ c = a +:+ b +:+ c.
Proof.
  induction a as [|x a IH]; [done|].
  change (String x ((a +:+ b) +:+ c) = String x (a +:+ b +:+ c)). by rewrite IH.
Qed.

Lemma includes_trans (s t u : string) :
  Str.includes s t = true -> Str.includes t u = true -> Str.includes s u = true.
Proof.
  rewrite !includes_spec. intros (a & r & ->) (a' & r' & ->).
  exists (a +:+ a'), (r' +:+ r). by rewrite !string_app_assoc.
Qed.

(** No upper-case letter survives [toLowerCase], so a term written with one
    is never found in a lower-cased key. *)
Lemma lower_char_not_upper (c : ascii) : Str.is_upper (Str.lower_char c) = false.
Proof. by destruct c as [[] [] [] [] [] [] [] []]. Qed.

Lemma toLowerCase_no_upper (s : string) : Str.has_upper (Str.toLowerCase s) = false.
Proof.
  assert (forall n s, String.length s <= n -> Str.has_upper (Str.toLowerCase s) = false)
    as Hall; [|by apply (Hall (String.length s))].
  clear s. induction n as [|n IH]; intros [|c r] Hlen; simpl in Hlen; try done; try lia.
  assert (Str.has_upper (Str.toLowerCase r) = false) as Hr by (apply IH; lia).
  destruct r as [|c2 r2]; [simpl; by rewrite lower_char_not_upper|].
  assert (Str.has_upper (Str.toLowerCase r2) = false) as Hr2
    by (apply IH; simpl in Hlen; lia).
  change (Str.toLowerCase (String c (String c2 r2)))
    with (if Str.is_byte 196 c && Str.is_byte 176 c2 then
            String "i" (String (ascii_of_nat 204)
                          (String (ascii_of_nat 135) (Str.toLowerCase r2)))
          else
            match r2 with
            | String c3 r3 =>
                if Str.is_byte 226 c && Str.is_byte 132 c2 && Str.is_byte 170 c3
                then String "k" (Str.toLowerCase r3)
                else String (Str.lower_char c) (Str.toLowerCase (String c2 r2))
            | EmptyString => String (Str.lower_char c) (Str.toLowerCase (String c2 r2))
            end).
  destruct (Str.is_byte 196 c && Str.is_byte 176 c2); [exact Hr2|].
  destruct r2 as [|c3 r3].
  - change (Str.has_upper (String (Str.lower_char c) (Str.toLowerCase (String c2 "")))
            = false).
    simpl. by rewrite !lower_char_not_upper.
  - destruct (Str.is_byte 226 c && Str.is_byte 132 c2 && Str.is_byte 170 c3).
    + simpl. apply IH. simpl in Hlen. lia.
    + change (Str.is_upper (Str.lower_char c)
              || Str.has_upper (Str.toLowerCase (String c2 (String c3 r3))) = false).
      by rewrite lower_char_not_upper, Hr.
Qed.

Lemma has_upper_app (a b : string) :
  Str.has_upper (a +:+ b) = Str.has_upper a || Str.has_upper b.
Proof.
  induction a as [|c a IH]; [done|].
  change (Str.is_upper c || Str.has_upper (a +:+ b)
          = Str.is_upper c || Str.has_upper a || Str.has_upper b).
  by rewrite IH, orb_assoc.
Qed.

Lemma includes_no_upper (s t : string) :
  Str.has_upper s = false -> Str.includes s t = true -> Str.has_upper t = false.
Proof.
  intros Hs (a & r & ->)%includes_spec.
  rewrite !has_upper_app in Hs.
  apply orb_false_iff in Hs as [_ Hs]. by apply orb_false_iff in Hs as [Hs _].
Qed.

(** ** The sanitizer on values *)

(** The code's field list and the specification's term list single out the
    same keys: the three extra fields contain a listed term, and the two
    listed terms written with a capital letter contain a listed field. *)
Lemma fields_contain_terms :
  Forall (fun field =>
            existsb (fun term => Str.includes (Str.toLowerCase field) term)
              Sanitizer.listed_terms = true)
         Sanitizer.sensitiveFields.
Proof. by repeat constructor. Qed.

Lemma terms_contain_fields :
  Forall (fun term =>
            Str.has_upper term = false ->
            existsb (fun field => Str.includes term (Str.toLowerCase field))
              Sanitizer.sensitiveFields = true)
         Sanitizer.listed_terms.
Proof. by repeat constructor. Qed.

Lemma is_sensitive_listed (key : string) :
  Sanitizer.is_sensitive key = Sanitizer.names_listed_term key.
Proof.
  apply eq_true_iff_eq.
  unfold Sanitizer.is_sensitive, Sanitizer.names_listed_term.
  rewrite !existsb_exists. split.
  - intros (field & Hin & Hinc).
    pose proof (proj1 (List.Forall_forall _ _) fields_contain_terms _ Hin) as Hcov.
    apply existsb_exists in Hcov as (term & Hterm & Hsub).
    exists term. split; [done|]. by eapply includes_trans.
  - intros (term & Hin & Hinc).
    pose proof (includes_no_upper _ _ (toLowerCase_no_upper key) Hinc) as Hlow.
    pose proof (proj1 (List.Forall_forall _ _) terms_contain_fields _ Hin Hlow) as Hcov.
    apply existsb_exists in Hcov as (field & Hfield & Hsub).
    exists field. split; [done|]. by eapply includes_trans.
Qed.

(** Where no character beyond ASCII starts, lower-casing goes letter by
    letter. *)
Lemma toLowerCase_plain (c : ascii) (r : string) :
  Str.is_byte 196 c = false -> Str.is_byte 226 c = false ->
  Str.toLowerCase (String c r) = String (Str.lower_char c) (Str.toLowerCase r).
Proof.
  intros H1 H2. destruct r as [|c2 [|c3 r3]]; [done| |].
  - change (Str.toLowerCase (String c (String c2 "")))
      with (if Str.is_byte 196 c && Str.is_byte 176 c2
            then String "i" (String (ascii_of_nat 204) (String (ascii_of_nat 135) ""))
            else String (Str.lower_char c) (Str.toLowerCase (String c2 ""))).
    by rewrite H1.
  - change (Str.toLowerCase (String c (String c2 (String c3 r3))))
      with (if Str.is_byte 196 c && Str.is_byte 176 c2
            then String "i" (String (ascii_of_nat 204)
                               (String (ascii_of_nat 135) (Str.toLowerCase (String c3 r3))))
            else if Str.is_byte 226 c && Str.is_byte 132 c2 && Str.is_byte 170 c3
                 then String "k" (Str.toLowerCase r3)
                 else String (Str.lower_char c)
                        (Str.toLowerCase (String c2 (String c3 r3)))).
    by rewrite H1, H2.
Qed.

(** A key written with U+212A lower-cases to a sensitive name, and so does
    one written with U+0130 when an ASCII term follows. *)
Example toLowerCase_beyond_ascii :
  Str.toLowerCase kelvin_key = "key" /\ Sanitizer.is_sensitive kelvin_key = true /\
  Sanitizer.is_sensitive dotted_key = true /\
  Sanitizer.sanitizeData (JObj [(kelvin_key, JStr "s3cret")])
  = JObj [(kelvin_key, JStr "[REDACTED]")].
Proof. repeat split; reflexivity. Qed.

(** Array indices are never taken for sensitive keys. *)
Lemma string_of_uint_digits (d : Decimal.uint) :
  all_digits (NilEmpty.string_of_uint d) = true.
Proof. induction d; simpl; done. Qed.

Lemma toLowerCase_digits (s : string) : all_digits s = true -> Str.toLowerCase s = s.
Proof.
  induction s as [|c s IH]; [done|].
  intros [Hc Hs]%andb_true_iff.
  unfold is_digit in Hc. apply andb_true_iff in Hc as [Hlo Hhi].
  apply Nat.leb_le in Hlo, Hhi.
  rewrite toLowerCase_plain, (IH Hs).
  - f_equal. unfold Str.lower_char, Str.is_upper.
    destruct (65 <=? nat_of_ascii c) eqn:E; [|done]. apply Nat.leb_le in E. lia.
  - unfold Str.is_byte. apply Nat.eqb_neq. lia.
  - unfold Str.is_byte. apply Nat.eqb_neq. lia.
Qed.

Lemma includes_digits (s t : string) :
  all_digits s = true -> starts_with_letter t = true -> Str.includes s t = false.
Proof.
  intros Hs Ht. destruct t as [|b t]; [done|]. simpl in Ht.
  induction s as [|a s IH]; [done|].
  simpl in Hs. apply andb_true_iff in Hs as [Ha Hs].
  change (Str.includes (String a s) (String b t))
    with (Ascii.eqb a b && Str.startsWith s t || Str.includes s (String b t)).
  rewrite (IH Hs). destruct (Ascii.eqb_spec a b) as [->|]; [|done].
  by rewrite Ha in Ht.
Qed.

Lemma is_sensitive_index (i : nat) : Sanitizer.is_sensitive (Str.of_index i) = false.
Proof.
  unfold Sanitizer.is_sensitive, Str.of_index.
  pose proof (string_of_uint_digits (Nat.to_uint i)) as Hd.
  rewrite (toLowerCase_digits _ Hd).
  apply not_true_is_false. intros (field & Hin & Hinc)%existsb_exists.
  rewrite includes_digits in Hinc; [done | done |].
  revert Hin. unfold Sanitizer.sensitiveFields.
  repeat (intros [<-|Hin]; [done | revert Hin]). done.
Qed.

(** C5 (as stated) fails on an array under a harmless key: the rule passes
    it through, the code walks it and hands back an object keyed by the
    indices. *)
Lemma sanitizeData_array_not_passed_through :
  let data := JObj [("list", JArr [JNum 1])] in
  Sanitizer.redaction_rule data = data /\
  Sanitizer.sanitizeData data = JObj [("list", JObj [("0", JNum 1)])] /\
  Sanitizer.sanitizeData data <> Sanitizer.redaction_rule data.
Proof. by repeat split. Qed.

(** C5 (amended): the sanitizer maps each entry of an object on its own: a
    key whose lower-cased name contains a listed term gets the marker
    "[REDACTED]"; under any other key a nested object or array is replaced by
    its sanitized walk and a primitive value is passed through unchanged.
    An array, nested or given as the argument, is walked the same way,
    element by element: its sanitized walk is the object that holds, under
    the indices "0", "1", ... in order, the sanitized walk of each element
    that is an object or an array and every other element unchanged.  The
    specification's example evaluates as stated. *)
Theorem sanitizeData_redacts :
  (forall o : Props,
     Sanitizer.sanitizeData (JObj o) =
       JObj (map (fun kv : string * JsVal =>
                    (kv.1,
                     if Sanitizer.names_listed_term kv.1 then JStr "[REDACTED]"
                     else match kv.2 with
                          | JObj _ | JArr _ => Sanitizer.sanitizeData kv.2
                          | _ => kv.2
                          end)) o)) /\
  (forall elems : list JsVal,
     Sanitizer.sanitizeData (JArr elems) =
       JObj (Sanitizer.map_from
               (fun (i : nat) (v : JsVal) =>
                  (Str.of_index i,
                   match v with
                   | JObj _ | JArr _ => Sanitizer.sanitizeData v
                   | _ => v
                   end)) 0 elems)) /\
  Sanitizer.sanitizeData
    (JObj [("password", JStr "p1");
           ("nested", JObj [("token", JStr "t1"); ("ok", JStr "v")])])
  = JObj [("password", JStr "[REDACTED]");
          ("nested", JObj [("token", JStr "[REDACTED]"); ("ok", JStr "v")])] /\
  Sanitizer.sanitizeData
    (JObj [("users", JArr [JObj [("pin", JNum 1234)]; JStr "guest"])])
  = JObj [("users", JObj [("0", JObj [("pin", JStr "[REDACTED]")]);
                          ("1", JStr "guest")])].
Proof.
  split; [|split; [|by split]].
  - intros o. simpl. f_equal. apply map_ext. intros [key v]. simpl.
    rewrite is_sensitive_listed.
    destruct (Sanitizer.names_listed_term key); [done|]. by destruct v.
  - intros elems. simpl. f_equal. generalize 0.
    induction elems as [|v elems IH]; intros i; simpl; [done|].
    rewrite IH, is_sensitive_index. f_equal. by destruct v.
Qed.

(** Array elements are walked too, so a secret inside one is redacted. *)
Example sanitize_nested_in_array :
  Sanitizer.sanitizeData (JObj [("users", JArr [JObj [("pin", JNum 1234)]])])
  = JObj [("users", JObj [("0", JObj [("pin", JStr "[REDACTED]")])])].
Proof. reflexivity. Qed.

(** ** Objects as key-value lists *)

Section Assoc.
Context {V : Type}.
Implicit Types (o : list (string * V)) (k : string) (v : V).

Lemma assoc_elem_of k v o : assoc k o = Some v -> (k, v) ∈ o.
Proof.
  induction o as [|[k' v'] o IH]; simpl; [done|].
  destruct (String.eqb_spec k k') as [->|Hne].
  - intros [= ->]. left.
  - intros H. right. auto.
Qed.

Lemma elem_of_keys k v o : (k, v) ∈ o -> k ∈ map fst o.
Proof. intros H. apply (list_elem_of_fmap_2 fst) in H. done. Qed.

Lemma elem_of_assoc k v o : NoDup (map fst o) -> (k, v) ∈ o -> assoc k o = Some v.
Proof.
  induction o as [|[k' v'] o IH]; simpl; [by intros _ ?%elem_of_nil|].
  intros [Hnotin Hnd]%NoDup_cons [[= -> ->]|Hin]%elem_of_cons.
  - by rewrite String.eqb_refl.
  - destruct (String.eqb_spec k k') as [->|Hne]; [|auto].
    destruct Hnotin. by eapply elem_of_keys.
Qed.

Lemma assoc_obj_set_ne k k0 v o : k <> k0 -> assoc k (obj_set k0 v o) = assoc k o.
Proof.
  intros Hne. induction o as [|[k' v'] o IH]; simpl.
  - by destruct (String.eqb_spec k k0).
  - destruct (String.eqb_spec k0 k') as [->|Hne']; simpl.
    + by destruct (String.eqb_spec k k').
    + by rewrite IH.
Qed.

Lemma obj_set_keys k0 v o : k0 ∈ map fst o -> map fst (obj_set k0 v o) = map fst o.
Proof.
  induction o as [|[k' v'] o IH]; simpl; [by intros ?%elem_of_nil|].
  destruct (String.eqb_spec k0 k') as [->|Hne]; [done|].
  intros [?|Hin]%elem_of_cons; [done|]. simpl. by rewrite IH.
Qed.

Lemma elem_of_obj_set k v k0 v0 o :
  NoDup (map fst o) -> (k, v) ∈ obj_set k0 v0 o ->
  (k = k0 /\ v = v0) \/ (k <> k0 /\ (k, v) ∈ o).
Proof.
  induction o as [|[k' v'] o IH]; simpl.
  - intros _ [[= -> ->]|[]%elem_of_nil]%elem_of_cons. by left.
  - intros [Hnotin Hnd]%NoDup_cons.
    destruct (String.eqb_spec k0 k') as [->|Hne].
    + intros [[= -> ->]|Hin]%elem_of_cons; [by left|].
      right. split; [|by right].
      intros ->. destruct Hnotin. by eapply elem_of_keys.
    + intros [[= -> ->]|Hin]%elem_of_cons.
      * right. split; [done | left].
      * destruct (IH Hnd Hin) as [?|[? ?]]; [by left|].
        right. split; [done | by right].
Qed.
Lemma assoc_app_notin k (l1 l2 : list (string * V)) :
  k ∉ map fst l1 -> assoc k (l1 ++ l2) = assoc k l2.
Proof.
  induction l1 as [|[k' v'] l1 IH]; simpl; [done|].
  intros Hnotin. apply not_elem_of_cons in Hnotin as [Hne Hnotin].
  destruct (String.eqb_spec k k'); [done | auto].
Qed.

Lemma obj_set_app_notin k v (l1 l2 : list (string * V)) :
  k ∉ map fst l1 -> obj_set k v (l1 ++ l2) = l1 ++ obj_set k v l2.
Proof.
  induction l1 as [|[k' v'] l1 IH]; simpl; [done|].
  intros Hnotin. apply not_elem_of_cons in Hnotin as [Hne Hnotin].
  destruct (String.eqb_spec k k'); [done|]. by rewrite IH.
Qed.
End Assoc.

(** ** The sanitizer on the object store *)

Section HeapSanitizer.
Import SanitizerHeap.
Implicit Types (h hc : heap) (o c : HObj) (v : HVal) (s r l : loc).

Lemma reify_prefix n h h2 v t :
  h `prefix_of` h2 -> reify n h v = Some t -> reify n h2 v = Some t.
Proof.
  intros Hpre. revert v t.
  induction n as [|n IH]; intros [p|l] t; simpl; try done.
  destruct (h !! l) as [o|] eqn:Hl; simpl; [|done].
  rewrite (prefix_lookup_Some _ _ _ _ Hl Hpre). simpl.
  destruct (mapM _ o) as [kvs|] eqn:Hm; simpl; [|done]. intros [= <-].
  assert (mapM (fun kv : string * HVal => pair kv.1 <$> reify n h2 kv.2) o
          = Some kvs) as ->; [|done].
  apply mapM_Some. apply mapM_Some in Hm.
  eapply Forall2_impl; [done|]. intros [k v] kt Hk. simpl in *.
  destruct (reify n h v) as [t'|] eqn:E; [|done]. by rewrite (IH _ _ E).
Qed.

Lemma prefix_alter_ge (f : HObj -> HObj) h hc s :
  h `prefix_of` hc -> length h <= s -> h `prefix_of` alter f s hc.
Proof.
  intros [k ->] Hs. rewrite alter_app_r_alt by done. by eexists.
Qed.

Lemma heap_wf_lookup h l o : heap_wf h -> h !! l = Some o -> NoDup (map fst o).
Proof. intros Hwf Hl. by apply (Forall_lookup_1 _ _ _ _ Hwf Hl). Qed.

Lemma heap_wf_store h s c key v :
  heap_wf h -> h !! s = Some c -> key ∈ map fst c ->
  heap_wf (store s key v h).
Proof.
  intros Hwf Hs Hkey. apply Forall_alter; [done|].
  intros c' Hc' _. assert (c' = c) as -> by congruence.
  rewrite obj_set_keys by done. by eapply heap_wf_lookup.
Qed.

Lemma refs_above_mono b b' o : b' <= b -> refs_above b o -> refs_above b' o.
Proof.
  intros Hb H. eapply Forall_impl; [exact H|]. intros [k [p|r]]; simpl; lia.
Qed.

Lemma closed_from_store b h s key v :
  s < b -> closed_from b h -> closed_from b (store s key v h).
Proof.
  intros Hs Hcl l o Hl. unfold store.
  rewrite list_lookup_alter_ne by lia. by apply Hcl.
Qed.

Lemma closed_from_extend b hc hc' :
  hc `prefix_of` hc' -> b <= length hc ->
  closed_from b hc -> closed_from (length hc) hc' -> closed_from b hc'.
Proof.
  intros Hpre Hb Hold Hnew l o Hl Hlook.
  destruct (decide (l < length hc)) as [Hlt|Hge].
  - apply (Hold l); [done|]. by rewrite (prefix_lookup_lt _ _ _ Hlt Hpre).
  - eapply refs_above_mono; [|eapply (Hnew l); [lia|done]]. done.
Qed.

Lemma mapM_reads n h o kvs :
  mapM (fun kv : string * HVal => pair kv.1 <$> reify n h kv.2) o = Some kvs
  <-> Forall2 (reads n h) o kvs.
Proof.
  rewrite mapM_Some.
  split; intros H; (eapply Forall2_impl; [exact H|]);
    intros [k v] [k' t]; unfold reads; simpl.
  - destruct (reify n h v); naive_solver.
  - intros [-> ->]. done.
Qed.

Lemma Forall2_impl_Forall {A B} (P : A -> Prop) (R R' : A -> B -> Prop)
    (xs : list A) (ys : list B) :
  Forall P xs -> Forall2 R xs ys -> (forall x y, P x -> R x y -> R' x y) ->
  Forall2 R' xs ys.
Proof.
  intros HP HR Himpl. revert HP.
  induction HR as [|x y xs ys Hxy HR IH]; intros HP; [constructor|].
  apply Forall_cons in HP as [Hx HP]. constructor; auto.
Qed.

Lemma reads_prefix n h h2 kv kt :
  h `prefix_of` h2 -> reads n h kv kt -> reads n h2 kv kt.
Proof. intros Hpre [? ?]. split; [done | by eapply reify_prefix]. Qed.

(** A write below a closed region is not seen from inside it. *)
Lemma reify_alter_below n (f : HObj -> HObj) hc s : forall v,
  closed_from (S s) hc ->
  match v with HRef r => S s <= r | HPrim _ => True end ->
  reify n (alter f s hc) v = reify n hc v.
Proof.
  induction n as [|n IH]; intros [p|r] Hcl Hv; simpl; try done.
  rewrite list_lookup_alter_ne by lia.
  destruct (hc !! r) as [o|] eqn:Hr; simpl; [|done].
  pose proof (Hcl r o Hv Hr) as Hrefs.
  assert (mapM (fun kv : string * HVal => pair kv.1 <$> reify n (alter f s hc) kv.2) o
          = mapM (fun kv : string * HVal => pair kv.1 <$> reify n hc kv.2) o) as ->;
    [|done].
  clear Hr. induction o as [|[k v] o IHo]; [done|].
  apply Forall_cons in Hrefs as [Hv' Hrefs]. simpl in *.
  rewrite IH by done. by rewrite IHo.
Qed.

Lemma reads_alter_below n (f : HObj -> HObj) hc s kv kt :
  closed_from (S s) hc ->
  match kv.2 with HRef r => S s <= r | HPrim _ => True end ->
  reads n hc kv kt -> reads n (alter f s hc) kv kt.
Proof. intros Hcl Hv [? ?]. split; [done | by rewrite reify_alter_below]. Qed.

Lemma reify_prim n h p : reify n h (HPrim p) = Some (prim_val p).
Proof. by destruct n. Qed.

Lemma reify_ref_is_object n h r t : reify n h (HRef r) = Some t -> exists kvs, t = JObj kvs.
Proof.
  destruct n; simpl; [done|].
  destruct (h !! r); simpl; [|done].
  destruct (mapM _ _); simpl; [|done]. intros [= <-]. eauto.
Qed.

Section Loop.
Variable m : nat.
Hypothesis sanitize_m : forall h data t,
  heap_wf h -> reify m h (HRef data) = Some t ->
  exists h', sanitizeData m data h = Some (length h, h') /\
             h `prefix_of` h' /\ closed_from (length h) h' /\ heap_wf h' /\
             reify m h' (HRef (length h)) = Some (Sanitizer.sanitizeData t).

(** The loop over the keys: the copy at [length h] is [done ++ rest], the
    entries of [done] already rewritten and those of [rest] as copied. *)
Lemma forEach_sanitize_key h rest : forall done done_t rest_t hc,
  NoDup (map fst (done ++ rest)) ->
  Forall2 (reads m h) rest rest_t ->
  Forall2 (reads m hc) done
    (map (Sanitizer.sanitize_entry Sanitizer.sanitizeData) done_t) ->
  refs_above (S (length h)) done ->
  h `prefix_of` hc -> hc !! length h = Some (done ++ rest) ->
  heap_wf hc -> closed_from (S (length h)) hc ->
  exists hc' c',
    forEach (sanitize_key (sanitizeData m) (length h)) (map fst rest) hc = Some hc' /\
    h `prefix_of` hc' /\ hc' !! length h = Some c' /\ heap_wf hc' /\
    closed_from (S (length h)) hc' /\ refs_above (S (length h)) c' /\
    Forall2 (reads m hc') c'
      (map (Sanitizer.sanitize_entry Sanitizer.sanitizeData) (done_t ++ rest_t)).
Proof.
  set (s := length h).
  induction rest as [|[k0 v0] rest IHrest];
    intros done done_t rest_t hc Hnd Hrest Hdone Habove Hpre Hs Hwf Hcl.
  { apply Forall2_nil_inv_l in Hrest as ->. rewrite app_nil_r in *.
    exists hc, done. by repeat split. }
  apply Forall2_cons_inv_l in Hrest as (kt0 & rest_t' & [Hk0 Hv0] & Hrest & ->).
  simpl in Hk0, Hv0.
  assert (k0 ∉ map fst done) as Hfresh.
  { rewrite map_app in Hnd. apply NoDup_app in Hnd as (_ & Hdisj & _).
    intros Hin. apply (Hdisj k0 Hin). left. }
  assert (forall v', obj_set k0 v' (done ++ (k0, v0) :: rest)
                     = (done ++ [(k0, v')]) ++ rest) as Hset.
  { intros v'. rewrite obj_set_app_notin by done. simpl.
    by rewrite String.eqb_refl, <- app_assoc. }
  assert (k0 ∈ map fst (done ++ (k0, v0) :: rest)) as Hk0in.
  { rewrite map_app. apply elem_of_app. right. left. }
  assert (forall v', NoDup (map fst ((done ++ [(k0, v')]) ++ rest))) as Hnd'.
  { intros v'. by rewrite <- app_assoc, !map_app in *. }
  assert (s < length hc) as Hslt by by eapply lookup_lt_Some.
  (* what remains to show once the entry of [k0] has been settled *)
  assert (forall hc1 v',
    h `prefix_of` hc1 -> heap_wf hc1 -> closed_from (S s) hc1 ->
    hc1 !! s = Some ((done ++ [(k0, v')]) ++ rest) ->
    Forall2 (reads m hc1) done
      (map (Sanitizer.sanitize_entry Sanitizer.sanitizeData) done_t) ->
    match v' with HRef r => S s <= r | HPrim _ => True end ->
    reads m hc1 (k0, v') (Sanitizer.sanitize_entry Sanitizer.sanitizeData kt0) ->
    exists hc' c',
      forEach (sanitize_key (sanitizeData m) s) (map fst rest) hc1 = Some hc' /\
      h `prefix_of` hc' /\ hc' !! s = Some c' /\ heap_wf hc' /\
      closed_from (S s) hc' /\ refs_above (S s) c' /\
      Forall2 (reads m hc') c'
        (map (Sanitizer.sanitize_entry Sanitizer.sanitizeData)
           (done_t ++ kt0 :: rest_t'))) as Hnext.
  { intros hc1 v' Hpre1 Hwf1 Hcl1 Hs1 Hdone1 Hv' Hnew.
    replace (done_t ++ kt0 :: rest_t') with ((done_t ++ [kt0]) ++ rest_t')
      by by rewrite <- app_assoc.
    apply (IHrest (done ++ [(k0, v')])); try done.
    - rewrite map_app. apply Forall2_app; [done|]. by constructor.
    - apply Forall_app. split; [done|]. by constructor. }
  simpl. unfold sanitize_key at 1. destruct kt0 as [k0' t0]. simpl in Hk0, Hv0. subst k0'.
  destruct (Sanitizer.is_sensitive k0) eqn:Hsens.
  - (* the entry is overwritten with the marker *)
    apply (Hnext _ (HPrim (PStr Sanitizer.REDACTED))).
    + apply prefix_alter_ge; [done | unfold s; lia].
    + by eapply heap_wf_store.
    + apply closed_from_store; [lia | done].
    + unfold store. by rewrite list_lookup_alter_eq, Hs, <- Hset.
    + eapply Forall2_impl_Forall; [exact Habove | exact Hdone|].
      intros kv kt Hkv Hread. by apply reads_alter_below.
    + done.
    + unfold Sanitizer.sanitize_entry. rewrite Hsens. split; [done | apply reify_prim].
  - unfold load. rewrite Hs. simpl. rewrite assoc_app_notin by done. simpl.
    rewrite String.eqb_refl.
    destruct v0 as [p|r].
    + (* a primitive is left as copied *)
      apply (Hnext _ (HPrim p)); try done.
      * by rewrite <- app_assoc.
      * unfold Sanitizer.sanitize_entry. rewrite Hsens.
        rewrite reify_prim in Hv0. injection Hv0 as <-.
        destruct p; (split; [done | apply reify_prim]).
    + (* a nested object is replaced by its sanitized copy *)
      destruct (sanitize_m hc r t0 Hwf (reify_prefix _ _ _ _ _ Hpre Hv0))
        as (hc' & -> & Hpre' & Hcl' & Hwf' & Hread').
      assert (hc' !! s = Some (done ++ (k0, HRef r) :: rest)) as Hs'.
      { by rewrite <- (prefix_lookup_lt _ _ _ Hslt Hpre'). }
      assert (closed_from (S s) hc') as Hcl2.
      { eapply closed_from_extend; [done | lia | done | done]. }
      apply (Hnext _ (HRef (length hc))).
      * apply prefix_alter_ge; [by etrans | unfold s; lia].
      * by eapply heap_wf_store.
      * apply closed_from_store; [lia | done].
      * unfold store. by rewrite list_lookup_alter_eq, Hs', <- Hset.
      * eapply Forall2_impl_Forall; [exact Habove | exact Hdone|].
        intros kv kt Hkv Hread.
        apply reads_alter_below; [done | done | by eapply reads_prefix].
      * lia.
      * destruct (reify_ref_is_object _ _ _ _ Hv0) as [kvs ->].
        unfold Sanitizer.sanitize_entry. rewrite Hsens. split; [done|]. simpl.
        unfold store. rewrite reify_alter_below; [done | done | lia].
Qed.
End Loop.

End HeapSanitizer.

Section HeapSanitizerMain.
Import SanitizerHeap.

Lemma sanitizeData_heap_spec n : forall (h : heap) (data : loc) (t : JsVal),
  heap_wf h -> reify n h (HRef data) = Some t ->
  exists h', sanitizeData n data h = Some (length h, h') /\
             h `prefix_of` h' /\ closed_from (length h) h' /\ heap_wf h' /\
             reify n h' (HRef (length h)) = Some (Sanitizer.sanitizeData t).
Proof.
  induction n as [|m IH]; intros h data t Hwf Hre; [done|].
  simpl in Hre. destruct (h !! data) as [o|] eqn:Hd; [|done]. simpl in Hre.
  destruct (mapM _ o) as [kvs|] eqn:Hm; [|done]. injection Hre as <-.
  apply mapM_reads in Hm.
  destruct (forEach_sanitize_key m IH h o [] [] kvs (h ++ [o]))
    as (hc' & c' & Hloop & Hpre & Hs & Hwf' & Hcl & Hrefs & Hread).
  - by eapply heap_wf_lookup.
  - done.
  - constructor.
  - constructor.
  - by eexists.
  - by rewrite list_lookup_middle.
  - apply Forall_app. split; [done|]. constructor; [|constructor].
    by eapply heap_wf_lookup.
  - intros l o' Hl Hlook. apply lookup_lt_Some in Hlook.
    rewrite length_app in Hlook. simpl in Hlook. lia.
  - exists hc'. simpl. rewrite Hd. unfold alloc. rewrite Hloop.
    split; [done|]. split; [done|]. split; [|split; [done|]].
    + intros l o' Hl Hlook. destruct (decide (l = length h)) as [->|Hne].
      * assert (o' = c') as -> by congruence.
        eapply refs_above_mono; [|exact Hrefs]. lia.
      * eapply refs_above_mono; [|eapply (Hcl l); [lia|done]]. lia.
    + rewrite Hs. simpl. apply mapM_reads in Hread. by rewrite Hread.
Qed.

End HeapSanitizerMain.

(** C10: the sanitizer never writes to its argument.  For every store with
    well-formed objects and every finite input object, the call returns;
    afterwards every object that was in the store, the input and all it
    contains included, holds the bindings it held before and the input still
    reads back as the same tree; the result is a new object, every object
    reachable from it was allocated by this call, and it reads back as the
    value-level result for the input's tree. *)
Theorem sanitizeData_does_not_mutate
    (n : nat) (h : list (list (string * SanitizerHeap.HVal))) (data : nat)
    (t : JsVal) :
  SanitizerHeap.heap_wf h ->
  SanitizerHeap.reify n h (SanitizerHeap.HRef data) = Some t ->
  exists h',
    SanitizerHeap.sanitizeData n data h = Some (length h, h') /\
    (forall l o, h !! l = Some o -> h' !! l = Some o) /\
    SanitizerHeap.reify n h' (SanitizerHeap.HRef data) = Some t /\
    h !! length h = None /\
    (forall l o k r, length h <= l -> h' !! l = Some o ->
                     (k, SanitizerHeap.HRef r) ∈ o -> length h <= r) /\
    SanitizerHeap.reify n h' (SanitizerHeap.HRef (length h))
    = Some (Sanitizer.sanitizeData t).
Proof.
  intros Hwf Hre.
  destruct (sanitizeData_heap_spec n h data t Hwf Hre)
    as (h' & Hrun & Hpre & Hcl & _ & Hread).
  exists h'. split; [done|]. split; [|split; [|split; [|split; [|done]]]].
  - intros l o Hl. by eapply prefix_lookup_Some.
  - by eapply reify_prefix.
  - by apply lookup_ge_None.
  - intros l o k r Hl Hlook Hin.
    pose proof (Hcl l o Hl Hlook) as Hrefs.
    by apply (proj1 (Forall_forall _ _) Hrefs (k, SanitizerHeap.HRef r) Hin).
Qed.

Lemma sanitizeData_does_not_mutate_witness :
  SanitizerHeap.heap_wf SanitizerHeap.example_heap /\
  SanitizerHeap.reify 2 SanitizerHeap.example_heap (SanitizerHeap.HRef 0)
    = Some SanitizerHeap.example_payload /\
  exists h',
    SanitizerHeap.sanitizeData 2 0 SanitizerHeap.example_heap = Some (2, h') /\
    (forall l o, SanitizerHeap.example_heap !! l = Some o -> h' !! l = Some o).
Proof.
  assert (SanitizerHeap.heap_wf SanitizerHeap.example_heap) as Hwf.
  { unfold SanitizerHeap.heap_wf. eapply (bool_decide_unpack _). by vm_compute. }
  split; [exact Hwf|]. split; [reflexivity|].
  destruct (sanitizeData_does_not_mutate 2 SanitizerHeap.example_heap 0
              SanitizerHeap.example_payload Hwf eq_refl)
    as (h' & Hrun & Hframe & _).
  exists h'. split; [exact Hrun | exact Hframe].
Defined.

(** On the specification's example the store-level run reads back as the
    value-level result. *)
Example sanitizeData_heap_example :
  (SanitizerHeap.sanitizeData 2 0 SanitizerHeap.example_heap
     ≫= fun rh => SanitizerHeap.reify 2 rh.2 (SanitizerHeap.HRef rh.1))
  = Some (Sanitizer.sanitizeData SanitizerHeap.example_payload).
Proof. reflexivity. Qed.

(** ** Span bookkeeping *)

Lemma steps_refl w : steps w w [].
Proof. unfold steps. by rewrite app_nil_r. Qed.

Lemma steps_trans w1 w2 w3 evs1 evs2 :
  steps w1 w2 evs1 -> steps w2 w3 evs2 -> steps w1 w3 (evs1 ++ evs2).
Proof.
  unfold steps. intros (-> & ? & -> & -> & -> & -> & ->) (-> & ? & -> & -> & -> & -> & ->).
  rewrite app_assoc. repeat split; try done; lia.
Qed.

Lemma steps_fresh w : steps w (fresh w).2 [].
Proof. unfold steps. simpl. rewrite app_nil_r. repeat split; lia. Qed.

Lemma steps_emit w ev : steps w (emit_span ev w).2 [ev].
Proof. unfold steps. simpl. repeat split; lia. Qed.

Lemma call_span_steps span c w :
  has_method span (method_of c) = true ->
  call_span span c w = (Normal tt, (emit_span (Called span c) w).2).
Proof. intros H. unfold call_span. by rewrite H. Qed.

Lemma ends_of_app span evs1 evs2 :
  ends_of span (evs1 ++ evs2) = ends_of span evs1 + ends_of span evs2.
Proof. unfold ends_of. by rewrite filter_app, length_app. Qed.

Lemma runs_ret {A} (a : A) w : runs (ret a) w (Normal a) [].
Proof. eexists. split; [done | apply steps_refl]. Qed.

Lemma runs_bind {A B} (m : M A) (k : A -> M B) w a r evs1 evs2 :
  runs m w (Normal a) evs1 ->
  (forall w1, runs (k a) w1 r evs2) ->
  runs (bind m k) w r (evs1 ++ evs2).
Proof.
  intros (w1 & Hm & Hs1) Hk. destruct (Hk w1) as (w2 & Hk2 & Hs2).
  exists w2. unfold bind. rewrite Hm. split; [done | by eapply steps_trans].
Qed.

Lemma runs_eq {A} (m : M A) w r evs evs' :
  runs m w r evs -> evs = evs' -> runs m w r evs'.
Proof. by intros ? <-. Qed.

Lemma runs_fresh w : runs fresh w (Normal (w_next w)) [].
Proof. eexists. split; [done | apply steps_fresh]. Qed.

Lemma runs_emit ev w : runs (emit_span ev) w (Normal tt) [ev].
Proof. eexists. split; [done | apply steps_emit]. Qed.

Lemma runs_call span c w :
  has_method span (method_of c) = true ->
  runs (call_span span c) w (Normal tt) [Called span c].
Proof.
  intros H. eexists. rewrite call_span_steps by done.
  split; [done | apply steps_emit].
Qed.

Lemma runs_try_catch_normal {A} (m : M A) handler w a evs :
  runs m w (Normal a) evs -> runs (try_catch m handler) w (Normal a) evs.
Proof. intros (w' & Hm & Hs). exists w'. unfold try_catch. by rewrite Hm. Qed.

Lemma runs_when b (m : M unit) w evs :
  (b = true -> runs m w (Normal tt) evs) ->
  runs (when b m) w (Normal tt) (if b then evs else []).
Proof. destruct b; simpl; [auto | intros _; apply runs_ret]. Qed.

(** ** createSpan and endSpan *)

Section TracingFacts.
Import Tracing.
Context (rt : Runtime).

Lemma runs_attach span entry w :
  has_method span "setAttribute" = true ->
  runs (attach rt span entry) w (Normal tt) (map (Called span) (attach_call rt entry)).
Proof.
  intros Hm. destruct entry as [key value]. unfold attach, attach_call.
  destruct (is_nullish value); simpl; [apply runs_ret|].
  destruct (is_object value); simpl; [|by apply runs_call].
  unfold stringify. destruct (JSON_stringify rt value) as [text|]; simpl.
  - apply runs_try_catch_normal.
    apply (runs_bind _ _ _ text _ [] _ (runs_ret _ _)).
    intros w1. by apply runs_call.
  - destruct (runs_call span (SetAttribute key (JStr "[Object]")) (fresh w).2 Hm)
      as (w2 & Hw2 & Hs2).
    exists w2. split; [exact Hw2|].
    apply (steps_trans _ _ _ [] _ (steps_fresh w) Hs2).
Qed.

Lemma runs_attach_all span attributes w :
  has_method span "setAttribute" = true ->
  runs (attach_all rt span attributes) w (Normal tt)
       (map (Called span) (attach_calls rt attributes)).
Proof.
  intros Hm. unfold attach_all, attach_calls.
  destruct attributes as [attrs|]; simpl; [|apply runs_ret].
  revert w. induction attrs as [|entry attrs IH]; intros w; simpl; [apply runs_ret|].
  rewrite map_app. eapply runs_bind; [by apply runs_attach | done].
Qed.

Lemma runs_status (span : SpanVal) (success : bool) (error : option Thrown)
    (w : World) :
  has_noop_methods span ->
  runs (if success then call_span span (SetStatus OK JUndefined)
        else match error with
             | Some error =>
                 if thrown_truthy error then
                   call_span span (SetStatus ERROR (thrown_prop error "message")) ;;
                   call_span span (RecordException error) ;;
                   call_span span
                     (SetAttribute "error.type"
                        (if truthy (thrown_prop error "name")
                         then thrown_prop error "name" else JStr "Error")) ;;
                   call_span span
                     (SetAttribute "error.message" (thrown_prop error "message")) ;;
                   when (truthy (thrown_prop error "stack"))
                     (call_span span
                        (SetAttribute "error.stack" (thrown_prop error "stack")))
                 else call_span span (SetStatus ERROR (JStr "Unknown error"))
             | None => call_span span (SetStatus ERROR (JStr "Unknown error"))
             end)%js
       w (Normal tt) (map (Called span) (status_calls success error)).
Proof.
  intros Hall.
  assert (forall c, method_of c ∈ noop_methods ->
          forall w0, runs (call_span span c) w0 (Normal tt) [Called span c]) as Hcall.
  { intros c Hc w0. apply runs_call. by apply Hall. }
  unfold status_calls.
  destruct success; [apply Hcall; set_solver|].
  destruct error as [error|]; [|apply Hcall; set_solver].
  destruct (thrown_truthy error); [|apply Hcall; set_solver].
  rewrite map_app. simpl.
  eapply (runs_bind _ _ _ tt _ [_]); [apply Hcall; set_solver|]. intros w1.
  eapply (runs_bind _ _ _ tt _ [_]); [apply Hcall; set_solver|]. intros w2.
  eapply (runs_bind _ _ _ tt _ [_]); [apply Hcall; set_solver|]. intros w3.
  eapply (runs_bind _ _ _ tt _ [_]); [apply Hcall; set_solver|]. intros w4.
  destruct (truthy (thrown_prop error "stack")); simpl;
    [apply Hcall; set_solver | apply runs_ret].
Qed.

(** On a span that has the four methods it uses, [endSpan] returns and
    makes exactly the calls of [endSpan_calls], the last of them [end]. *)
Lemma runs_endSpan span success error attributes w :
  has_noop_methods span ->
  runs (endSpan rt (Some span) success error attributes) w (Normal tt)
       (map (Called span) (endSpan_calls rt success error attributes)).
Proof.
  intros Hall. unfold endSpan.
  rewrite !Hall by set_solver. simpl.
  apply runs_try_catch_normal. unfold endSpan_calls. rewrite !map_app.
  eapply runs_bind; [apply runs_attach_all; apply Hall; set_solver|]. intros w1.
  eapply (runs_bind _ _ _ tt _ [_]); [apply runs_call; apply Hall; set_solver|].
  intros w2.
  eapply runs_bind; [by apply runs_status|]. intros w3.
  apply runs_call. apply Hall. set_solver.
Qed.

Lemma ends_of_calls span (cs : list SpanCall) :
  ends_of span (map (Called span) cs) = length (filter is_End cs).
Proof.
  unfold ends_of. induction cs as [|c cs IH]; [done|]. simpl.
  rewrite !filter_cons. destruct c; simpl; try done.
  rewrite bool_decide_true by done. simpl. by rewrite IH.
Qed.

Lemma attach_calls_no_End attributes : filter is_End (attach_calls rt attributes) = [].
Proof.
  unfold attach_calls. induction (default [] attributes) as [|[key value] attrs IH];
    [done|].
  simpl. rewrite filter_app, IH, app_nil_r.
  destruct (is_nullish value); [done|]. by destruct (is_object value).
Qed.

Lemma status_calls_no_End success error : filter is_End (status_calls success error) = [].
Proof.
  unfold status_calls. destruct success; [done|].
  destruct error as [error|]; [|done].
  destruct (thrown_truthy error); [|done].
  by destruct (truthy (thrown_prop error "stack")).
Qed.

Lemma endSpan_calls_one_End span success error attributes :
  ends_of span (map (Called span) (endSpan_calls rt success error attributes)) = 1.
Proof.
  rewrite ends_of_calls. unfold endSpan_calls.
  by rewrite !filter_app, attach_calls_no_End, status_calls_no_End.
Qed.

Lemma has_noop_methods_stub id : has_noop_methods (StubObj id noop_methods).
Proof. intros m Hm. simpl. by apply bool_decide_eq_true. Qed.

Lemma createSpan_disabled config name attributes kind links w :
  enabled config = false ->
  createSpan rt config name attributes kind links w
  = (Normal (StubObj (w_next w) noop_methods), (fresh w).2).
Proof. intros H. unfold createSpan. by rewrite H. Qed.

Lemma createSpan_fault config name attributes kind links w ename emsg :
  enabled config = true -> tracer_registered rt = true ->
  startSpan_fault rt name = Some (ename, emsg) ->
  createSpan rt config name attributes kind links w
  = (Normal (StubObj (S (w_next w)) noop_methods), (fresh (fresh w).2).2).
Proof.
  intros He Hr Hf. unfold createSpan, try_catch, bind, api_startSpan, sdk_startSpan.
  by rewrite He, Hr, Hf.
Qed.

Lemma createSpan_recording config name attributes kind links w :
  enabled config = true -> tracer_registered rt = true ->
  startSpan_fault rt name = None ->
  runs (createSpan rt config name attributes kind links) w
       (Normal (SdkSpan (w_next w)))
       (Started (w_next w) name kind links
          (spread [("service.name", serviceName config);
                   ("service.version", serviceVersion config);
                   ("environment", environment config)]
                  (default [] attributes))
        :: map (Called (SdkSpan (w_next w))) (attach_calls rt attributes)).
Proof.
  intros He Hr Hf. unfold createSpan. rewrite He. simpl.
  apply runs_try_catch_normal.
  unfold api_startSpan, sdk_startSpan. rewrite Hr, Hf.
  eapply runs_eq.
  { eapply runs_bind.
    - eapply runs_bind; [apply runs_fresh|]. intros w1.
      eapply runs_bind; [apply runs_emit|]. intros w2. apply runs_ret.
    - intros w1. eapply runs_bind; [by apply runs_attach_all|].
      intros w2. apply runs_ret. }
  simpl. by rewrite app_nil_r.
Qed.

Lemma createSpan_unregistered config name attributes kind links w :
  enabled config = true -> tracer_registered rt = false ->
  runs (createSpan rt config name attributes kind links) w
       (Normal (NonRecordingSpan (w_next w)))
       (map (Called (NonRecordingSpan (w_next w))) (attach_calls rt attributes)).
Proof.
  intros He Hr. unfold createSpan. rewrite He. simpl.
  apply runs_try_catch_normal. unfold api_startSpan. rewrite Hr.
  eapply runs_eq.
  { eapply runs_bind.
    - eapply runs_bind; [apply runs_fresh|]. intros w1. apply runs_ret.
    - intros w1. eapply runs_bind; [by apply runs_attach_all|].
      intros w2. apply runs_ret. }
  simpl. by rewrite app_nil_r.
Qed.

(** [createSpan] always returns, with an object that has the four methods
    [endSpan] uses, and has not called [end] on it. *)
Lemma createSpan_total config name attributes kind links w :
  exists span pre,
    runs (createSpan rt config name attributes kind links) w (Normal span) pre /\
    has_noop_methods span /\ ends_of span pre = 0.
Proof.
  destruct (enabled config) eqn:He.
  - destruct (tracer_registered rt) eqn:Hr.
    + destruct (startSpan_fault rt name) as [[ename emsg]|] eqn:Hf.
      * exists (StubObj (S (w_next w)) noop_methods), [].
        split; [|split; [apply has_noop_methods_stub | done]].
        eexists. split; [by eapply createSpan_fault|].
        apply (steps_trans _ _ _ [] [] (steps_fresh w) (steps_fresh _)).
      * eexists _, _. split; [by apply createSpan_recording|].
        split; [done|].
        change (ends_of (SdkSpan (w_next w))
                  (map (Called (SdkSpan (w_next w))) (attach_calls rt attributes)) = 0).
        by rewrite ends_of_calls, attach_calls_no_End.
    + eexists _, _. split; [by apply createSpan_unregistered|].
      split; [done|]. by rewrite ends_of_calls, attach_calls_no_End.
  - exists (StubObj (w_next w) noop_methods), [].
    split; [|split; [apply has_noop_methods_stub | done]].
    eexists. split; [by apply createSpan_disabled | apply steps_fresh].
Qed.

End TracingFacts.

(** ** trace *)

Lemma endSpan_once rt span success error attributes w :
  Tracing.has_noop_methods span ->
  exists w', Tracing.endSpan rt (Some span) success error attributes w = (Normal tt, w')
             /\ ended_once_between span w w'.
Proof.
  intros Hall.
  destruct (runs_endSpan rt span success error attributes w Hall) as (w' & Hrun & Hs).
  exists w'. split; [done|]. eexists. split; [apply Hs|].
  apply endSpan_calls_one_End.
Qed.

Lemma trace_unfold {T : Type} (rt : Runtime) (config : Tracing.TracingConfig)
    (name : string) (fn : SpanVal -> World -> Settled T * World)
    (options : Tracing.TraceOptions T) (w w1 : World) (span : SpanVal) :
  Tracing.createSpan rt config name (Tracing.opt_attributes options)
    (Tracing.opt_kind options) (Tracing.opt_links options) w = (Normal span, w1) ->
  let handler := fun error : Thrown =>
    (Tracing.endSpan rt (Some span) false (Some error) None ;; @throw T error)%js in
  let finish := fun (v : T) (attrs : option Props) =>
    try_catch (Tracing.endSpan rt (Some span) true None attrs ;; ret v)%js handler in
  Tracing.trace rt config name fn options w =
    match fn span w1 with
    | (Returns v, w2) | (Resolves v, w2) =>
        match Tracing.opt_resultAttributes options with
        | None => finish v None w2
        | Some extract =>
            match extract v w2 with
            | (Normal attrs, w2') => finish v (Some attrs) w2'
            | (Throw e, w2') => handler e w2'
            end
        end
    | (Throws e, w2) | (Rejects e, w2) => handler e w2
    end.
Proof.
  intros Hcreate handler finish. unfold Tracing.trace, bind at 1. rewrite Hcreate.
  unfold finish, try_catch, bind, await.
  destruct (fn span w1) as [[v|e|v|e] w2]; try done;
    (destruct (Tracing.opt_resultAttributes options) as [extract|]; [|done]);
    by destruct (extract v w2) as [[attrs|e] w2'].
Qed.

(** C1: [trace] ends the span it created exactly once on every exit path.
    The span comes from [createSpan], which makes no [end] call; whatever the
    caller's function does and however it settles (plain return, fulfilled
    promise, throw, rejected promise), and likewise when the result-attribute
    extractor throws, the calls [trace] makes after the caller's code has
    handed back control hold exactly one [end] on that span; a value is
    handed on as is, and a thrown or rejected value is rethrown as is. *)
Theorem trace_ends_span_once {T : Type} (rt : Runtime)
    (config : Tracing.TracingConfig) (name : string)
    (fn : SpanVal -> World -> Settled T * World)
    (options : Tracing.TraceOptions T) (w : World) :
  exists span w1 pre,
    Tracing.createSpan rt config name (Tracing.opt_attributes options)
      (Tracing.opt_kind options) (Tracing.opt_links options) w = (Normal span, w1) /\
    w_spans w1 = w_spans w ++ pre /\ ends_of span pre = 0 /\
    match fn span w1 with
    | (Returns v, w2) | (Resolves v, w2) =>
        match Tracing.opt_resultAttributes options with
        | None =>
            exists w3, Tracing.trace rt config name fn options w = (Normal v, w3)
                       /\ ended_once_between span w2 w3
        | Some extract =>
            match extract v w2 with
            | (Normal _, w2') =>
                exists w3, Tracing.trace rt config name fn options w = (Normal v, w3)
                           /\ ended_once_between span w2' w3
            | (Throw e, w2') =>
                exists w3, Tracing.trace rt config name fn options w = (Throw e, w3)
                           /\ ended_once_between span w2' w3
            end
        end
    | (Throws e, w2) | (Rejects e, w2) =>
        exists w3, Tracing.trace rt config name fn options w = (Throw e, w3)
                   /\ ended_once_between span w2 w3
    end.
Proof.
  destruct (createSpan_total rt config name (Tracing.opt_attributes options)
              (Tracing.opt_kind options) (Tracing.opt_links options) w)
    as (span & pre & (w1 & Hcreate & Hsteps) & Hall & Hpre).
  exists span, w1, pre. split; [done|]. split; [apply Hsteps|]. split; [done|].
  rewrite (trace_unfold rt config name fn options w w1 span Hcreate).
  assert (forall e w2,
    exists w3, (Tracing.endSpan rt (Some span) false (Some e) None;; @throw T e)%js w2
               = (Throw e, w3) /\ ended_once_between span w2 w3) as Hfail.
  { intros e w2. destruct (endSpan_once rt span false (Some e) None w2 Hall)
      as (w3 & Hend & Honce).
    exists w3. unfold bind. by rewrite Hend. }
  assert (forall (v : T) attrs handler w2,
    exists w3, try_catch (Tracing.endSpan rt (Some span) true None attrs;; ret v)%js
                 handler w2
               = (Normal v, w3) /\ ended_once_between span w2 w3) as Hok.
  { intros v attrs handler w2.
    destruct (endSpan_once rt span true None attrs w2 Hall) as (w3 & Hend & Honce).
    exists w3. unfold try_catch, bind. by rewrite Hend. }
  destruct (fn span w1) as [[v|e|v|e] w2].
  - destruct (Tracing.opt_resultAttributes options) as [extract|]; [|apply Hok].
    destruct (extract v w2) as [[attrs|e] w2']; [apply Hok | apply Hfail].
  - apply Hfail.
  - destruct (Tracing.opt_resultAttributes options) as [extract|]; [|apply Hok].
    destruct (extract v w2) as [[attrs|e] w2']; [apply Hok | apply Hfail].
  - apply Hfail.
Qed.

(** ** endSpan *)

(** A missing span, or one without [setAttribute], [setStatus] or [end],
    makes [endSpan] return at once. *)
Lemma endSpan_ignores_foreign rt span success error attributes w :
  match span with
  | None => True
  | Some s => has_method s "setAttribute" && has_method s "setStatus"
              && has_method s "end" = false
  end ->
  Tracing.endSpan rt span success error attributes w = (Normal tt, w).
Proof.
  destruct span as [s|]; [|done]. intros H. unfold Tracing.endSpan. by rewrite H.
Qed.

(** C3 (code defect): the guard of [endSpan] checks three methods while the
    error branch also calls [recordException].  On any span object that has
    the three but not the fourth, a failed operation with an error attaches
    the attributes and sets the ERROR status, then the call of the missing
    method throws inside the [try], the [catch] absorbs it, and [end] is
    never called. *)
Theorem endSpan_skips_end_without_recordException (rt : Runtime) (span : SpanVal)
    (error : Thrown) (attributes : option Props) (w : World) :
  has_method span "setAttribute" = true ->
  has_method span "setStatus" = true ->
  has_method span "end" = true ->
  has_method span "recordException" = false ->
  thrown_truthy error = true ->
  let calls := Tracing.attach_calls rt attributes
               ++ [SetAttribute "operation.success" (JBool false);
                   SetStatus ERROR (thrown_prop error "message")] in
  exists w',
    Tracing.endSpan rt (Some span) false (Some error) attributes w = (Normal tt, w') /\
    w_spans w' = w_spans w ++ map (Called span) calls /\
    ends_of span (map (Called span) calls) = 0.
Proof.
  intros Hset Hstatus Hend Hrec Htruthy calls.
  destruct (runs_attach_all rt span attributes w Hset) as (w1 & Hw1 & Hs1).
  eexists. split; [|split].
  - unfold Tracing.endSpan. rewrite Hset, Hstatus, Hend, Htruthy. simpl.
    unfold try_catch, bind at 1. rewrite Hw1.
    unfold bind at 1. rewrite (call_span_steps span _ w1) by done.
    unfold bind at 1, bind at 1. rewrite (call_span_steps span (SetStatus _ _)) by done.
    unfold bind at 1. unfold call_span at 1.
    change (method_of (RecordException error)) with "recordException".
    rewrite Hrec. reflexivity.
  - simpl. destruct Hs1 as (-> & _). unfold calls.
    by rewrite map_app, <- !app_assoc.
  - unfold calls. rewrite ends_of_calls, filter_app, attach_calls_no_End. done.
Qed.

Lemma endSpan_skips_end_without_recordException_witness :
  has_method Sample.span_double "setAttribute" = true /\
  has_method Sample.span_double "setStatus" = true /\
  has_method Sample.span_double "end" = true /\
  has_method Sample.span_double "recordException" = false /\
  thrown_truthy Sample.boom = true /\
  exists w',
    Tracing.endSpan Sample.runtime (Some Sample.span_double) false
      (Some Sample.boom) None (Sample.world_at 1) = (Normal tt, w') /\
    w_spans w'
    = [Called Sample.span_double (SetAttribute "operation.success" (JBool false));
       Called Sample.span_double (SetStatus ERROR (JStr "boom"))].
Proof.
  repeat (split; [reflexivity|]).
  destruct (endSpan_skips_end_without_recordException Sample.runtime
              Sample.span_double Sample.boom None (Sample.world_at 1)
              eq_refl eq_refl eq_refl eq_refl eq_refl)
    as (w' & Hrun & Hspans & _).
  exists w'. split; [exact Hrun | exact Hspans].
Defined.

(** With [recordException] present as well, the same call ends the span. *)
Example endSpan_ends_noop_span :
  ends_of (StubObj 0 Tracing.noop_methods)
    (w_spans (Tracing.endSpan Sample.runtime (Some (StubObj 0 Tracing.noop_methods))
                false (Some Sample.boom) None (Sample.world_at 1)).2) = 1.
Proof. reflexivity. Qed.

(** ** createSpan *)

(** C6 (as stated) fails on the methods the no-op object does not carry:
    with tracing off, [addEvent] on the span returned by [createSpan] is a
    [TypeError]. *)
Lemma createSpan_noop_lacks_addEvent :
  exists span w',
    Tracing.createSpan Sample.runtime Sample.tracing_off "op" None None None
      (Sample.world false) = (Normal span, w') /\
    call_span span (AddEvent "visited" None) w'
    = (Throw (ErrorObj 1 "TypeError" "span.addEvent is not a function"
                "TypeError: span.addEvent is not a function"),
       (fresh w').2).
Proof. eexists _, _. split; reflexivity. Qed.

Lemma sdk_view_app evs1 evs2 : sdk_view (evs1 ++ evs2) = sdk_view evs1 ++ sdk_view evs2.
Proof. unfold sdk_view. apply filter_app. Qed.

(** C6 (amended): [createSpan] never throws.  With tracing off it returns
    the no-op object and leaves the span events as they were; when
    [startSpan] raises it does the same; each of the four methods the no-op
    object carries ([setAttribute], [setStatus], [recordException], [end])
    returns normally and changes nothing the SDK or the rest of the process
    can see; and on the working path an attribute whose value is an object is
    attached as its JSON text, or as "[Object]" when serializing throws. *)
Theorem createSpan_never_throws (rt : Runtime) (config : Tracing.TracingConfig)
    (name : string) (attributes : option Props) (kind : option SpanKind)
    (links : option (list JsVal)) (w : World) :
  (exists span w',
     Tracing.createSpan rt config name attributes kind links w = (Normal span, w')) /\
  (Tracing.enabled config = false ->
   exists w', Tracing.createSpan rt config name attributes kind links w
              = (Normal (StubObj (w_next w) Tracing.noop_methods), w')
              /\ w_spans w' = w_spans w) /\
  (forall ename emsg,
   Tracing.enabled config = true -> tracer_registered rt = true ->
   startSpan_fault rt name = Some (ename, emsg) ->
   exists w', Tracing.createSpan rt config name attributes kind links w
              = (Normal (StubObj (S (w_next w)) Tracing.noop_methods), w')
              /\ w_spans w' = w_spans w) /\
  (forall id c w0,
   method_of c ∈ Tracing.noop_methods ->
   exists w0', call_span (StubObj id Tracing.noop_methods) c w0 = (Normal tt, w0') /\
               sdk_view (w_spans w0') = sdk_view (w_spans w0) /\
               w_active w0' = w_active w0 /\ w_metrics w0' = w_metrics w0 /\
               w_meter w0' = w_meter w0) /\
  (Tracing.enabled config = true -> tracer_registered rt = true ->
   startSpan_fault rt name = None ->
   runs (Tracing.createSpan rt config name attributes kind links) w
        (Normal (SdkSpan (w_next w)))
        (Started (w_next w) name kind links
           (spread [("service.name", Tracing.serviceName config);
                    ("service.version", Tracing.serviceVersion config);
                    ("environment", Tracing.environment config)]
                   (default [] attributes))
         :: map (Called (SdkSpan (w_next w)))
              (flat_map (Tracing.attach_call rt) (default [] attributes)))) /\
  (forall key value,
   is_object value = true ->
   Tracing.attach_call rt (key, value)
   = [SetAttribute key
        (JStr match JSON_stringify rt value with
              | Some text => text
              | None => "[Object]"
              end)]).
Proof.
  split; [|split; [|split; [|split; [|split]]]].
  - destruct (createSpan_total rt config name attributes kind links w)
      as (span & pre & (w' & Hrun & _) & _). by exists span, w'.
  - intros He. eexists. split; [by apply createSpan_disabled | done].
  - intros ename emsg He Hr Hf. eexists. split; [by eapply createSpan_fault | done].
  - intros id c w0 Hc.
    exists (emit_span (Called (StubObj id Tracing.noop_methods) c) w0).2.
    split; [apply call_span_steps; simpl; by apply bool_decide_eq_true|].
    simpl. by rewrite sdk_view_app, app_nil_r.
  - apply createSpan_recording.
  - intros key value Hobj. unfold Tracing.attach_call. rewrite Hobj.
    destruct value; try done.
Qed.

Lemma createSpan_never_throws_witness :
  Tracing.enabled Sample.tracing_off = false /\
  Tracing.enabled Sample.tracing_on = true /\
  startSpan_fault Sample.runtime_faulty "op" = Some ("Error", "exporter unavailable") /\
  startSpan_fault Sample.runtime_cyclic "op" = None /\
  method_of End ∈ Tracing.noop_methods /\
  is_object (JObj [("a", JNum 1)]) = true /\
  (exists w', Tracing.createSpan Sample.runtime Sample.tracing_off "op" None None None
                (Sample.world false)
              = (Normal (StubObj 0 Tracing.noop_methods), w') /\ w_spans w' = []) /\
  (exists w', Tracing.createSpan Sample.runtime_faulty Sample.tracing_on "op" None None
                None (Sample.world false)
              = (Normal (StubObj 1 Tracing.noop_methods), w') /\ w_spans w' = []) /\
  runs (Tracing.createSpan Sample.runtime_cyclic Sample.tracing_on "op"
          (Some [("a", JObj [("a", JNum 1)])]) None None) (Sample.world false)
       (Normal (SdkSpan 0))
       [Started 0 "op" None None
          [("service.name", JStr "svc"); ("service.version", JStr "1.0.0");
           ("environment", JStr "test"); ("a", JObj [("a", JNum 1)])];
        Called (SdkSpan 0) (SetAttribute "a" (JStr "[Object]"))].
Proof.
  assert (method_of End ∈ Tracing.noop_methods) as Hend
    by (eapply (bool_decide_unpack _); by vm_compute).
  repeat (split; [first [reflexivity | exact Hend]|]).
  split; [|split].
  - exact (proj1 (proj2 (createSpan_never_throws Sample.runtime Sample.tracing_off
                           "op" None None None (Sample.world false))) eq_refl).
  - exact (proj1 (proj2 (proj2 (createSpan_never_throws Sample.runtime_faulty
                                  Sample.tracing_on "op" None None None
                                  (Sample.world false)))) _ _ eq_refl eq_refl eq_refl).
  - exact (proj1 (proj2 (proj2 (proj2 (proj2
             (createSpan_never_throws Sample.runtime_cyclic Sample.tracing_on "op"
                (Some [("a", JObj [("a", JNum 1)])]) None None (Sample.world false))))))
             eq_refl eq_refl eq_refl).
Defined.

(** ** traceWithActiveSpan *)

(** With tracing off the function is called on a new empty object, in the
    ambient context as it is, and its outcome is the outcome of the call. *)
Lemma traceWithActiveSpan_disabled {T} rt config name
    (fn : SpanVal -> World -> Settled T * World) attributes w :
  Tracing.enabled config = false ->
  Tracing.traceWithActiveSpan rt config name fn attributes w
  = await (fn (StubObj (w_next w) [])) (fresh w).2.
Proof. intros H. unfold Tracing.traceWithActiveSpan. by rewrite H. Qed.

(** C2 (code defect): with tracing off [traceWithActiveSpan] hands the
    caller's function the empty object [{}], not the no-op span that
    [createSpan] builds.  Whatever span method the function calls first, the
    call is a [TypeError], which reaches the caller as the rejection of the
    returned promise. *)
Theorem traceWithActiveSpan_disabled_passes_empty_object (rt : Runtime)
    (config : Tracing.TracingConfig) (name : string) (attributes : option Props)
    (c : SpanCall) (w : World) :
  Tracing.enabled config = false ->
  Tracing.traceWithActiveSpan rt config name
    (fun span => sync (call_span span c ;; ret JUndefined)) attributes w
  = (Throw (ErrorObj (S (w_next w)) "TypeError"
              ("span." +:+ method_of c +:+ " is not a function")
              ("TypeError: " +:+ "span." +:+ method_of c +:+ " is not a function")),
     (fresh (fresh w).2).2).
Proof.
  intros Hoff. by rewrite traceWithActiveSpan_disabled.
Qed.

Lemma traceWithActiveSpan_disabled_passes_empty_object_witness :
  Tracing.enabled Sample.tracing_off = false /\
  Tracing.traceWithActiveSpan Sample.runtime Sample.tracing_off "op"
    Sample.fn_setAttribute None (Sample.world false)
  = (Throw (ErrorObj 1 "TypeError" "span.setAttribute is not a function"
              "TypeError: span.setAttribute is not a function"),
     Sample.world_at 2).
Proof.
  split; [reflexivity|].
  exact (traceWithActiveSpan_disabled_passes_empty_object Sample.runtime
           Sample.tracing_off "op" None (SetAttribute "k" (JStr "v"))
           (Sample.world false) eq_refl).
Defined.

(** [trace], which goes through [createSpan], runs the same function to its
    end under the same configuration. *)
Example trace_disabled_runs_callback :
  (Tracing.trace Sample.runtime Sample.tracing_off "op" Sample.fn_setAttribute
     {| Tracing.opt_attributes := None; Tracing.opt_kind := None;
        Tracing.opt_links := None; Tracing.opt_resultAttributes := None |}
     (Sample.world false)).1
  = Normal JUndefined.
Proof. reflexivity. Qed.

(** ** The instrument registry *)

Section MetricsFacts.
Import Metrics.
Context (options : MetricsOptions).

Lemma getMetricKey_prefix name :
  getMetricKey options name = or_else (prefix options) "" +:+ name.
Proof.
  unfold getMetricKey. by destruct (String.eqb_spec (or_else (prefix options) "") "") as [->|].
Qed.

(** The three outcomes of an accessor call. *)
Lemma accessor_uninitialized kind name callback opts w :
  initialized (w_metrics w) = false ->
  accessor options kind name callback opts w
  = (Normal (StubInstrument (w_next w) (stub_methods kind)), (fresh w).2).
Proof.
  intros H. destruct kind; simpl;
    unfold getCounter, getHistogram, getUpDownCounter, getObservableGauge, bind, get_world;
    by rewrite H.
Qed.

Lemma accessor_cached kind name callback opts w i :
  initialized (w_metrics w) = true ->
  cache kind (w_metrics w) !! getMetricKey options name = Some i ->
  accessor options kind name callback opts w = (Normal i, w).
Proof.
  intros H Hi. destruct kind; simpl in *;
    unfold getCounter, getHistogram, getUpDownCounter, getObservableGauge, bind, get_world;
    by rewrite H, Hi.
Qed.

Lemma accessor_absent kind name callback opts w :
  initialized (w_metrics w) = true ->
  cache kind (w_metrics w) !! getMetricKey options name = None ->
  accessor options kind name callback opts w
  = (Normal (SdkInstrument kind (w_next w)),
     after_creation kind (getMetricKey options name)
       (or_else (opts ≫= description) (default_description kind name))
       (or_else (opts ≫= unit_) (default_unit kind)) callback w).
Proof.
  intros H Hi. destruct kind; simpl in *;
    unfold getCounter, getHistogram, getUpDownCounter, getObservableGauge, bind, get_world;
    rewrite H, Hi; simpl; unfold after_creation; simpl; by rewrite <- ?app_assoc.
Qed.

Lemma cache_with_cache k kind m ms :
  cache k (with_cache kind m ms) = if decide (k = kind) then m else cache k ms.
Proof. by destruct k, kind. Qed.

Lemma initialized_with_cache kind m ms :
  initialized (with_cache kind m ms) = initialized ms.
Proof. by destruct kind. Qed.

Lemma created_app kind key log1 log2 :
  created kind key (log1 ++ log2) = created kind key log1 ++ created kind key log2.
Proof. unfold created. apply flat_map_app. Qed.

Lemma observe_app gauge log1 log2 :
  observe gauge (log1 ++ log2) = observe gauge log1 ++ observe gauge log2.
Proof. unfold observe. apply flat_map_app. Qed.

(** Nothing was registered yet on an instrument whose identity has not been
    handed out. *)
Lemma observe_unborn gauge log bound :
  (forall ev, ev ∈ log -> event_id ev < bound) -> bound <= instrument_id gauge ->
  observe gauge log = [].
Proof.
  intros Hlog Hg. unfold observe. induction log as [|ev log IH]; [done|].
  simpl. rewrite IH by (intros ev' Hev'; apply Hlog; by right).
  destruct ev as [| target callback |]; try done.
  rewrite bool_decide_false; [done|]. intros ->.
  specialize (Hlog (CallbackAdded gauge callback)). simpl in Hlog.
  assert (instrument_id gauge < bound) by (apply Hlog; left). lia.
Qed.

Lemma creation_events kind key description unit_ callback w k key' :
  created k key' (w_meter (after_creation kind key description unit_ callback w))
  = created k key' (w_meter w)
    ++ (if bool_decide (kind = k /\ key = key') then [w_next w] else []).
Proof.
  unfold after_creation. simpl. rewrite created_app. f_equal.
  change (created k key' (Created kind (w_next w) key description unit_ :: ?l))
    with ((if bool_decide (kind = k /\ key = key') then [w_next w] else [])
          ++ created k key' l).
  assert (created k key' match kind with
                         | ObservableGauge =>
                             [CallbackAdded (SdkInstrument kind (w_next w)) callback]
                         | _ => []
                         end = []) as -> by by destruct kind.
  by rewrite app_nil_r.
Qed.

Lemma registry_inv_after_creation kind key description unit_ callback w :
  registry_inv w -> cache kind (w_metrics w) !! key = None ->
  registry_inv (after_creation kind key description unit_ callback w).
Proof.
  intros [Hcache Hids] Hnone. split.
  - intros k key'. rewrite creation_events.
    unfold after_creation at 1. simpl. rewrite cache_with_cache.
    specialize (Hcache k key').
    destruct (decide (k = kind)) as [->|Hk].
    + destruct (decide (key' = key)) as [->|Hkey].
      * rewrite lookup_insert_eq, bool_decide_true by done.
        rewrite Hnone in Hcache. rewrite Hcache. by eexists.
      * rewrite lookup_insert_ne by done.
        rewrite bool_decide_false by (intros [_ ->]; done).
        by rewrite app_nil_r.
    + rewrite bool_decide_false by (intros [-> _]; done). by rewrite app_nil_r.
  - intros ev. unfold after_creation. simpl.
    rewrite elem_of_app, elem_of_cons. intros [Hold|[->|Hnew]].
    + specialize (Hids ev Hold). lia.
    + simpl. lia.
    + destruct kind; try by apply elem_of_nil in Hnew.
      apply list_elem_of_singleton in Hnew as ->. simpl. lia.
Qed.

Lemma registry_inv_fresh w : registry_inv w -> registry_inv (fresh w).2.
Proof.
  intros [Hcache Hids]. split; [done|].
  intros ev Hev. specialize (Hids ev Hev). simpl. lia.
Qed.

(** What any accessor call does to the registry. *)
Lemma accessor_registers kind name callback opts w :
  initialized (w_metrics w) = true ->
  exists i w',
    accessor options kind name callback opts w = (Normal i, w') /\
    cache kind (w_metrics w') !! getMetricKey options name = Some i.
Proof.
  intros Hinit.
  destruct (cache kind (w_metrics w) !! getMetricKey options name) as [i|] eqn:Hi.
  - exists i, w. by rewrite (accessor_cached _ _ _ _ _ _ Hinit Hi).
  - eexists _, _. split; [by apply accessor_absent|].
    unfold after_creation. simpl. by rewrite cache_with_cache, decide_True, lookup_insert_eq.
Qed.

Lemma accessor_effect kind name callback opts w :
  exists i w',
    accessor options kind name callback opts w = (Normal i, w') /\
    (registry_inv w -> registry_inv w') /\
    initialized (w_metrics w') = initialized (w_metrics w) /\
    (forall k key j, cache k (w_metrics w) !! key = Some j ->
                     cache k (w_metrics w') !! key = Some j) /\
    (forall gauge, instrument_id gauge < w_next w ->
                   observe gauge (w_meter w') = observe gauge (w_meter w)) /\
    w_next w <= w_next w'.
Proof.
  destruct (initialized (w_metrics w)) eqn:Hinit.
  - destruct (cache kind (w_metrics w) !! getMetricKey options name) as [i|] eqn:Hi.
    + exists i, w. by rewrite (accessor_cached _ _ _ _ _ _ Hinit Hi).
    + eexists _, _. split; [by apply accessor_absent|].
      split; [intros Hinv; by apply registry_inv_after_creation|].
      split; [unfold after_creation; simpl; by rewrite initialized_with_cache|].
      split; [|split; [|simpl; lia]].
      * intros k key j Hj. unfold after_creation. simpl. rewrite cache_with_cache.
        destruct (decide (k = kind)) as [->|]; [|done].
        rewrite lookup_insert_ne; [done|]. intros <-. congruence.
      * intros gauge Hg. unfold after_creation. simpl.
        rewrite observe_app. simpl.
        destruct kind; simpl; try by rewrite app_nil_r.
        rewrite bool_decide_false; [by rewrite app_nil_r|].
        intros <-. simpl in Hg. lia.
  - eexists _, _. split; [by apply accessor_uninitialized|].
    split; [apply registry_inv_fresh|]. repeat split; try done. simpl. lia.
Qed.

End MetricsFacts.

Section RegistryLifetime.
Import Metrics Observability.
Context (options : MetricsOptions).

Lemma run_call_effect c w :
  exists w',
    run_call options c w = (Normal tt, w') /\
    (registry_inv w -> registry_inv w') /\
    initialized (w_metrics w') = initialized (w_metrics w) /\
    (forall k key j, cache k (w_metrics w) !! key = Some j ->
                     cache k (w_metrics w') !! key = Some j) /\
    (forall gauge, instrument_id gauge < w_next w ->
                   observe gauge (w_meter w') = observe gauge (w_meter w)) /\
    w_next w <= w_next w'.
Proof.
  destruct c as [kind name callback opts | name value attributes]; simpl.
  - destruct (accessor_effect options kind name callback opts w) as (i & w' & Hrun & H).
    exists w'. unfold bind. by rewrite Hrun.
  - destruct (accessor_effect options ObservableGauge name (fun _ => value) None w)
      as (i & w' & Hrun & H).
    exists w'. unfold recordGaugeMetric, bind. simpl in Hrun. by rewrite Hrun.
Qed.

Lemma run_calls_effect cs : forall w,
  exists w',
    run_calls options cs w = (Normal tt, w') /\
    (registry_inv w -> registry_inv w') /\
    initialized (w_metrics w') = initialized (w_metrics w) /\
    (forall k key j, cache k (w_metrics w) !! key = Some j ->
                     cache k (w_metrics w') !! key = Some j) /\
    (forall gauge, instrument_id gauge < w_next w ->
                   observe gauge (w_meter w') = observe gauge (w_meter w)) /\
    w_next w <= w_next w'.
Proof.
  induction cs as [|c cs IH]; intros w.
  - exists w. done.
  - destruct (run_call_effect c w) as (w1 & Hc & Hinv1 & Hinit1 & Hmono1 & Hobs1 & Hle1).
    destruct (IH w1) as (w2 & Hcs & Hinv2 & Hinit2 & Hmono2 & Hobs2 & Hle2).
    exists w2. unfold run_calls in *. simpl. unfold bind at 1. rewrite Hc.
    split; [done|]. split; [auto|]. split; [congruence|]. split; [auto|].
    split; [|lia].
    intros gauge Hg. rewrite Hobs2, Hobs1; [done..|lia].
Qed.

End RegistryLifetime.

Lemma registry_inv_start b : Metrics.registry_inv (Sample.world b).
Proof.
  split.
  - intros kind key. by destruct kind.
  - intros ev Hev. by apply elem_of_nil in Hev.
Qed.

(** C7 (as stated) fails while the registry is uninitialized: each call
    builds a new object literal, so two lookups of one name give two
    different handles, and nothing is registered. *)
Lemma getCounter_uninitialized_not_identical :
  exists c1 w1 c2 w2,
    Metrics.getCounter Sample.metrics_options "x" None (Sample.world false)
    = (Normal c1, w1) /\
    Metrics.getCounter Sample.metrics_options "x" None w1 = (Normal c2, w2) /\
    c1 <> c2 /\ counters (w_metrics w2) = ∅.
Proof. eexists _, _, _, _. repeat split; try reflexivity. discriminate. Qed.

(** C7 (amended): once the registry is initialized, for every kind of
    instrument and every logical name, a lookup ([getCounter],
    [getHistogram], [getUpDownCounter] or [getObservableGauge], by [kind])
    returns a meter instrument; a second lookup returns the very same handle
    and changes nothing; the handle is cached under the prefix, empty by
    default, followed by the name, and is the only instrument of its kind the
    meter created under that key; and after any further calls on the registry
    the lookup still returns that handle, while no kind and key ever has more
    than one instrument. *)
Theorem accessor_idempotent (options : Metrics.MetricsOptions)
    (kind : InstrumentKind) (name : string) (cb1 cb2 : unit -> Z)
    (opts1 opts2 : option Metrics.InstrumentOptions) (w : World) :
  initialized (w_metrics w) = true -> Metrics.registry_inv w ->
  exists id w1,
    Metrics.accessor options kind name cb1 opts1 w
    = (Normal (SdkInstrument kind id), w1) /\
    Metrics.accessor options kind name cb2 opts2 w1
    = (Normal (SdkInstrument kind id), w1) /\
    Metrics.cache kind (w_metrics w1)
      !! (Metrics.or_else (Metrics.prefix options) "" +:+ name)
    = Some (SdkInstrument kind id) /\
    Metrics.created kind (Metrics.or_else (Metrics.prefix options) "" +:+ name)
      (w_meter w1) = [id] /\
    forall cs,
      exists w2,
        Observability.run_calls options cs w1 = (Normal tt, w2) /\
        (Metrics.accessor options kind name cb2 opts2 w2).1
        = Normal (SdkInstrument kind id) /\
        forall kind' key', length (Metrics.created kind' key' (w_meter w2)) <= 1.
Proof.
  intros Hinit Hinv. rewrite <- getMetricKey_prefix.
  destruct (accessor_registers options kind name cb1 opts1 w Hinit)
    as (i & w1 & Hrun & Hcached).
  destruct (accessor_effect options kind name cb1 opts1 w)
    as (i' & w1' & Hrun' & Hinv1 & Hinit1 & _).
  assert (i' = i /\ w1' = w1) as [-> ->] by (split; congruence).
  specialize (Hinv1 Hinv). rewrite Hinit in Hinit1.
  pose proof (proj1 Hinv1 kind (Metrics.getMetricKey options name)) as Hentry.
  rewrite Hcached in Hentry. destruct Hentry as (id & -> & Hcreated).
  exists id, w1. split; [done|].
  split; [by apply accessor_cached|]. split; [done|]. split; [done|].
  intros cs.
  destruct (run_calls_effect options cs w1)
    as (w2 & Hcs & Hinv2 & Hinit2 & Hmono & _).
  exists w2. split; [done|]. split.
  - rewrite (accessor_cached options kind name cb2 opts2 w2 (SdkInstrument kind id));
      [done | congruence | by apply Hmono].
  - intros kind' key'. pose proof (proj1 (Hinv2 Hinv1) kind' key') as Hentry.
    destruct (Metrics.cache kind' (w_metrics w2) !! key') as [j|].
    + destruct Hentry as (id' & _ & ->). done.
    + rewrite Hentry. simpl. lia.
Qed.

Lemma accessor_idempotent_witness :
  initialized (w_metrics (Sample.world true)) = true /\
  Metrics.registry_inv (Sample.world true) /\
  exists w1,
    Metrics.getCounter Sample.metrics_prefixed "x" None (Sample.world true)
    = (Normal (SdkInstrument Counter 0), w1) /\
    Metrics.getCounter Sample.metrics_prefixed "x" None w1
    = (Normal (SdkInstrument Counter 0), w1) /\
    counters (w_metrics w1) !! "app_x" = Some (SdkInstrument Counter 0).
Proof.
  split; [reflexivity|]. split; [apply registry_inv_start|].
  destruct (accessor_idempotent Sample.metrics_prefixed Counter "x"
              (fun _ => 0%Z) (fun _ => 0%Z) None None (Sample.world true)
              eq_refl (registry_inv_start true))
    as (id & w1 & Hfirst & Hsecond & Hkey & _).
  assert (id = 0) as ->.
  { change (Metrics.accessor Sample.metrics_prefixed Counter "x" (fun _ => 0%Z) None
              (Sample.world true))
      with (Normal (SdkInstrument Counter 0),
            Metrics.after_creation Counter "app_x" "Counter for x" "1"
              (fun _ => 0%Z) (Sample.world true)) in Hfirst.
    congruence. }
  exists w1. split; [exact Hfirst|]. split; [exact Hsecond | exact Hkey].
Defined.

(** C8 (as stated) fails on the gauge: while the registry is uninitialized
    [getObservableGauge] returns the empty object [{}], and registering a
    callback on that handle is a [TypeError]. *)
Lemma getObservableGauge_stub_rejects_addCallback :
  exists gauge w',
    Metrics.getObservableGauge Sample.metrics_off "g" (fun _ => 1%Z) None
      (Sample.world false) = (Normal gauge, w') /\
    Metrics.addCallback gauge (fun _ => 2%Z) w'
    = (Throw (ErrorObj 1 "TypeError" "instrument.addCallback is not a function"
                "TypeError: instrument.addCallback is not a function"),
       (fresh w').2).
Proof. eexists _, _. split; reflexivity. Qed.

Lemma initialize_disabled options setup_throws w :
  Metrics.metrics_enabled options = Some false ->
  Metrics.initialize options setup_throws w = (Normal tt, w).
Proof. intros H. unfold Metrics.initialize. by rewrite H. Qed.

(** C8 (amended): switching metrics off leaves the registry uninitialized,
    and while it is uninitialized no accessor throws or touches the caches or
    the meter: [getCounter] and [getUpDownCounter] return an object whose
    [add] does nothing, [getHistogram] one whose [record] does nothing, and
    [getObservableGauge] drops the callback it is given and returns an empty
    object. *)
Theorem accessors_uninitialized (options : Metrics.MetricsOptions) (name : string)
    (callback : unit -> Z) (opts : option Metrics.InstrumentOptions)
    (value : Z) (attrs : Props) (w : World) :
  initialized (w_metrics w) = false ->
  (Metrics.metrics_enabled options = Some false ->
   forall setup_throws, Metrics.initialize options setup_throws w = (Normal tt, w)) /\
  (exists counter w1,
     Metrics.getCounter options name opts w = (Normal counter, w1) /\
     Metrics.add counter value attrs w1 = (Normal tt, w1) /\
     w_metrics w1 = w_metrics w /\ w_meter w1 = w_meter w) /\
  (exists histogram w1,
     Metrics.getHistogram options name opts w = (Normal histogram, w1) /\
     Metrics.record histogram value attrs w1 = (Normal tt, w1) /\
     w_metrics w1 = w_metrics w /\ w_meter w1 = w_meter w) /\
  (exists upDownCounter w1,
     Metrics.getUpDownCounter options name opts w = (Normal upDownCounter, w1) /\
     Metrics.add upDownCounter value attrs w1 = (Normal tt, w1) /\
     w_metrics w1 = w_metrics w /\ w_meter w1 = w_meter w) /\
  (exists w1,
     Metrics.getObservableGauge options name callback opts w
     = (Normal (StubInstrument (w_next w) []), w1) /\
     w_metrics w1 = w_metrics w /\ w_meter w1 = w_meter w).
Proof.
  intros Hinit. split; [intros Hoff b; by apply initialize_disabled|].
  pose proof (accessor_uninitialized options Counter name callback opts w Hinit) as Hc.
  pose proof (accessor_uninitialized options Histogram name callback opts w Hinit) as Hh.
  pose proof (accessor_uninitialized options UpDownCounter name callback opts w Hinit) as Hu.
  pose proof (accessor_uninitialized options ObservableGauge name callback opts w Hinit) as Hg.
  simpl in Hc, Hh, Hu, Hg.
  split; [|split; [|split]].
  - eexists _, _. split; [exact Hc|]. by repeat split.
  - eexists _, _. split; [exact Hh|]. by repeat split.
  - eexists _, _. split; [exact Hu|]. by repeat split.
  - eexists. split; [exact Hg|]. by split.
Qed.

Lemma accessors_uninitialized_witness :
  initialized (w_metrics (Sample.world false)) = false /\
  Metrics.metrics_enabled Sample.metrics_off = Some false /\
  Metrics.initialize Sample.metrics_off false (Sample.world false)
  = (Normal tt, Sample.world false) /\
  exists counter w1,
    Metrics.getCounter Sample.metrics_off "requests" None (Sample.world false)
    = (Normal counter, w1) /\
    Metrics.add counter 1 [] w1 = (Normal tt, w1).
Proof.
  split; [reflexivity|]. split; [reflexivity|].
  destruct (accessors_uninitialized Sample.metrics_off "requests" (fun _ => 0%Z) None
              1%Z [] (Sample.world false) eq_refl)
    as (Hoff & (counter & w1 & Hget & Hadd & _) & _).
  split; [exact (Hoff eq_refl false)|].
  exists counter, w1. split; [exact Hget | exact Hadd].
Defined.

(** ** recordGaugeMetric *)

(** C9: once a first [recordGaugeMetric(n, v1)] has registered the gauge of
    name [n], the gauge reports [v1]; a later [recordGaugeMetric(n, v2)]
    returns without changing the state at all; and after any further calls
    on the registry the cache still holds that gauge and it still reports
    [v1] alone. *)
Theorem recordGaugeMetric_first_wins (options : Metrics.MetricsOptions)
    (name : string) (v1 : Z) (attrs1 : Props) (w : World) :
  initialized (w_metrics w) = true -> Metrics.registry_inv w ->
  observableGauges (w_metrics w) !! Metrics.getMetricKey options name = None ->
  exists gauge w1,
    Observability.recordGaugeMetric options name v1 attrs1 w = (Normal tt, w1) /\
    observableGauges (w_metrics w1) !! Metrics.getMetricKey options name = Some gauge /\
    Metrics.observe gauge (w_meter w1) = [v1] /\
    (forall v2 attrs2,
       Observability.recordGaugeMetric options name v2 attrs2 w1 = (Normal tt, w1)) /\
    (forall cs,
       exists w2,
         Observability.run_calls options cs w1 = (Normal tt, w2) /\
         observableGauges (w_metrics w2) !! Metrics.getMetricKey options name
         = Some gauge /\
         Metrics.observe gauge (w_meter w2) = [v1]).
Proof.
  intros Hinit Hinv Hnone.
  set (key := Metrics.getMetricKey options name) in *.
  set (gauge := SdkInstrument ObservableGauge (w_next w)).
  set (w1 := Metrics.after_creation ObservableGauge key
               (Metrics.or_else None (Metrics.default_description ObservableGauge name))
               (Metrics.or_else None (Metrics.default_unit ObservableGauge))
               (fun _ : unit => v1) w).
  assert (Metrics.getObservableGauge options name (fun _ => v1) None w
          = (Normal gauge, w1)) as Hfirst.
  { by apply (accessor_absent options ObservableGauge name (fun _ => v1) None w). }
  assert (observableGauges (w_metrics w1) !! key = Some gauge) as Hcached.
  { unfold w1, Metrics.after_creation. simpl. apply lookup_insert_eq. }
  assert (initialized (w_metrics w1) = true) as Hinit1 by done.
  assert (Metrics.observe gauge (w_meter w1) = [v1]) as Hobs.
  { unfold w1, Metrics.after_creation. simpl. rewrite observe_app.
    rewrite (observe_unborn gauge (w_meter w) (w_next w)); [|apply Hinv|done].
    simpl. by rewrite bool_decide_true. }
  exists gauge, w1. split.
  { unfold Observability.recordGaugeMetric, bind. by rewrite Hfirst. }
  split; [done|]. split; [done|]. split.
  - intros v2 attrs2. unfold Observability.recordGaugeMetric, bind.
    pose proof (accessor_cached options ObservableGauge name (fun _ => v2) None w1
                  gauge Hinit1 Hcached) as Hsecond.
    simpl in Hsecond. by rewrite Hsecond.
  - intros cs.
    destruct (run_calls_effect options cs w1) as (w2 & Hcs & _ & _ & Hmono & Hkeep & _).
    exists w2. split; [done|]. split.
    + by apply (Hmono ObservableGauge).
    + rewrite Hkeep; [done|]. unfold w1, gauge. simpl. lia.
Qed.

Lemma recordGaugeMetric_first_wins_witness :
  initialized (w_metrics (Sample.world true)) = true /\
  Metrics.registry_inv (Sample.world true) /\
  observableGauges (w_metrics (Sample.world true))
    !! Metrics.getMetricKey Sample.metrics_options "queue.depth" = None /\
  exists gauge w1,
    Observability.recordGaugeMetric Sample.metrics_options "queue.depth" 5 []
      (Sample.world true) = (Normal tt, w1) /\
    Metrics.observe gauge (w_meter w1) = [5%Z] /\
    Observability.recordGaugeMetric Sample.metrics_options "queue.depth" 7 [] w1
    = (Normal tt, w1).
Proof.
  split; [reflexivity|]. split; [apply registry_inv_start|]. split; [reflexivity|].
  destruct (recordGaugeMetric_first_wins Sample.metrics_options "queue.depth" 5 []
              (Sample.world true) eq_refl (registry_inv_start true) eq_refl)
    as (gauge & w1 & Hfirst & _ & Hobs & Hlater & _).
  exists gauge, w1. split; [exact Hfirst|]. split; [exact Hobs | exact (Hlater 7%Z [])].
Defined.

(** ** The HTTP boundary *)

(** When the traced function returns, [traceAsync] sets the status OK and
    ends the span at once, in the context it restores; what the returned
    value does later happens after the span's end. *)
Lemma traceAsync_ends_on_return {T} rt name (fn : SpanVal -> M T) kind w v w' :
  startSpan_fault rt name = None ->
  fn (SdkSpan (w_next w))
     (set_active (Some (SdkSpan (w_next w)))
        (emit_span (Started (w_next w) name kind None []) (fresh w).2).2).2
  = (Normal v, w') ->
  Services.traceAsync rt true name fn kind w
  = (Normal v,
     (set_active (w_active w)
        (emit_span (Called (SdkSpan (w_next w)) End)
           (emit_span (Called (SdkSpan (w_next w)) (SetStatus OK JUndefined)) w').2).2).2).
Proof.
  intros Hfault Hfn.
  unfold Services.traceAsync, sdk_startSpan. rewrite Hfault.
  cbv [negb bind try_catch with_active try_finally get_world set_active
       emit_span fresh ret fst snd w_next w_spans w_active w_metrics w_meter
       w_now w_status] in Hfn |- *.
  rewrite Hfn.
  cbv [call_span has_method method_of emit_span w_next w_spans w_active
       w_metrics w_meter w_now w_status]. done.
Qed.

(** C4 (code defect): a request without a body whose handler's observable
    fails, after some delay, with an [Error] object.  The caller gets that
    very object, the error counter is incremented once and one duration is
    recorded; but the server span was ended, with status OK, before the
    handler was even subscribed to, and no ERROR status is ever set on it. *)
Theorem intercept_ends_span_ok_on_rejection (rt : Runtime) (request : Http.Request)
    (id : nat) (name message stack : string) (delay : Z) :
  startSpan_fault rt ("HTTP " +:+ Http.method request +:+ " " +:+ Http.url request)
  = None ->
  Http.body request = JUndefined ->
  let e := ErrorObj id name message stack in
  let run := Http.intercept rt Sample.service request
               (Sample.tick delay ;; throw e) (Sample.world true) in
  run.1 = Throw e /\
  Metrics.measured_on Counter "http.error.total" (w_meter run.2) = [1%Z] /\
  Metrics.measured_on Histogram "http.request.duration" (w_meter run.2) = [delay] /\
  w_spans run.2
  = [Started 0 ("HTTP " +:+ Http.method request +:+ " " +:+ Http.url request)
       (Some SERVER) None [];
     Called (SdkSpan 0) (SetAttributes (Http.request_attributes request));
     Called (SdkSpan 0) (SetStatus OK JUndefined);
     Called (SdkSpan 0) End] /\
  Http.status_at_end (SdkSpan 0) (UNSET, JUndefined) (w_spans run.2)
  = Some (OK, JUndefined).
Proof.
  intros Hfault Hbody e run. subst run e.
  unfold Http.intercept, Http.traced, Services.traceAsync, sdk_startSpan.
  rewrite Hbody, Hfault.
  repeat split; try reflexivity.
  destruct delay; reflexivity.
Qed.

Lemma intercept_ends_span_ok_on_rejection_witness :
  startSpan_fault Sample.runtime "HTTP GET /orders" = None /\
  Http.body Sample.request = JUndefined /\
  (Http.intercept Sample.runtime Sample.service Sample.request
     Sample.failing_handler (Sample.world true)).1 = Throw Sample.boom /\
  Http.status_at_end (SdkSpan 0) (UNSET, JUndefined)
    (w_spans (Http.intercept Sample.runtime Sample.service Sample.request
                Sample.failing_handler (Sample.world true)).2)
  = Some (OK, JUndefined).
Proof.
  split; [reflexivity|]. split; [reflexivity|].
  destruct (intercept_ends_span_ok_on_rejection Sample.runtime Sample.request
              99 "Error" "boom" "Error: boom" 50 eq_refl eq_refl)
    as (Hsame & _ & _ & _ & Hstatus).
  split; [exact Hsame | exact Hstatus].
Defined.

(** A handler that answers leaves the same span events: the span's end
    does not depend on how the request turns out. *)
Example intercept_on_success :
  let run := Http.intercept Sample.runtime Sample.service Sample.request
               Sample.answering_handler (Sample.world true) in
  run.1 = Normal (JStr "ok") /\
  Metrics.measured_on Counter "http.error.total" (w_meter run.2) = [] /\
  Metrics.measured_on Counter "http.request.total" (w_meter run.2) = [1%Z] /\
  Metrics.measured_on Histogram "http.request.duration" (w_meter run.2) = [50%Z] /\
  Http.status_at_end (SdkSpan 0) (UNSET, JUndefined) (w_spans run.2)
  = Some (OK, JUndefined).
Proof. repeat split; reflexivity. Qed.

(** ** The sanitizer along paths *)

Lemma map_from_map {A B C} (f : nat -> A -> B) (g : B -> C) i l :
  Sanitizer.map_from (fun i x => g (f i x)) i l = map g (Sanitizer.map_from f i l).
Proof. revert i. induction l as [|x l IH]; intros i; simpl; [done|]. by rewrite IH. Qed.

(** The sanitizer is one map over the own properties of its argument. *)
Lemma sanitizeData_spread (d : JsVal) :
  Sanitizer.sanitizeData d
  = JObj (map (fun kv : string * JsVal =>
                 (kv.1, if Sanitizer.is_sensitive kv.1 then JStr Sanitizer.REDACTED
                        else sanitized_child kv.2))
              (Sanitizer.spread_of d)).
Proof.
  destruct d as [| | b | n | s | elems | props]; simpl; try done.
  - f_equal. generalize 0 at 1 2. induction s as [|c s IH]; intros i; simpl; [done|].
    rewrite IH. f_equal. by destruct (Sanitizer.is_sensitive _).
  - f_equal. unfold Sanitizer.index_props.
    rewrite (map_from_map (fun i v => (Str.of_index i, v))
               (Sanitizer.sanitize_entry Sanitizer.sanitizeData)).
    apply map_ext. intros [k v]. simpl. unfold sanitized_child.
    destruct (Sanitizer.is_sensitive k); [done|]. by destruct (is_object v).
  - f_equal. apply map_ext. intros [k v]. simpl. unfold sanitized_child.
    destruct (Sanitizer.is_sensitive k); [done|]. by destruct (is_object v).
Qed.

Lemma assoc_map_value {V W} (f : string -> V -> W) (k : string) (o : list (string * V)) :
  assoc k (map (fun kv : string * V => (kv.1, f kv.1 kv.2)) o) = f k <$> assoc k o.
Proof.
  induction o as [|[k' v] o IH]; simpl; [done|].
  destruct (String.eqb_spec k k') as [->|]; [done | apply IH].
Qed.

Lemma own_prop_sanitizeData (k : string) (d : JsVal) :
  is_object d = true ->
  own_prop k (Sanitizer.sanitizeData d)
  = (fun v => if Sanitizer.is_sensitive k then JStr Sanitizer.REDACTED
              else sanitized_child v) <$> own_prop k d.
Proof.
  intros Hd. rewrite sanitizeData_spread.
  assert (own_prop k d = assoc k (Sanitizer.spread_of d)) as -> by by destruct d.
  apply (assoc_map_value
           (fun k v => if Sanitizer.is_sensitive k then JStr Sanitizer.REDACTED
                       else sanitized_child v)).
Qed.

Lemma own_prop_primitive k v : is_object v = false -> own_prop k v = None.
Proof. by destruct v. Qed.

Lemma get_path_sanitized_child path v :
  Forall (fun k => Sanitizer.is_sensitive k = false) path ->
  get_path path (sanitized_child v) = sanitized_child <$> get_path path v.
Proof.
  revert v. induction path as [|k path IH]; intros v Hpath; [done|].
  apply Forall_cons in Hpath as [Hk Hpath].
  unfold sanitized_child at 1. destruct (is_object v) eqn:Hv.
  - simpl. rewrite own_prop_sanitizeData, Hk by done.
    destruct (own_prop k v) as [child|]; simpl; [by apply IH | done].
  - simpl. by rewrite own_prop_primitive.
Qed.

(** X1: what the sanitizer keeps.  Along any path of keys none of which is
    sensitive, through nested objects and arrays, the sanitized copy of an
    object or array has a property exactly where the input has one; a
    primitive value found there is unchanged, and an object or array found
    there is replaced by its own sanitized copy. *)
Theorem sanitizeData_outside_sensitive_keys (d : JsVal) (k : string) (path : list string) :
  is_object d = true ->
  Forall (fun key => Sanitizer.is_sensitive key = false) (k :: path) ->
  get_path (k :: path) (Sanitizer.sanitizeData d)
  = (fun v => if is_object v then Sanitizer.sanitizeData v else v)
      <$> get_path (k :: path) d.
Proof.
  intros Hd [Hk Hpath]%Forall_cons. simpl. rewrite own_prop_sanitizeData, Hk by done.
  destruct (own_prop k d) as [child|]; simpl; [|done].
  by apply get_path_sanitized_child.
Qed.

Lemma sanitizeData_outside_sensitive_keys_witness :
  get_path ["nested"; "ok"] (Sanitizer.sanitizeData SanitizerHeap.example_payload)
  = Some (JStr "v").
Proof.
  exact (sanitizeData_outside_sensitive_keys SanitizerHeap.example_payload "nested" ["ok"]
           eq_refl ltac:(by repeat constructor)).
Defined.

(** X2: what the sanitizer removes.  Wherever the input holds a value under
    a sensitive key, at any depth below harmless keys and inside arrays as
    well, the sanitized copy holds the marker "[REDACTED]" in its place. *)
Theorem sanitizeData_redacts_at_any_depth (d : JsVal) (path : list string)
    (k : string) (v : JsVal) :
  Forall (fun key => Sanitizer.is_sensitive key = false) path ->
  Sanitizer.is_sensitive k = true ->
  get_path (path ++ [k]) d = Some v ->
  get_path (path ++ [k]) (Sanitizer.sanitizeData d) = Some (JStr "[REDACTED]").
Proof.
  intros Hpath Hk. revert d. induction path as [|k0 path IH]; intros d; simpl.
  - destruct (is_object d) eqn:Hd; [|by rewrite own_prop_primitive].
    rewrite own_prop_sanitizeData, Hk by done.
    by destruct (own_prop k d) as [child|].
  - apply Forall_cons in Hpath as [Hk0 Hpath].
    destruct (is_object d) eqn:Hd; [|by rewrite own_prop_primitive].
    rewrite own_prop_sanitizeData, Hk0 by done.
    destruct (own_prop k0 d) as [child|]; simpl; [|done].
    unfold sanitized_child. destruct (is_object child) eqn:Hc; [by apply IH|].
    destruct path; simpl; by rewrite own_prop_primitive.
Qed.

Lemma sanitizeData_redacts_at_any_depth_witness :
  get_path ["users"; "0"; "pin"]
    (Sanitizer.sanitizeData (JObj [("users", JArr [JObj [("pin", JNum 1234)]])]))
  = Some (JStr "[REDACTED]").
Proof.
  exact (sanitizeData_redacts_at_any_depth
           (JObj [("users", JArr [JObj [("pin", JNum 1234)]])]) ["users"; "0"] "pin"
           (JNum 1234) ltac:(by repeat constructor) eq_refl eq_refl).
Defined.

(** X3: sanitizing twice is sanitizing once. *)
Theorem sanitizeData_idempotent (d : JsVal) :
  Sanitizer.sanitizeData (Sanitizer.sanitizeData d) = Sanitizer.sanitizeData d.
Proof.
  assert (forall (o : list (string * JsVal)),
    Forall (fun kv => Sanitizer.sanitizeData (sanitized_child kv.2) = Sanitizer.sanitizeData kv.2
                      \/ is_object kv.2 = false) o ->
    Sanitizer.sanitizeData
      (JObj (map (fun kv : string * JsVal =>
                    (kv.1, if Sanitizer.is_sensitive kv.1 then JStr Sanitizer.REDACTED
                           else sanitized_child kv.2)) o))
    = JObj (map (fun kv : string * JsVal =>
                   (kv.1, if Sanitizer.is_sensitive kv.1 then JStr Sanitizer.REDACTED
                          else sanitized_child kv.2)) o)) as Hstep.
  { intros o Ho. simpl. f_equal.
    induction Ho as [|[k v] o Hkv Ho IH]; [done|]. simpl. f_equal; [|exact IH].
    destruct (Sanitizer.is_sensitive k) eqn:Hk; [done|].
    unfold sanitized_child. destruct (is_object v) eqn:Hv.
    - destruct Hkv as [Hkv|Hkv]; [|simpl in Hkv; congruence]. simpl in Hkv.
      unfold sanitized_child in Hkv. rewrite Hv in Hkv.
      assert (is_object (Sanitizer.sanitizeData v) = true) as -> by by destruct v.
      by rewrite Hkv.
    - by rewrite Hv. }
  induction d as [| | b | n | s | elems IH | props IH] using JsVal_nested_ind;
    match goal with
    | |- Sanitizer.sanitizeData (Sanitizer.sanitizeData ?x) = _ =>
        rewrite (sanitizeData_spread x)
    end; apply Hstep; simpl; try done.
  - generalize 0. induction s as [|c s IHs]; intros i; simpl; [done|].
    constructor; [by right | apply IHs].
  - unfold Sanitizer.index_props. generalize 0.
    induction IH as [|v elems Hv IH IHl]; intros i; simpl; [done|].
    constructor; [|apply IHl]. simpl.
    unfold sanitized_child. destruct (is_object v); [by left | by right].
  - induction IH as [|[k v] props Hv IH IHl]; simpl; [done|].
    constructor; [|apply IHl]. simpl in *.
    unfold sanitized_child. destruct (is_object v); [by left | by right].
Qed.

(** ** The tracing interceptor *)

Section TracingInterceptorFacts.
Import TracingInterceptor.
Context (rt : Runtime).

Lemma runs_raise_TypeError {A} message w :
  runs (@raise_TypeError A message) w
       (Throw (ErrorObj (w_next w) "TypeError" message ("TypeError: " +:+ message))) [].
Proof. eexists. split; [done | apply steps_fresh]. Qed.

Lemma runs_getApproximateResponseSize data w :
  runs (getApproximateResponseSize rt data) w (Normal (response_size rt data)) [].
Proof.
  unfold getApproximateResponseSize, response_size.
  destruct data as [| | b | n | s | elems | props]; simpl;
    try apply runs_ret; try apply runs_try_catch_normal, runs_ret.
  all: unfold stringify; destruct (JSON_stringify rt _) as [json|]; simpl.
  all: try (apply runs_try_catch_normal;
            apply (runs_bind _ _ _ json _ [] [] (runs_ret _ _)); intros w1; apply runs_ret).
  all: eexists; split; [done | apply steps_fresh].
Qed.

Lemma runs_add_metadata span key value w :
  has_method span "setAttribute" = true ->
  (Http.has_keys value = true ->
   is_Some (JSON_stringify rt (Sanitizer.sanitizeData value))) ->
  runs (add_metadata rt span key value) w (Normal tt)
       (map (Called span)
          (if Http.has_keys value
           then [SetAttribute key
                   (JStr (default "" (JSON_stringify rt (Sanitizer.sanitizeData value))))]
           else [])).
Proof.
  intros Hm Hser. unfold add_metadata.
  destruct (Http.has_keys value); simpl; [|apply runs_ret].
  destruct (Hser eq_refl) as [text Htext]. unfold stringify. rewrite Htext. simpl.
  apply (runs_bind _ _ _ text _ [] _ (runs_ret _ _)). intros w1. by apply runs_call.
Qed.

Lemma runs_addRequestMetadata span body params query w :
  has_method span "setAttribute" = true ->
  (forall v, v ∈ [params; query; body] -> Http.has_keys v = true ->
             is_Some (JSON_stringify rt (Sanitizer.sanitizeData v))) ->
  runs (addRequestMetadata rt (Some span) body params query) w (Normal tt)
       (map (Called span) (metadata_calls rt body params query)).
Proof.
  intros Hm Hser. unfold addRequestMetadata, metadata_calls. simpl.
  rewrite app_nil_r, !map_app.
  eapply runs_bind; [apply runs_add_metadata; [done | apply Hser; set_solver]|].
  intros w1.
  eapply runs_bind; [apply runs_add_metadata; [done | apply Hser; set_solver]|].
  intros w2. apply runs_add_metadata; [done | apply Hser; set_solver].
Qed.

Lemma metadata_calls_no_End body params query :
  filter is_End (metadata_calls rt body params query) = [].
Proof.
  unfold metadata_calls. simpl.
  by destruct (Http.has_keys params), (Http.has_keys query), (Http.has_keys body).
Qed.

Lemma status_at_end_skip span current (cs : list SpanCall) rest :
  Forall (fun c => match c with SetStatus _ _ | End => False | _ => True end) cs ->
  Http.status_at_end span current (map (Called span) cs ++ rest)
  = Http.status_at_end span current rest.
Proof.
  induction 1 as [|c cs Hc _ IH]; [done|]. simpl.
  rewrite bool_decide_true by done. by destruct c.
Qed.

Lemma attach_calls_only_setAttribute attributes :
  Forall (fun c => match c with SetAttribute _ _ => True | _ => False end)
         (Tracing.attach_calls rt attributes).
Proof.
  unfold Tracing.attach_calls.
  induction (default [] attributes) as [|[key value] attrs IH]; [constructor|].
  simpl. apply Forall_app. split; [|done].
  destruct (is_nullish value); [constructor|].
  destruct (is_object value); by repeat constructor.
Qed.

(** The status in effect when [endSpan] ends the span. *)
Lemma status_at_end_endSpan_calls span current success error attributes :
  Http.status_at_end span current
    (map (Called span) (Tracing.endSpan_calls rt success error attributes))
  = Some (final_status success error).
Proof.
  unfold Tracing.endSpan_calls. rewrite map_app, status_at_end_skip.
  2:{ eapply Forall_impl; [apply attach_calls_only_setAttribute|]. by intros []. }
  unfold Tracing.status_calls, final_status. simpl.
  rewrite !bool_decide_true by done.
  destruct success; simpl; [by rewrite !bool_decide_true|].
  destruct error as [e|]; simpl; [|by rewrite !bool_decide_true].
  destruct (thrown_truthy e); simpl; [|by rewrite !bool_decide_true].
  rewrite !bool_decide_true by done.
  destruct (truthy (thrown_prop e "stack")); simpl; by rewrite !bool_decide_true.
Qed.

Lemma intercept_setup config request next_handle w span w1 :
  setup rt config request w = (Normal span, w1) ->
  intercept rt config request next_handle w
  = tap next_handle (on_next rt span) (on_error rt span) w1.
Proof.
  unfold setup, intercept, bind. intros H.
  destruct (Tracing.createSpan _ _ _ _ _ _ w) as [[s|e] w0]; [|done].
  destruct (addRequestMetadata _ _ _ _ _ w0) as [[[]|e] w0']; [|done].
  by injection H as -> ->.
Qed.

Lemma setup_runs config request w :
  (forall v, v ∈ [params request; query request; body request] ->
             Http.has_keys v = true ->
             is_Some (JSON_stringify rt (Sanitizer.sanitizeData v))) ->
  exists span pre,
    runs (setup rt config request) w (Normal span) pre /\
    Tracing.has_noop_methods span /\ ends_of span pre = 0.
Proof.
  intros Hser.
  destruct (createSpan_total rt config (span_name request)
              (Some (span_attributes request)) (Some SERVER) None w)
    as (span & pre & Hcreate & Hall & Hpre).
  exists span, (pre ++ map (Called span)
                         (metadata_calls rt (body request) (params request) (query request))).
  split; [|split; [done|]].
  - unfold setup. eapply runs_bind; [exact Hcreate|]. intros w1.
    eapply runs_eq.
    + eapply runs_bind; [apply runs_addRequestMetadata; [apply Hall; set_solver | done]|].
      intros w2. apply runs_ret.
    + by rewrite app_nil_r.
  - by rewrite ends_of_app, Hpre, ends_of_calls, metadata_calls_no_End.
Qed.

Lemma runs_on_next span data w :
  Tracing.has_noop_methods span ->
  runs (on_next rt span data) w (Normal tt)
       (map (Called span)
          (Tracing.endSpan_calls rt true None
             (Some [("http.status_code", JNum (w_status w));
                    ("response.size", JNum (response_size rt data))]))).
Proof.
  intros Hall. unfold on_next.
  apply (runs_bind _ _ _ (w_status w) _ [] _).
  { eexists. split; [done | apply steps_refl]. }
  intros w1.
  apply (runs_bind _ _ _ (response_size rt data) _ [] _
           (runs_getApproximateResponseSize data w1)).
  intros w2. by apply runs_endSpan.
Qed.

Lemma runs_read_prop e k w :
  readable e = true -> runs (read_prop e k) w (Normal (thrown_prop e k)) [].
Proof. intros H. destruct e as [|[]]; try done; apply runs_ret. Qed.

Lemma runs_on_error span e w :
  Tracing.has_noop_methods span -> readable e = true ->
  runs (on_error rt span e) w (Normal tt)
       (map (Called span)
          (Tracing.endSpan_calls rt false (Some e) (Some (error_attributes e)))).
Proof.
  intros Hall He. unfold on_error.
  apply (runs_bind _ _ _ _ _ [] _ (runs_read_prop e "status" w He)). intros w1.
  apply (runs_bind _ _ _ _ _ [] _ (runs_read_prop e "name" w1 He)). intros w2.
  apply (runs_bind _ _ _ _ _ [] _ (runs_read_prop e "code" w2 He)). intros w3.
  by apply runs_endSpan.
Qed.

End TracingInterceptorFacts.

(** X4: [getApproximateResponseSize] never throws and changes nothing.  It
    answers 0 for null and undefined, the length of a string, the length of
    the JSON text of an object or array, and -1 exactly when serializing an
    object or array throws. *)
Theorem getApproximateResponseSize_never_throws (rt : Runtime) (data : JsVal)
    (w : World) :
  exists size w',
    TracingInterceptor.getApproximateResponseSize rt data w = (Normal size, w') /\
    steps w w' [] /\
    (-1 <= size)%Z /\
    (size = (-1)%Z <-> is_object data = true /\ JSON_stringify rt data = None) /\
    (is_nullish data = true -> size = 0%Z) /\
    (forall s, data = JStr s -> size = Z.of_nat (js_length s)) /\
    (forall json, is_object data = true -> JSON_stringify rt data = Some json ->
                  size = Z.of_nat (js_length json)).
Proof.
  destruct (runs_getApproximateResponseSize rt data w) as (w' & Hrun & Hsteps).
  exists (TracingInterceptor.response_size rt data), w'.
  split; [done|]. split; [done|]. unfold TracingInterceptor.response_size.
  destruct data as [| | b | n | s | elems | props]; simpl;
    try (repeat split; try done; try lia; try (intros [? ?]; done);
         try (intros s0 [= <-]; done); fail).
  all: destruct (JSON_stringify rt _) as [json|]; repeat split; try done; try lia.
  all: try (intros [_ ?]; done). all: by intros json0 _ [= <-].
Qed.



(** X6: [TracingInterceptor.intercept] on a handler that answers.  The span
    is created and given the request metadata before the handler runs, with
    no [end] call; when the handler's observable emits [data], the
    subscriber gets [data] itself, and the interceptor then attaches the
    response status code and the response size, marks the operation
    successful, sets the status OK and ends the span, once. *)
Theorem intercept_ends_span_on_value (rt : Runtime) (config : Tracing.TracingConfig)
    (request : TracingInterceptor.Request) (next_handle : M JsVal) (w : World) :
  (forall v,
     v ∈ [TracingInterceptor.params request; TracingInterceptor.query request;
          TracingInterceptor.body request] ->
     Http.has_keys v = true ->
     is_Some (JSON_stringify rt (Sanitizer.sanitizeData v))) ->
  exists span w1 pre,
    TracingInterceptor.setup rt config request w = (Normal span, w1) /\
    w_spans w1 = w_spans w ++ pre /\ ends_of span pre = 0 /\
    forall data w2,
      next_handle w1 = (Normal data, w2) ->
      exists size w3,
        TracingInterceptor.getApproximateResponseSize rt data w2 = (Normal size, w3) /\
        exists w4,
          TracingInterceptor.intercept rt config request next_handle w
          = (Normal data, w4) /\
          w_spans w4
          = w_spans w2
            ++ map (Called span)
                 [SetAttribute "http.status_code" (JNum (w_status w2));
                  SetAttribute "response.size" (JNum size);
                  SetAttribute "operation.success" (JBool true);
                  SetStatus OK JUndefined; End].
Proof.
  intros Hser.
  destruct (setup_runs rt config request w Hser)
    as (span & pre & (w1 & Hsetup & Hsteps) & Hall & Hpre).
  exists span, w1, pre. split; [done|]. split; [apply Hsteps|]. split; [done|].
  intros data w2 Hnext.
  destruct (runs_getApproximateResponseSize rt data w2) as (w3 & Hsize & _).
  exists (TracingInterceptor.response_size rt data), w3. split; [done|].
  destruct (runs_on_next rt span data w2 Hall) as (w4 & Hrun & Hsteps4).
  exists w4. rewrite (intercept_setup rt config request next_handle w span w1 Hsetup).
  unfold TracingInterceptor.tap, bind. rewrite Hnext, Hrun.
  split; [done|]. apply Hsteps4.
Qed.

Lemma intercept_ends_span_on_value_witness :
  exists span w1 w4,
    TracingInterceptor.setup Sample.runtime Sample.tracing_on Fixtures.login
      (Sample.world false) = (Normal span, w1) /\
    TracingInterceptor.intercept Sample.runtime Sample.tracing_on Fixtures.login
      Sample.answering_handler (Sample.world false) = (Normal (JStr "ok"), w4) /\
    ends_of span (w_spans w4) = 1.
Proof.
  destruct (intercept_ends_span_on_value Sample.runtime Sample.tracing_on
              Fixtures.login Sample.answering_handler (Sample.world false))
    as (span & w1 & pre & Hsetup & Hpre & Hends & Hvalue).
  { intros v _ _. by eexists. }
  destruct (Hvalue (JStr "ok") (Sample.tick 50 w1).2) as (size & w3 & _ & w4 & Hrun & Hspans).
  { reflexivity. }
  exists span, w1, w4. split; [exact Hsetup|]. split; [exact Hrun|].
  rewrite Hspans, ends_of_app, ends_of_calls. simpl.
  by rewrite Hpre, ends_of_app, Hends.
Defined.

(** X7: [TracingInterceptor.intercept] on a handler that fails with a value
    [e] other than null and undefined.  The subscriber gets [e] itself; the
    interceptor ends the span exactly once, with status ERROR carrying
    [e.message] (or "Unknown error" for a falsy [e]), and for a truthy [e]
    the exception is recorded on the span. *)
Theorem intercept_ends_span_on_error (rt : Runtime) (config : Tracing.TracingConfig)
    (request : TracingInterceptor.Request) (next_handle : M JsVal) (w : World) :
  (forall v,
     v ∈ [TracingInterceptor.params request; TracingInterceptor.query request;
          TracingInterceptor.body request] ->
     Http.has_keys v = true ->
     is_Some (JSON_stringify rt (Sanitizer.sanitizeData v))) ->
  exists span w1 pre,
    TracingInterceptor.setup rt config request w = (Normal span, w1) /\
    w_spans w1 = w_spans w ++ pre /\ ends_of span pre = 0 /\
    forall e w2,
      next_handle w1 = (Throw e, w2) -> readable e = true ->
      exists w3 tail,
        TracingInterceptor.intercept rt config request next_handle w = (Throw e, w3) /\
        w_spans w3 = w_spans w2 ++ tail /\
        ends_of span tail = 1 /\
        Http.status_at_end span (UNSET, JUndefined) tail
        = Some (ERROR, if thrown_truthy e then thrown_prop e "message"
                       else JStr "Unknown error") /\
        (thrown_truthy e = true -> Called span (RecordException e) ∈ tail).
Proof.
  intros Hser.
  destruct (setup_runs rt config request w Hser)
    as (span & pre & (w1 & Hsetup & Hsteps) & Hall & Hpre).
  exists span, w1, pre. split; [done|]. split; [apply Hsteps|]. split; [done|].
  intros e w2 Hnext He.
  destruct (runs_on_error rt span e w2 Hall He) as (w3 & Hrun & Hsteps3).
  exists w3. eexists.
  rewrite (intercept_setup rt config request next_handle w span w1 Hsetup).
  unfold TracingInterceptor.tap, bind. rewrite Hnext, Hrun.
  split; [done|]. split; [apply Hsteps3|].
  split; [apply endSpan_calls_one_End|].
  split.
  - rewrite status_at_end_endSpan_calls. unfold final_status.
    by destruct (thrown_truthy e).
  - intros Ht. apply (list_elem_of_fmap_2 (Called span)).
    unfold Tracing.endSpan_calls, Tracing.status_calls. rewrite Ht.
    set_solver.
Qed.

Lemma intercept_ends_span_on_error_witness :
  exists span w1 w3,
    TracingInterceptor.setup Sample.runtime Sample.tracing_on Fixtures.login
      (Sample.world false) = (Normal span, w1) /\
    TracingInterceptor.intercept Sample.runtime Sample.tracing_on Fixtures.login
      Sample.failing_handler (Sample.world false) = (Throw Sample.boom, w3) /\
    ends_of span (w_spans w3) = 1.
Proof.
  destruct (intercept_ends_span_on_error Sample.runtime Sample.tracing_on
              Fixtures.login Sample.failing_handler (Sample.world false))
    as (span & w1 & pre & Hsetup & Hpre & Hends & Herror).
  { intros v _ _. by eexists. }
  destruct (Herror Sample.boom (Sample.tick 50 w1).2) as (w3 & tail & Hrun & Hspans & Hone & _).
  { reflexivity. }
  { reflexivity. }
  exists span, w1, w3. split; [exact Hsetup|]. split; [exact Hrun|].
  rewrite Hspans, ends_of_app, Hone. simpl.
  by rewrite Hpre, ends_of_app, Hends.
Defined.

(** ** traceWithActiveSpan with tracing on *)

Section ActiveSpanFacts.
Context (rt : Runtime).

Lemma api_span_has_method span m : api_span span -> has_method span m = true.
Proof. by destruct span. Qed.

Lemma runs_api_startSpan name kind links attrs w :
  startSpan_fault rt name = None ->
  exists span pre,
    runs (api_startSpan rt name kind links attrs) w (Normal span) pre /\
    api_span span /\ ends_of span pre = 0 /\
    span = (if tracer_registered rt then SdkSpan (w_next w)
            else NonRecordingSpan (w_next w)) /\
    pre = (if tracer_registered rt then [Started (w_next w) name kind links attrs]
           else []).
Proof.
  intros Hf. unfold api_startSpan, sdk_startSpan. rewrite Hf.
  destruct (tracer_registered rt).
  - eexists _, _. split; [|by repeat split].
    eapply runs_eq.
    + eapply runs_bind; [apply runs_fresh|]. intros w1.
      eapply runs_bind; [apply runs_emit|]. intros w2. apply runs_ret.
    + done.
  - eexists _, _. split; [|by repeat split].
    apply (runs_bind _ _ _ _ _ [] [] (runs_fresh w)). intros w1. apply runs_ret.
Qed.

(** The attribute loop of [traceWithActiveSpan]: values are handed to
    [setAttribute] as they are. *)
Lemma runs_raw_attributes span (attrs : Props) w :
  has_method span "setAttribute" = true ->
  runs (forEach (fun entry : string * JsVal =>
                   when (negb (is_nullish entry.2))
                     (call_span span (SetAttribute entry.1 entry.2))) attrs)
       w (Normal tt)
       (map (Called span)
          (flat_map (fun entry : string * JsVal =>
                       if is_nullish entry.2 then []
                       else [SetAttribute entry.1 entry.2]) attrs)).
Proof.
  intros Hm. revert w. induction attrs as [|[key value] attrs IH]; intros w; simpl.
  - apply runs_ret.
  - rewrite map_app. eapply runs_bind; [|intros w1; apply IH].
    destruct (is_nullish value); simpl; [apply runs_ret | by apply runs_call].
Qed.

Lemma with_active_unfold {A} span (m : M A) w :
  with_active span m w
  = ((m (set_active (Some span) w).2).1,
     (set_active (w_active w) (m (set_active (Some span) w).2).2).2).
Proof.
  unfold with_active, bind, get_world, try_finally. simpl.
  by destruct (m _) as [r w'].
Qed.

Lemma try_finally_call_end {A} span (m : M A) w :
  has_method span "end" = true ->
  try_finally m (call_span span End) w
  = ((m w).1, (emit_span (Called span End) (m w).2).2).
Proof.
  intros Hend. unfold try_finally. destruct (m w) as [r w'].
  by rewrite (call_span_steps span End w' Hend).
Qed.

Lemma read_prop_readable e k w :
  readable e = true -> read_prop e k w = (Normal (thrown_prop e k), w).
Proof. intros H. by destruct e as [|[]]. Qed.

End ActiveSpanFacts.

(** X8: [traceWithActiveSpan] with tracing on and a provider registered.
    The span is started and made the active one, the non-nullish attributes
    are set on it as they are, and the caller's function runs.  Whatever the
    function does, the span is ended exactly once and the ambient context is
    put back.  A value is returned after the status OK was set; a thrown or
    rejected value other than null and undefined is rethrown as it is after
    the status ERROR with its message was set and the exception recorded. *)
Theorem traceWithActiveSpan_lifecycle {T : Type} (rt : Runtime)
    (config : Tracing.TracingConfig) (name : string)
    (fn : SpanVal -> World -> Settled T * World) (attributes : option Props)
    (w : World) :
  Tracing.enabled config = true -> tracer_registered rt = true ->
  startSpan_fault rt name = None ->
  let span := SdkSpan (w_next w) in
  exists w1,
    w_active w1 = Some span /\
    w_spans w1
    = w_spans w
      ++ Started (w_next w) name None None []
         :: map (Called span)
              (flat_map (fun entry : string * JsVal =>
                           if is_nullish entry.2 then []
                           else [SetAttribute entry.1 entry.2])
                        (default [] attributes)) /\
    match fn span w1 with
    | (Returns v, w2) | (Resolves v, w2) =>
        exists w3,
          Tracing.traceWithActiveSpan rt config name fn attributes w = (Normal v, w3) /\
          w_spans w3
          = w_spans w2 ++ [Called span (SetStatus OK JUndefined); Called span End] /\
          w_active w3 = w_active w
    | (Throws e, w2) | (Rejects e, w2) =>
        exists r w3 tail,
          Tracing.traceWithActiveSpan rt config name fn attributes w = (r, w3) /\
          w_spans w3 = w_spans w2 ++ tail /\ ends_of span tail = 1 /\
          w_active w3 = w_active w /\
          (readable e = true ->
           r = Throw e /\
           tail = [Called span (SetStatus ERROR (thrown_prop e "message"));
                   Called span (RecordException e);
                   Called span End])
    end.
Proof.
  intros Hon Hreg Hfault span0.
  destruct (runs_api_startSpan rt name None None [] w Hfault)
    as (span & pre0 & (ws & Hstart & Hsteps0) & Hapi & Hpre0 & Hspan & Hpre0eq).
  rewrite Hreg in Hspan, Hpre0eq. subst span0. rewrite <- Hspan.
  pose proof (api_span_has_method span) as Hm.
  set (wa := (set_active (Some span) ws).2).
  set (loop := match attributes with
               | Some attrs =>
                   forEach (fun entry : string * JsVal =>
                              when (negb (is_nullish entry.2))
                                (call_span span (SetAttribute entry.1 entry.2))) attrs
               | None => ret tt
               end).
  set (cs := flat_map (fun entry : string * JsVal =>
                         if is_nullish entry.2 then []
                         else [SetAttribute entry.1 entry.2])
                      (default [] attributes)).
  assert (runs loop wa (Normal tt) (map (Called span) cs)
          /\ filter is_End cs = []) as ((w1 & Hloop & Hsteps1) & Hcs).
  { unfold loop, cs. destruct attributes as [attrs|]; simpl.
    - split; [apply runs_raw_attributes; by apply Hm|].
      induction attrs as [|[key value] attrs IH]; [done|]. simpl.
      rewrite filter_app, IH, app_nil_r. by destruct (is_nullish value).
    - split; [apply runs_ret | done]. }
  exists w1.
  destruct Hsteps0 as (Hs0 & _ & Ha0 & _).
  destruct Hsteps1 as (Hs1 & _ & Ha1 & _).
  split; [by rewrite Ha1|].
  split; [rewrite Hs1; simpl; rewrite Hs0, Hpre0eq, Hspan; by rewrite <- app_assoc|].
  assert (forall r w3,
    try_finally
      (try_catch
         (result <- await (fn span) ;;
          call_span span (SetStatus OK JUndefined) ;; ret result)
         (fun error =>
            message <- read_prop error "message" ;;
            call_span span (SetStatus ERROR message) ;;
            call_span span (RecordException error) ;; throw error))
      (call_span span End) w1 = (r, w3) ->
    Tracing.traceWithActiveSpan rt config name fn attributes w
    = (r, (set_active (w_active w) w3).2)) as Hwhole.
  { intros r w3 Hbody. unfold Tracing.traceWithActiveSpan. rewrite Hon. simpl.
    unfold bind at 1. rewrite Hstart. rewrite with_active_unfold.
    fold wa. fold loop.
    assert (forall k : M T, bind loop (fun _ => k) wa = k w1) as Hb.
    { intros k. unfold bind. by rewrite Hloop. }
    rewrite Hb, Hbody. simpl. by rewrite Ha0. }
  rewrite try_finally_call_end in Hwhole by by apply Hm.
  unfold try_catch, bind, await in Hwhole.
  destruct (fn span w1) as [[v|e|v|e] w2].
  1,3: eexists; split; [apply Hwhole; rewrite call_span_steps by (by apply Hm); done|];
       simpl; split; [by rewrite <- app_assoc | done].
  all: specialize (Hwhole _ _ eq_refl); destruct (readable e) eqn:He.
  1,3: rewrite (read_prop_readable e "message" w2 He) in Hwhole;
       rewrite !call_span_steps in Hwhole by (by apply Hm);
       eexists _, _, _; split; [exact Hwhole|]; simpl;
       split; [by rewrite <- !app_assoc|]; split; [|done];
       change (ends_of span
                 (map (Called span)
                    [SetStatus ERROR (thrown_prop e "message");
                     RecordException e; End]) = 1);
       by rewrite ends_of_calls.
  all: assert (exists id m s, read_prop e "message" w2
                              = (Throw (ErrorObj id "TypeError" m s), (fresh w2).2))
         as (id & m & s & Hread) by (destruct e as [|[]]; try done; by eexists _, _, _);
       rewrite Hread in Hwhole;
       eexists _, _, [Called span End]; split; [exact Hwhole|]; simpl;
       split; [done|]; split; [|done];
       change (ends_of span (map (Called span) [End]) = 1);
       by rewrite ends_of_calls.
Qed.

Lemma traceWithActiveSpan_lifecycle_witness :
  exists w3,
    Tracing.traceWithActiveSpan Sample.runtime Sample.tracing_on "op"
      (fun _ w => (Returns (JNum 7), w)) (Some [("a", JNum 1)]) (Sample.world false)
    = (Normal (JNum 7), w3) /\
    w_active w3 = None.
Proof.
  destruct (traceWithActiveSpan_lifecycle Sample.runtime Sample.tracing_on "op"
              (fun _ w => (Returns (JNum 7), w)) (Some [("a", JNum 1)])
              (Sample.world false) eq_refl eq_refl eq_refl)
    as (w1 & _ & _ & (w3 & Hrun & _ & Hactive)).
  exists w3. split; [exact Hrun | exact Hactive].
Defined.

(** X9: a failing [startSpan] under [trace] and under [traceWithActiveSpan].
    [trace] goes through [createSpan], which answers the failure with the
    no-op object: the caller's function still runs and its value is
    returned, with nothing reaching the SDK.  [traceWithActiveSpan] has no
    such guard: the failure is the outcome of the call and the caller's
    function is not run at all. *)
Theorem startSpan_failure_contained_by_trace_only {T : Type} (rt : Runtime)
    (config : Tracing.TracingConfig) (name : string)
    (fn : SpanVal -> World -> Settled T * World) (attributes : option Props)
    (kind : option SpanKind) (links : option (list JsVal))
    (ename emsg : string) (w : World) :
  Tracing.enabled config = true -> tracer_registered rt = true ->
  startSpan_fault rt name = Some (ename, emsg) ->
  (forall other : SpanVal -> World -> Settled T * World,
     Tracing.traceWithActiveSpan rt config name other attributes w
     = (Throw (ErrorObj (w_next w) ename emsg (ename +:+ ": " +:+ emsg)), (fresh w).2)) /\
  let noop := StubObj (S (w_next w)) Tracing.noop_methods in
  let options := {| Tracing.opt_attributes := attributes; Tracing.opt_kind := kind;
                    Tracing.opt_links := links;
                    Tracing.opt_resultAttributes := None |} in
  match fn noop (fresh (fresh w).2).2 with
  | (Returns v, w2) | (Resolves v, w2) =>
      exists w3, Tracing.trace rt config name fn options w = (Normal v, w3) /\
                 sdk_view (w_spans w3) = sdk_view (w_spans w2)
  | (Throws e, w2) | (Rejects e, w2) =>
      exists w3, Tracing.trace rt config name fn options w = (Throw e, w3) /\
                 sdk_view (w_spans w3) = sdk_view (w_spans w2)
  end.
Proof.
  intros Hon Hreg Hfault. split.
  - intros other. unfold Tracing.traceWithActiveSpan, api_startSpan, sdk_startSpan.
    by rewrite Hon, Hreg, Hfault.
  - intros noop options.
    pose proof (createSpan_fault rt config name attributes kind links w ename emsg
                  Hon Hreg Hfault) as Hcreate.
    rewrite (trace_unfold rt config name fn options w _ _ Hcreate).
    assert (forall success error attrs w2,
      exists w3, Tracing.endSpan rt (Some noop) success error attrs w2 = (Normal tt, w3)
                 /\ sdk_view (w_spans w3) = sdk_view (w_spans w2)) as Hend.
    { intros success error attrs w2.
      destruct (runs_endSpan rt noop success error attrs w2
                  (has_noop_methods_stub (S (w_next w)))) as (w3 & Hrun & Hs & _).
      exists w3. split; [done|]. rewrite Hs, sdk_view_app.
      assert (forall cs, sdk_view (map (Called noop) cs) = []) as ->
        by (induction cs; [done | by simpl]).
      by rewrite app_nil_r. }
    assert (forall e w2,
      exists w3, (Tracing.endSpan rt (Some noop) false (Some e) None;; @throw T e)%js w2
                 = (Throw e, w3) /\ sdk_view (w_spans w3) = sdk_view (w_spans w2))
      as Hfail.
    { intros e w2. destruct (Hend false (Some e) None w2) as (w3 & Hrun & Hview).
      exists w3. unfold bind. by rewrite Hrun. }
    assert (forall (v : T) handler w2,
      exists w3, try_catch (Tracing.endSpan rt (Some noop) true None None;; ret v)%js
                   handler w2
                 = (Normal v, w3) /\ sdk_view (w_spans w3) = sdk_view (w_spans w2))
      as Hok.
    { intros v handler w2. destruct (Hend true None None w2) as (w3 & Hrun & Hview).
      exists w3. unfold try_catch, bind. by rewrite Hrun. }
    fold noop. simpl Tracing.opt_resultAttributes.
    destruct (fn noop _) as [[v|e|v|e] w2]; [apply Hok | apply Hfail | apply Hok | apply Hfail].
Qed.

Lemma startSpan_failure_contained_by_trace_only_witness :
  (Tracing.traceWithActiveSpan Sample.runtime_faulty Sample.tracing_on "op"
     Sample.fn_setAttribute None (Sample.world false)).1
  = Throw (ErrorObj 0 "Error" "exporter unavailable" "Error: exporter unavailable") /\
  (Tracing.trace Sample.runtime_faulty Sample.tracing_on "op" Sample.fn_setAttribute
     {| Tracing.opt_attributes := None; Tracing.opt_kind := None;
        Tracing.opt_links := None; Tracing.opt_resultAttributes := None |}
     (Sample.world false)).1
  = Normal JUndefined.
Proof.
  destruct (startSpan_failure_contained_by_trace_only Sample.runtime_faulty
              Sample.tracing_on "op" Sample.fn_setAttribute None None None
              "Error" "exporter unavailable" (Sample.world false)
              eq_refl eq_refl eq_refl) as [Hactive Htrace].
  split; [by rewrite (Hactive Sample.fn_setAttribute)|].
  destruct Htrace as (w3 & -> & _). reflexivity.
Defined.

(** ** lib/services/tracing.service.ts *)

Section ServicesFacts.
Context (rt : Runtime).

(** The body shared by [traceAsync] and [trace] once the span is started. *)
Lemma traced_body_run {T} (span : SpanVal) (fn : SpanVal -> M T) (w0 : World) :
  api_span span ->
  let w1 := (set_active (Some span) w0).2 in
  let body :=
    try_catch
      (with_active span
         (try_finally
            (try_catch
               (result <- fn span ;;
                call_span span (SetStatus OK JUndefined) ;;
                ret result)
               (fun error =>
                  call_span span (SetStatus ERROR (Services.message_or_String rt error)) ;;
                  exception <- Services.as_Error rt error ;;
                  call_span span (RecordException exception) ;;
                  throw error))
            (call_span span End)))
      (fun error => throw error) in
  match fn span w1 with
  | (Normal v, w2) =>
      exists w3,
        body w0 = (Normal v, w3) /\
        w_spans w3
        = w_spans w2 ++ [Called span (SetStatus OK JUndefined); Called span End] /\
        w_active w3 = w_active w0
  | (Throw e, w2) =>
      exists w3 exception,
        body w0 = (Throw e, w3) /\
        w_spans w3
        = w_spans w2
          ++ [Called span (SetStatus ERROR (Services.message_or_String rt e));
              Called span (RecordException exception);
              Called span End] /\
        w_active w3 = w_active w0 /\
        exception = match e with
                    | ErrorObj _ _ _ _ => e
                    | NonError v =>
                        ErrorObj (w_next w2) "Error" (String_of rt v)
                          ("Error: " +:+ String_of rt v)
                    end
  end.
Proof.
  intros Hapi w1 body. pose proof (api_span_has_method span) as Hm.
  destruct (fn span w1) as [[v|e] w2] eqn:Hfn;
    unfold body, try_catch at 1; rewrite with_active_unfold;
    rewrite try_finally_call_end by (by apply Hm); fold w1;
    unfold try_catch, bind; rewrite Hfn.
  - rewrite (call_span_steps span (SetStatus OK JUndefined) w2) by by apply Hm. simpl.
    eexists. split; [done|]. split; [by rewrite <- app_assoc | done].
  - rewrite (call_span_steps span (SetStatus ERROR _) w2) by by apply Hm.
    destruct e as [id ename emsg estack | v]; simpl.
    + rewrite (call_span_steps span (RecordException _)) by by apply Hm. simpl.
      eexists _, _. split; [done|]. split; [by rewrite <- !app_assoc | done].
    + rewrite (call_span_steps span (RecordException _)) by by apply Hm. simpl.
      eexists _, _. split; [done|]. split; [by rewrite <- !app_assoc | done].
Qed.

End ServicesFacts.

(** X10: [traceAsync] on an initialized service.  The span is started with
    the given kind and made the active one while the function runs.  When
    the function's promise is fulfilled the status OK is set, the span is
    ended and the value returned; when it is rejected the status ERROR is set
    with the error's message (or [String(e)] for a value that is not an
    [Error]), the exception is recorded (wrapped into a new [Error] when it
    is not one), the span is ended and the rejection value itself is passed
    on.  Either way the span is ended once and the ambient context is put
    back. *)
Theorem traceAsync_lifecycle {T : Type} (rt : Runtime) (name : string)
    (fn : SpanVal -> M T) (kind : option SpanKind) (w : World) :
  startSpan_fault rt name = None ->
  let span := SdkSpan (w_next w) in
  let w1 := (set_active (Some span)
               (emit_span (Started (w_next w) name kind None []) (fresh w).2).2).2 in
  match fn span w1 with
  | (Normal v, w2) =>
      exists w3,
        Services.traceAsync rt true name fn kind w = (Normal v, w3) /\
        w_spans w3
        = w_spans w2 ++ [Called span (SetStatus OK JUndefined); Called span End] /\
        w_active w3 = w_active w
  | (Throw e, w2) =>
      exists w3 exception,
        Services.traceAsync rt true name fn kind w = (Throw e, w3) /\
        w_spans w3
        = w_spans w2
          ++ [Called span (SetStatus ERROR (Services.message_or_String rt e));
              Called span (RecordException exception);
              Called span End] /\
        w_active w3 = w_active w /\
        exception = match e with
                    | ErrorObj _ _ _ _ => e
                    | NonError v =>
                        ErrorObj (w_next w2) "Error" (String_of rt v)
                          ("Error: " +:+ String_of rt v)
                    end
  end.
Proof.
  intros Hfault span w1.
  pose proof (traced_body_run rt span fn
                (emit_span (Started (w_next w) name kind None []) (fresh w).2).2 I)
    as Hbody.
  unfold Services.traceAsync, sdk_startSpan. rewrite Hfault.
  cbv beta iota zeta in Hbody. fold w1 in Hbody.
  destruct (fn span w1) as [[v|e] w2].
  - destruct Hbody as (w3 & Hrun & Hspans & Hactive). exists w3.
    split; [|done]. simpl. unfold bind at 1 2 3. simpl. exact Hrun.
  - destruct Hbody as (w3 & exception & Hrun & Hspans & Hactive & Hexc).
    exists w3, exception. split; [|done]. simpl. unfold bind at 1 2 3. simpl. exact Hrun.
Qed.

Lemma traceAsync_lifecycle_witness :
  exists w3,
    Services.traceAsync Sample.runtime true "job" (fun _ => throw Sample.boom) None
      (Sample.world false) = (@Throw JsVal Sample.boom, w3) /\
    w_spans w3
    = [Started 0 "job" None None [];
       Called (SdkSpan 0) (SetStatus ERROR (JStr "boom"));
       Called (SdkSpan 0) (RecordException Sample.boom);
       Called (SdkSpan 0) End].
Proof.
  destruct (traceAsync_lifecycle Sample.runtime "job"
              (fun _ => @throw JsVal Sample.boom) None (Sample.world false) eq_refl)
    as (w3 & exception & Hrun & Hspans & _ & Hexc).
  exists w3. split; [exact Hrun|]. rewrite Hspans, Hexc. reflexivity.
Defined.

(** X11: the synchronous [trace] of the same service keeps the same
    discipline: one [end] per call, status OK before a returned value,
    status ERROR and a recorded exception before a rethrown one, and the
    ambient context put back. *)
Theorem trace_sync_lifecycle {T : Type} (rt : Runtime) (name : string)
    (fn : SpanVal -> M T) (kind : option SpanKind) (w : World) :
  startSpan_fault rt name = None ->
  let span := SdkSpan (w_next w) in
  let w1 := (set_active (Some span)
               (emit_span (Started (w_next w) name kind None []) (fresh w).2).2).2 in
  match fn span w1 with
  | (Normal v, w2) =>
      exists w3,
        ServicesSync.trace rt true name fn kind w = (Normal v, w3) /\
        w_spans w3
        = w_spans w2 ++ [Called span (SetStatus OK JUndefined); Called span End] /\
        w_active w3 = w_active w
  | (Throw e, w2) =>
      exists w3 exception,
        ServicesSync.trace rt true name fn kind w = (Throw e, w3) /\
        w_spans w3
        = w_spans w2
          ++ [Called span (SetStatus ERROR (Services.message_or_String rt e));
              Called span (RecordException exception);
              Called span End] /\
        w_active w3 = w_active w /\
        exception = match e with
                    | ErrorObj _ _ _ _ => e
                    | NonError v =>
                        ErrorObj (w_next w2) "Error" (String_of rt v)
                          ("Error: " +:+ String_of rt v)
                    end
  end.
Proof.
  intros Hfault span w1.
  pose proof (traced_body_run rt span fn
                (emit_span (Started (w_next w) name kind None []) (fresh w).2).2 I)
    as Hbody.
  unfold ServicesSync.trace, sdk_startSpan. rewrite Hfault.
  cbv beta iota zeta in Hbody. fold w1 in Hbody.
  destruct (fn span w1) as [[v|e] w2].
  - destruct Hbody as (w3 & Hrun & Hspans & Hactive). exists w3.
    split; [|done]. simpl. unfold bind at 1 2 3. simpl. exact Hrun.
  - destruct Hbody as (w3 & exception & Hrun & Hspans & Hactive & Hexc).
    exists w3, exception. split; [|done]. simpl. unfold bind at 1 2 3. simpl. exact Hrun.
Qed.

Lemma trace_sync_lifecycle_witness :
  exists w3,
    ServicesSync.trace Sample.runtime true "job" (fun _ => ret (JNum 7)) None
      (Sample.world false) = (Normal (JNum 7), w3) /\
    w_spans w3
    = [Started 0 "job" None None [];
       Called (SdkSpan 0) (SetStatus OK JUndefined);
       Called (SdkSpan 0) End].
Proof.
  destruct (trace_sync_lifecycle Sample.runtime "job"
              (fun _ => ret (JNum 7)) None (Sample.world false) eq_refl)
    as (w3 & Hrun & Hspans & _).
  exists w3. split; [exact Hrun | exact Hspans].
Defined.

(** X12: [traceAsync], [trace] and [startSpan] on a service that is not
    initialized.  The function runs on a span obtained from the global API
    under the name "noop" and its outcome is the outcome of the call; the
    service sets no status on that span and never ends it, and leaves the
    ambient context alone.  Without a registered provider the span records
    nothing; with one, a recording span named "noop" is started by every
    call. *)
Theorem traceAsync_uninitialized {T : Type} (rt : Runtime) (name : string)
    (fn : SpanVal -> M T) (kind : option SpanKind) (w : World) :
  startSpan_fault rt "noop" = None ->
  exists span w1,
    Services.startSpan rt false name kind w = (Normal span, w1) /\
    Services.traceAsync rt false name fn kind w = fn span w1 /\
    ServicesSync.trace rt false name fn kind w = fn span w1 /\
    span = (if tracer_registered rt then SdkSpan (w_next w)
            else NonRecordingSpan (w_next w)) /\
    w_spans w1
    = w_spans w ++ (if tracer_registered rt
                    then [Started (w_next w) "noop" None None []] else []) /\
    w_active w1 = w_active w.
Proof.
  intros Hfault.
  destruct (runs_api_startSpan rt "noop" None None [] w Hfault)
    as (span & pre & (w1 & Hstart & Hsteps) & _ & _ & Hspan & Hpre).
  exists span, w1. unfold Services.startSpan, Services.traceAsync, ServicesSync.trace,
    Services.noop_startSpan, bind. simpl. rewrite Hstart.
  repeat split; try done.
  - rewrite <- Hpre. apply Hsteps.
  - apply Hsteps.
Qed.

Lemma traceAsync_uninitialized_witness :
  exists w1,
    Services.traceAsync Sample.runtime false "job" (fun _ => ret (JNum 7)) None
      (Sample.world false) = (Normal (JNum 7), w1) /\
    w_spans w1 = [Started 0 "noop" None None []].
Proof.
  destruct (traceAsync_uninitialized Sample.runtime "job" (fun _ => ret (JNum 7))
              None (Sample.world false) eq_refl)
    as (span & w1 & _ & Hrun & _ & _ & Hspans & _).
  exists w1. split; [by rewrite Hrun | exact Hspans].
Defined.

(** X13: [addEvent], [setAttributes] and [setError] act on the current span
    only.  While the service is not initialized, or when no span is active,
    each of them returns without doing anything.  With an active span of the
    API, [addEvent] and [setAttributes] make the one call of their name on
    it, and [setError] with an [Error] sets the status ERROR with its
    message and records that very object. *)
Theorem current_span_helpers (rt : Runtime) (initialized : bool) (name : string)
    (attributes : option Props) (attrs : Props) (id : nat)
    (ename emsg estack : string) (w : World) :
  let e := ErrorObj id ename emsg estack in
  (initialized = false \/ w_active w = None ->
   Services.addEvent initialized name attributes w = (Normal tt, w) /\
   Services.setAttributes initialized attrs w = (Normal tt, w) /\
   Services.setError rt initialized e w = (Normal tt, w)) /\
  (forall span,
     initialized = true -> w_active w = Some span -> api_span span ->
     runs (Services.addEvent initialized name attributes) w (Normal tt)
          [Called span (AddEvent name attributes)] /\
     runs (Services.setAttributes initialized attrs) w (Normal tt)
          [Called span (SetAttributes attrs)] /\
     runs (Services.setError rt initialized e) w (Normal tt)
          [Called span (SetStatus ERROR (JStr emsg)); Called span (RecordException e)]).
Proof.
  intros e. split.
  - intros [-> | Hnone]; [done|].
    destruct initialized; [|done].
    unfold Services.addEvent, Services.setAttributes, Services.setError,
      Services.getCurrentSpan, bind, get_world, ret. simpl.
    by destruct (w_active w).
  - intros span -> Hactive Hapi. pose proof (api_span_has_method span) as Hm.
    assert (Services.getCurrentSpan true w = (Normal (Some span), w)) as Hcur.
    { unfold Services.getCurrentSpan, bind, get_world, ret. simpl. by rewrite Hactive. }
    assert (forall (k : option SpanVal -> M unit) evs,
              runs (k (Some span)) w (Normal tt) evs ->
              runs (bind (Services.getCurrentSpan true) k) w (Normal tt) evs) as Hbind.
    { intros k evs (w' & Hk & Hs). exists w'. unfold bind. by rewrite Hcur. }
    split; [apply Hbind; by apply runs_call, Hm|].
    split; [apply Hbind; by apply runs_call, Hm|].
    apply Hbind.
    apply (runs_bind _ _ _ tt _ [_] [_]); [by apply runs_call, Hm|].
    intros w1. simpl. by apply runs_call, Hm.
Qed.

Lemma current_span_helpers_witness :
  Services.setError Sample.runtime false Sample.boom (Sample.world false)
  = (Normal tt, Sample.world false) /\
  runs (Services.setError Sample.runtime true Sample.boom)
       (set_active (Some (SdkSpan 0)) (Sample.world false)).2 (Normal tt)
       [Called (SdkSpan 0) (SetStatus ERROR (JStr "boom"));
        Called (SdkSpan 0) (RecordException Sample.boom)].
Proof.
  split.
  - destruct (current_span_helpers Sample.runtime false "cache.miss" None [] 99
                "Error" "boom" "Error: boom" (Sample.world false)) as [Hidle _].
    destruct (Hidle (or_introl eq_refl)) as (_ & _ & Herror). exact Herror.
  - destruct (current_span_helpers Sample.runtime true "cache.miss" None [] 99
                "Error" "boom" "Error: boom"
                (set_active (Some (SdkSpan 0)) (Sample.world false)).2) as [_ Hactive].
    destruct (Hactive (SdkSpan 0) eq_refl eq_refl I) as (_ & _ & Herror).
    exact Herror.
Defined.

(** ** The HTTP interceptor of the observability module *)









(** ** Recording on the registry's instruments *)

Section RecordingFacts.
Import Metrics.

Lemma created_elem kind key log id :
  id ∈ created kind key log -> exists ev, ev ∈ log /\ event_id ev = id.
Proof.
  unfold created. induction log as [|ev log IH]; simpl; [by intros ?%elem_of_nil|].
  intros [Hin|Hin]%elem_of_app.
  - exists ev. split; [left|].
    destruct ev as [k id' n d u| |]; try by apply elem_of_nil in Hin.
    destruct (bool_decide (k = kind /\ n = key)); [|by apply elem_of_nil in Hin].
    by apply list_elem_of_singleton in Hin as ->.
  - destruct (IH Hin) as (ev' & Hev' & Hid). exists ev'. split; [by right | done].
Qed.

Lemma measured_on_ext (kind : InstrumentKind) (ids1 ids2 : list nat) (log : list MeterEvent) :
  (forall ev, ev ∈ log -> event_id ev ∈ ids1 <-> event_id ev ∈ ids2) ->
  flat_map (fun ev => match ev with
                      | Measured (SdkInstrument k id) _ value _ =>
                          if bool_decide (k = kind /\ id ∈ ids1) then [value] else []
                      | _ => []
                      end) log
  = flat_map (fun ev => match ev with
                        | Measured (SdkInstrument k id) _ value _ =>
                            if bool_decide (k = kind /\ id ∈ ids2) then [value] else []
                        | _ => []
                        end) log.
Proof.
  induction log as [|ev log IH]; intros Hids; [done|]. simpl.
  rewrite IH by (intros ev' Hev'; apply Hids; by right). f_equal.
  destruct ev as [| |[k id|] m v a]; try done.
  specialize (Hids (Measured (SdkInstrument k id) m v a) ltac:(left)). simpl in Hids.
  destruct (decide (k = kind)) as [->|Hk].
  - destruct (decide (id ∈ ids1)) as [H1|H1].
    + rewrite (bool_decide_true (kind = kind /\ id ∈ ids1)) by done.
      by rewrite (bool_decide_true (kind = kind /\ id ∈ ids2))
        by (split; [done | by apply Hids]).
    + rewrite (bool_decide_false (kind = kind /\ id ∈ ids1)) by (by intros [_ ?]).
      rewrite (bool_decide_false (kind = kind /\ id ∈ ids2)); [done|].
      intros [_ H2]. by apply H1, Hids.
  - rewrite (bool_decide_false (k = kind /\ id ∈ ids1)) by (by intros [? _]).
    by rewrite (bool_decide_false (k = kind /\ id ∈ ids2)) by (by intros [? _]).
Qed.

Lemma measured_on_app_measured kind key log k id m v a :
  measured_on kind key (log ++ [Measured (SdkInstrument k id) m v a])
  = measured_on kind key log
    ++ (if bool_decide (k = kind /\ id ∈ created kind key log) then [v] else []).
Proof.
  unfold measured_on. rewrite created_app. simpl. rewrite app_nil_r.
  rewrite flat_map_app. simpl. by rewrite app_nil_r.
Qed.

Lemma measured_on_app_created kind key log k id n d u :
  (forall ev, ev ∈ log -> event_id ev < id) ->
  measured_on kind key (log ++ [Created k id n d u]) = measured_on kind key log.
Proof.
  intros Hids. unfold measured_on. rewrite created_app, flat_map_app. simpl.
  rewrite app_nil_r. apply measured_on_ext. intros ev Hev.
  rewrite elem_of_app. split; [|by left].
  intros [?|Hin]; [done|]. specialize (Hids ev Hev).
  destruct (bool_decide (k = kind /\ n = key)); [|by apply elem_of_nil in Hin].
  apply list_elem_of_singleton in Hin. lia.
Qed.

Lemma registry_inv_measured w i method value attrs :
  registry_inv w -> instrument_id i < w_next w ->
  registry_inv (emit_meter (Measured i method value attrs) w).2.
Proof.
  intros [Hcache Hids] Hi. split.
  - intros kind key. specialize (Hcache kind key). simpl.
    rewrite created_app. simpl. by rewrite app_nil_r.
  - intros ev. simpl. rewrite elem_of_app. intros [Hev|Hev]; [by apply Hids|].
    by apply list_elem_of_singleton in Hev as ->.
Qed.

(** Looking an instrument up and recording one value on it. *)
Lemma record_on_accessor options kind name callback opts method value attrs w :
  kind <> ObservableGauge ->
  (forall id, instrument_has (SdkInstrument kind id) method = true) ->
  initialized (w_metrics w) = true -> registry_inv w ->
  exists w',
    (i <- accessor options kind name callback opts ;;
     call_instrument i method (Measured i method value attrs))%js w = (Normal tt, w') /\
    registry_inv w' /\ initialized (w_metrics w') = true /\
    measured_on kind (getMetricKey options name) (w_meter w')
    = measured_on kind (getMetricKey options name) (w_meter w) ++ [value] /\
    length (created kind (getMetricKey options name) (w_meter w')) = 1 /\
    w_spans w' = w_spans w /\ w_active w' = w_active w.
Proof.
  intros Hkind Hhas Hinit Hinv. set (key := getMetricKey options name).
  assert (forall i w1 id,
    accessor options kind name callback opts w = (Normal i, w1) ->
    i = SdkInstrument kind id -> registry_inv w1 -> id < w_next w1 ->
    created kind key (w_meter w1) = [id] ->
    initialized (w_metrics w1) = true ->
    measured_on kind key (w_meter w1) = measured_on kind key (w_meter w) ->
    w_spans w1 = w_spans w -> w_active w1 = w_active w ->
    exists w',
      (i <- accessor options kind name callback opts ;;
       call_instrument i method (Measured i method value attrs))%js w = (Normal tt, w') /\
      registry_inv w' /\ initialized (w_metrics w') = true /\
      measured_on kind key (w_meter w') = measured_on kind key (w_meter w) ++ [value] /\
      length (created kind key (w_meter w')) = 1 /\
      w_spans w' = w_spans w /\ w_active w' = w_active w) as Hfinish.
  { intros i w1 id Hrun -> Hinv1 Hid Hcreated Hinit1 Hmeasured Hspans Hactive.
    exists (emit_meter (Measured (SdkInstrument kind id) method value attrs) w1).2.
    split; [unfold bind, call_instrument; by rewrite Hrun, Hhas|].
    split; [by apply registry_inv_measured|]. split; [done|]. simpl.
    rewrite measured_on_app_measured, created_app, Hcreated, Hmeasured. simpl.
    rewrite bool_decide_true by (split; [done | left]).
    by repeat split. }
  destruct (cache kind (w_metrics w) !! key) as [i|] eqn:Hi.
  - pose proof (proj1 Hinv kind key) as Hentry. rewrite Hi in Hentry.
    destruct Hentry as (id & -> & Hcreated).
    apply (Hfinish (SdkInstrument kind id) w id); try done.
    + by apply accessor_cached.
    + destruct (created_elem kind key (w_meter w) id) as (ev & Hev & <-).
      { rewrite Hcreated. left. }
      by apply (proj2 Hinv).
  - pose proof (accessor_absent options kind name callback opts w Hinit Hi) as Hrun.
    pose proof (proj1 Hinv kind key) as Hentry. rewrite Hi in Hentry.
    eapply (Hfinish (SdkInstrument kind (w_next w)) _ (w_next w));
      [exact Hrun | done | | | | | | |].
    + by apply registry_inv_after_creation.
    + simpl. lia.
    + rewrite creation_events, Hentry. by rewrite bool_decide_true.
    + unfold after_creation. simpl. by rewrite initialized_with_cache.
    + unfold after_creation. simpl.
      destruct kind; try done; apply measured_on_app_created, (proj2 Hinv).
    + done.
    + done.
Qed.

End RecordingFacts.

(** X16: once the registry is initialized, each of the five HTTP recorders
    ([recordHttpRequestDuration], [incrementHttpRequestTotal],
    [incrementHttpErrorTotal], [recordHttpRequestSize],
    [recordHttpResponseSize]) returns normally, adds exactly its value (the
    duration or size given, or 1 for the two counters) after the values
    already measured on the instrument of its kind under its key, leaves that
    key with exactly one instrument whether or not it existed before, keeps
    the registry initialized and consistent, and touches no span. *)
Theorem http_recorder_measures_once (options : Metrics.MetricsOptions)
    (r : HttpRecorders.HttpRecorder) (attributes : Props) (w : World) :
  initialized (w_metrics w) = true -> Metrics.registry_inv w ->
  exists w',
    HttpRecorders.run options r attributes w = (Normal tt, w') /\
    Metrics.registry_inv w' /\ initialized (w_metrics w') = true /\
    Metrics.measured_on (HttpRecorders.kind_of r)
      (Metrics.getMetricKey options (HttpRecorders.name_of r)) (w_meter w')
    = Metrics.measured_on (HttpRecorders.kind_of r)
        (Metrics.getMetricKey options (HttpRecorders.name_of r)) (w_meter w)
      ++ [HttpRecorders.value_of r] /\
    length (Metrics.created (HttpRecorders.kind_of r)
              (Metrics.getMetricKey options (HttpRecorders.name_of r))
              (w_meter w')) = 1 /\
    w_spans w' = w_spans w /\ w_active w' = w_active w.
Proof.
  intros Hinit Hinv.
  destruct r as [duration| | |size|size]; simpl;
    unfold Metrics.recordHttpRequestDuration, Metrics.incrementHttpRequestTotal,
      Metrics.incrementHttpErrorTotal, Metrics.recordHttpRequestSize,
      Metrics.recordHttpResponseSize;
    unfold bind at 1; unfold get_world; rewrite Hinit; simpl negb; cbv iota.
  - by apply (record_on_accessor options Histogram Metrics.HTTP_REQUEST_DURATION
                (fun _ => 0%Z) None "record" duration attributes w).
  - by apply (record_on_accessor options Counter Metrics.HTTP_REQUEST_TOTAL
                (fun _ => 0%Z) None "add" 1%Z attributes w).
  - by apply (record_on_accessor options Counter Metrics.HTTP_ERROR_TOTAL
                (fun _ => 0%Z) None "add" 1%Z attributes w).
  - by apply (record_on_accessor options Histogram Metrics.HTTP_REQUEST_SIZE
                (fun _ => 0%Z) Metrics.unit_By "record" size attributes w).
  - by apply (record_on_accessor options Histogram Metrics.HTTP_RESPONSE_SIZE
                (fun _ => 0%Z) Metrics.unit_By "record" size attributes w).
Qed.

Lemma http_recorder_measures_once_witness :
  initialized (w_metrics (Sample.world true)) = true /\
  Metrics.registry_inv (Sample.world true) /\
  exists w',
    Metrics.recordHttpRequestSize Sample.metrics_prefixed 512 []
      (Sample.world true) = (Normal tt, w') /\
    Metrics.measured_on Histogram "app_http.request.size" (w_meter w') = [512%Z].
Proof.
  split; [reflexivity|]. split; [apply registry_inv_start|].
  destruct (http_recorder_measures_once Sample.metrics_prefixed
              (HttpRecorders.RequestSize 512) [] (Sample.world true)
              eq_refl (registry_inv_start true))
    as (w' & Hrun & _ & _ & Hmeasured & _).
  exists w'. split; [exact Hrun | exact Hmeasured].
Defined.

(** X17: while the registry is not initialized, each of the five HTTP
    recorders returns at once and leaves everything as it was: no instrument
    is looked up, and no stand-in instrument is made. *)
Theorem http_recorder_uninitialized (options : Metrics.MetricsOptions)
    (r : HttpRecorders.HttpRecorder) (attributes : Props) (w : World) :
  initialized (w_metrics w) = false ->
  HttpRecorders.run options r attributes w = (Normal tt, w).
Proof.
  intros Hinit.
  destruct r; simpl;
    unfold Metrics.recordHttpRequestDuration, Metrics.incrementHttpRequestTotal,
      Metrics.incrementHttpErrorTotal, Metrics.recordHttpRequestSize,
      Metrics.recordHttpResponseSize;
    unfold bind at 1; unfold get_world; by rewrite Hinit.
Qed.

Lemma http_recorder_uninitialized_witness :
  initialized (w_metrics (Sample.world false)) = false /\
  Metrics.incrementHttpErrorTotal Sample.metrics_options [] (Sample.world false)
  = (Normal tt, Sample.world false).
Proof.
  split; [reflexivity|].
  exact (http_recorder_uninitialized Sample.metrics_options
           HttpRecorders.ErrorTotal [] (Sample.world false) eq_refl).
Defined.

(** ** The [Trace] decorator of the tracing library *)

Lemma has_noop_methods_sdk id : Tracing.has_noop_methods (SdkSpan id).
Proof. by intros m _. Qed.

(** X18: a method decorated with [Trace], on a class that was given a
    tracing service whose tracing is on.  The span is named by the given
    name or else [Class.method]; its kind is SERVER for a class whose name
    contains "Controller", else CLIENT for a method whose name contains
    "fetch", "request", "call" or "get", and only otherwise the kind asked
    for; the links asked for are not passed on; the three [code.*]
    attributes are set unless the caller's attributes replace them.  The
    span is ended by [trace] whatever [autoEnd] says: with [autoEnd] false
    only the [result.*] attributes are left out.  The method's value or
    error is handed on as it is. *)
Theorem Trace_decorator_lifecycle (rt : Runtime) (config : Tracing.TracingConfig)
    (name : option string) (options : option TraceDecorator.SpanOptions)
    (className propertyKey : string)
    (originalMethod : World -> Settled JsVal * World) (w : World) :
  Tracing.enabled config = true -> tracer_registered rt = true ->
  startSpan_fault rt (TraceDecorator.spanName name className propertyKey) = None ->
  let span := SdkSpan (w_next w) in
  let attributes := TraceDecorator.combinedAttributes options className propertyKey in
  exists w1,
    w_spans w1
    = w_spans w
      ++ Started (w_next w) (TraceDecorator.spanName name className propertyKey)
           (Some (TraceDecorator.spanKind options className propertyKey)) None
           (spread [("service.name", Tracing.serviceName config);
                    ("service.version", Tracing.serviceVersion config);
                    ("environment", Tracing.environment config)]
                   attributes)
         :: map (Called span) (Tracing.attach_calls rt (Some attributes)) /\
    match originalMethod w1 with
    | (Returns v, w2) | (Resolves v, w2) =>
        exists w3,
          TraceDecorator.decorated rt (Some config) name options className propertyKey
            originalMethod w = (Normal v, w3) /\
          w_spans w3
          = w_spans w2
            ++ map (Called span)
                 (Tracing.endSpan_calls rt true None
                    (match options ≫= TraceDecorator.autoEnd with
                     | Some false => None
                     | _ => Some (TraceDecorator.resultAttributes v)
                     end))
    | (Throws e, w2) | (Rejects e, w2) =>
        exists w3,
          TraceDecorator.decorated rt (Some config) name options className propertyKey
            originalMethod w = (Throw e, w3) /\
          w_spans w3
          = w_spans w2 ++ map (Called span) (Tracing.endSpan_calls rt false (Some e) None)
    end.
Proof.
  intros Hon Hreg Hfault span attributes.
  destruct (createSpan_recording rt config
              (TraceDecorator.spanName name className propertyKey)
              (Some attributes)
              (Some (TraceDecorator.spanKind options className propertyKey)) None w
              Hon Hreg Hfault) as (w1 & Hcreate & Hsteps).
  exists w1. split; [apply Hsteps|].
  unfold TraceDecorator.decorated.
  rewrite (trace_unfold rt config _ (fun _ => originalMethod)
             (TraceDecorator.trace_options options className propertyKey) w w1 span
             Hcreate).
  assert (forall success error attrs w2,
    exists w3, Tracing.endSpan rt (Some span) success error attrs w2 = (Normal tt, w3) /\
               w_spans w3
               = w_spans w2
                 ++ map (Called span) (Tracing.endSpan_calls rt success error attrs))
    as Hend.
  { intros success error attrs w2.
    destruct (runs_endSpan rt span success error attrs w2 (has_noop_methods_sdk _))
      as (w3 & Hrun & Hs & _).
    by exists w3. }
  assert (forall e w2,
    exists w3,
      (Tracing.endSpan rt (Some span) false (Some e) None ;; @throw JsVal e)%js w2
      = (Throw e, w3) /\
      w_spans w3
      = w_spans w2 ++ map (Called span) (Tracing.endSpan_calls rt false (Some e) None))
    as Hfail.
  { intros e w2. destruct (Hend false (Some e) None w2) as (w3 & Hrun & Hs).
    exists w3. unfold bind. by rewrite Hrun. }
  assert (forall (v : JsVal) attrs handler w2,
    exists w3,
      try_catch (Tracing.endSpan rt (Some span) true None attrs ;; ret v)%js handler w2
      = (Normal v, w3) /\
      w_spans w3
      = w_spans w2 ++ map (Called span) (Tracing.endSpan_calls rt true None attrs))
    as Hok.
  { intros v attrs handler w2. destruct (Hend true None attrs w2) as (w3 & Hrun & Hs).
    exists w3. unfold try_catch, bind. by rewrite Hrun. }
  simpl Tracing.opt_resultAttributes.
  destruct (originalMethod w1) as [[v|e|v|e] w2]; try apply Hfail.
  all: destruct (options ≫= TraceDecorator.autoEnd) as [[|]|]; apply Hok.
Qed.

Lemma Trace_decorator_lifecycle_witness :
  exists w3,
    TraceDecorator.decorated Sample.runtime (Some Sample.tracing_on) None
      (Some {| TraceDecorator.attributes := None;
               TraceDecorator.autoEnd := Some false;
               TraceDecorator.kind := Some PRODUCER;
               TraceDecorator.links := Some [JStr "link"] |})
      "OrdersService" "getOrders" (fun w => (Resolves (JArr [JNum 1; JNum 2]), w))
      (Sample.world false)
    = (Normal (JArr [JNum 1; JNum 2]), w3) /\
    w_spans w3
    = [Started 0 "OrdersService.getOrders" (Some CLIENT) None
         [("service.name", JStr "svc"); ("service.version", JStr "1.0.0");
          ("environment", JStr "test"); ("code.function", JStr "getOrders");
          ("code.namespace", JStr "OrdersService");
          ("code.filepath", JStr "OrdersService")];
       Called (SdkSpan 0) (SetAttribute "code.function" (JStr "getOrders"));
       Called (SdkSpan 0) (SetAttribute "code.namespace" (JStr "OrdersService"));
       Called (SdkSpan 0) (SetAttribute "code.filepath" (JStr "OrdersService"));
       Called (SdkSpan 0) (SetAttribute "operation.success" (JBool true));
       Called (SdkSpan 0) (SetStatus OK JUndefined);
       Called (SdkSpan 0) End].
Proof.
  destruct (Trace_decorator_lifecycle Sample.runtime Sample.tracing_on None
              (Some {| TraceDecorator.attributes := None;
                       TraceDecorator.autoEnd := Some false;
                       TraceDecorator.kind := Some PRODUCER;
                       TraceDecorator.links := Some [JStr "link"] |})
              "OrdersService" "getOrders"
              (fun w => (Resolves (JArr [JNum 1; JNum 2]), w))
              (Sample.world false) eq_refl eq_refl eq_refl)
    as (w1 & Hpre & w3 & Hrun & Hspans).
  exists w3. split; [exact Hrun|]. rewrite Hspans, Hpre. reflexivity.
Defined.
